(** * Ekklesia back end: attendee roster, import and check-in

    A shallow embedding of [routes/attendees.js] (normalisation helpers,
    the seven roster handlers) over a small model of the PostgreSQL store
    declared in [migrate.js], followed by the properties of the design
    document that concern it.

    Modelling conventions.
    - A JavaScript string is a [string] of 8-bit code units (the Latin-1
      range of UTF-16).  [toLowerCase], [trim] and the regular expression
      classes are the JavaScript ones restricted to that range.
    - A JavaScript value that reaches the helpers is [null], [undefined] or
      a string ([jsval]).
    - Identifiers and timestamps are natural numbers.
    - The store is a record of tables; a handler is a function from the
      store to a response and a new store, written in a state-and-exception
      monad because every [await pool.query] may throw. *)

From Stdlib Require Import String Ascii List Bool Arith Lia.
From Stdlib Require Import DecimalString Sorted.
Import ListNotations.
Local Open Scope string_scope.
Local Open Scope list_scope.
Local Open Scope nat_scope.

(* ------------------------------------------------------------------ *)
(** ** JavaScript strings *)

Module JS.

(** Code-unit classes used by the source's regular expressions. *)
Definition code (c : ascii) : nat := nat_of_ascii c.

Definition between (lo hi : nat) (c : ascii) : bool :=
  (lo <=? code c) && (code c <=? hi).

(** [\d] *)
Definition is_digit (c : ascii) : bool := between 48 57 c.

(** [\D] *)
Definition is_non_digit (c : ascii) : bool := negb (is_digit c).

(** [[a-z0-9]] *)
Definition is_lower_alnum (c : ascii) : bool :=
  between 97 122 c || between 48 57 c.

(** [[^a-z0-9]] *)
Definition is_not_lower_alnum (c : ascii) : bool := negb (is_lower_alnum c).

(** White space removed by [String.prototype.trim]: TAB, LF, VT, FF, CR,
    SPACE and NBSP. *)
Definition is_space (c : ascii) : bool :=
  between 9 13 c || (code c =? 32) || (code c =? 160).

(** [String.prototype.toLowerCase] on one code unit: A-Z and the Latin-1
    capitals (all of U+00C0..U+00DE but the multiplication sign). *)
Definition toLowerChar (c : ascii) : ascii :=
  if between 65 90 c || (between 192 222 c && negb (code c =? 215))
  then ascii_of_nat (code c + 32)
  else c.

Fixpoint map_chars (f : ascii -> ascii) (s : string) : string :=
  match s with
  | EmptyString => EmptyString
  | String c r => String (f c) (map_chars f r)
  end.

Definition toLowerCase (s : string) : string := map_chars toLowerChar s.

(** [s.replace(/[cls]/g, "")]: every code unit of the class is deleted. *)
Fixpoint replace_all_empty (cls : ascii -> bool) (s : string) : string :=
  match s with
  | EmptyString => EmptyString
  | String c r =>
      if cls c then replace_all_empty cls r
      else String c (replace_all_empty cls r)
  end.

Fixpoint trimStart (s : string) : string :=
  match s with
  | EmptyString => EmptyString
  | String c r => if is_space c then trimStart r else s
  end.

Fixpoint trimEnd (s : string) : string :=
  match s with
  | EmptyString => EmptyString
  | String c r =>
      match trimEnd r with
      | EmptyString => if is_space c then EmptyString else String c EmptyString
      | r' => String c r'
      end
  end.

Definition trim (s : string) : string := trimEnd (trimStart s).

(** [s.includes(k)] *)
Fixpoint includes (s k : string) : bool :=
  if prefix k s then true
  else match s with
       | EmptyString => false
       | String _ r => includes r k
       end.

Fixpoint all_chars (p : ascii -> bool) (s : string) : bool :=
  match s with
  | EmptyString => true
  | String c r => p c && all_chars p r
  end.

(** [t] is [s] with some code units deleted, the others in their order. *)
Inductive subsequence : string -> string -> Prop :=
| sub_nil : subsequence EmptyString EmptyString
| sub_skip c t s : subsequence t s -> subsequence t (String c s)
| sub_keep c t s : subsequence t s -> subsequence (String c t) (String c s).

(** The values the helpers receive. *)
Inductive jsval : Type :=
| JNull
| JUndefined
| JStr (s : string).

(** JavaScript truthiness: [null], [undefined] and [""] are falsy. *)
Definition truthy (v : jsval) : bool :=
  match v with
  | JStr s => negb (s =? "")%string
  | _ => false
  end.

(** [v || null], as handed to a query parameter. *)
Definition or_null (v : jsval) : option string :=
  match v with
  | JStr s => if (s =? "")%string then None else Some s
  | _ => None
  end.

(** [v.toString()]; the source applies it to truthy values only, which
    are strings here (on [null] and [undefined] JavaScript throws). *)
Definition toString (v : jsval) : string :=
  match v with
  | JStr s => s
  | _ => ""
  end.

(** [`${n}`] for a count. *)
Definition show_nat (n : nat) : string :=
  NilEmpty.string_of_uint (Nat.to_uint n).

End JS.
Import JS.

(* ------------------------------------------------------------------ *)
(** ** Normalisation utilities *)

(** [function normalizePhone(number) {
       if (!number) return null;
       let digits = number.toString().replace(/\D/g, "");
       return digits; }] *)
Definition normalizePhone (number : jsval) : jsval :=
  if negb (truthy number) then JNull
  else
    let digits := replace_all_empty is_non_digit (toString number) in
    JStr digits.

(** [function normalizeName(name) {
       if (!name) return "";
       return name.toString().trim().toLowerCase()
                  .replace(/[^a-z0-9]/g, ""); }] *)
Definition normalizeName (name : jsval) : jsval :=
  if negb (truthy name) then JStr ""
  else JStr (replace_all_empty is_not_lower_alnum
               (toLowerCase (trim (toString name)))).

(** A comparison key is empty when the caller's [if (key)] test fails. *)
Definition empty_key (v : jsval) : bool := negb (truthy v).

(* ------------------------------------------------------------------ *)
(** ** The store

    The two tables of [migrate.js], the columns the handlers read. *)

(** [events]: [id SERIAL PRIMARY KEY], [name VARCHAR(255) NOT NULL],
    [is_finished BOOLEAN DEFAULT FALSE]. *)
Record event_row : Type := mkEvent {
  ev_id : nat;
  ev_name : string;
  is_finished : bool
}.

(** [source VARCHAR(10) DEFAULT 'manual']: the handlers write ['manual'] and
    ['import']. *)
Inductive source_tag : Type := src_manual | src_import.

(** [attendees]; [NULL] is [None]. *)
Record attendee_row : Type := mkAttendee {
  att_id : nat;
  event_id : nat;
  att_name : string;
  phone_number : option string;
  email : option string;
  checked_in : bool;
  checked_in_at : option nat;
  source : source_tag;
  created_at : nat;
  updated_at : nat
}.

(** The row [getEventStats] returns. *)
Record stats : Type := mkStats {
  total_attendees : nat;
  checked_in_count : nat
}.

(** Statements the handlers send, with their parameters. *)
Inductive statement : Type :=
| SelectEvent (eventId : nat)
| SelectStats (eventId : nat)
| Begin
| Commit
| Rollback
| SelectByPhone (eventId : nat) (normPhone : string)
| SelectByName (eventId : nat) (normName : string)
| InsertAttendee (eventId : nat) (name : string) (phone mail : option string)
                 (src : source_tag)
| SelectAttendee (attendeeId eventId : nat)
| UpdateCheckIn (attendeeId eventId : nat)
| UpdateUndoCheckIn (attendeeId eventId : nat)
| DeleteAttendee (attendeeId eventId : nat)
| DeleteAttendees (eventId : nat).


(** What a rejected [await] throws. *)
Inductive error : Type :=
| StoreFault            (* connection lost, timeout, ... *)
| ValueTooLong          (* a VARCHAR(n) column overflows *)
| ForeignKeyViolation   (* [event_id] references no event *)
| TypeError             (* a property of [undefined] is read *)
| ParseError.           (* [XLSX.read] rejects the buffer *)

Definition error_message (e : error) : string :=
  match e with
  | StoreFault => "Connection terminated unexpectedly"
  | ValueTooLong => "value too long for type character varying"
  | ForeignKeyViolation => "insert or update on table attendees violates foreign key constraint"
  | TypeError => "Cannot read properties of undefined"
  | ParseError => "Unsupported file"
  end.

(** What [emitToEvent] hands to socket.io. *)
Inductive emit_payload : Type :=
| with_attendee (attendee : attendee_row) (st : stats)
| with_counts (imported skipped : nat) (st : stats)
| with_attendee_id (attendeeId : nat) (st : stats)
| with_stats (st : stats).

Record emission : Type := mkEmission {
  room : nat;
  event_name : string;
  payload : emit_payload
}.

(** The world a request runs in.
    - [attendees] holds the committed rows in insertion order, [txn] the
      rows as the open transaction of [client] sees them.
    - [issued] logs every statement sent, newest first, with whether the
      store accepted it.
    - [faults] lists the positions (counted from 0 in [issued] order of
      sending) at which the store will reject whatever it is sent: the
      failures that do not depend on the data. *)
Record world : Type := mkWorld {
  events : list event_row;
  attendees : list attendee_row;
  txn : option (list attendee_row);
  attendees_id_seq : nat;
  clock : nat;
  issued : list (statement * bool);
  faults : list nat;
  emitted : list emission
}.

Inductive conn : Type := pool | client.

(** The rows a connection reads. *)
Definition view (c : conn) (w : world) : list attendee_row :=
  match c, txn w with
  | client, Some t => t
  | _, _ => attendees w
  end.

(** The rows a connection writes. *)
Definition set_view (c : conn) (rows : list attendee_row) (w : world) : world :=
  match c, txn w with
  | client, Some _ =>
      mkWorld (events w) (attendees w) (Some rows) (attendees_id_seq w)
              (clock w) (issued w) (faults w) (emitted w)
  | _, _ =>
      mkWorld (events w) rows (txn w) (attendees_id_seq w)
              (clock w) (issued w) (faults w) (emitted w)
  end.

Definition set_txn (t : option (list attendee_row)) (w : world) : world :=
  mkWorld (events w) (attendees w) t (attendees_id_seq w)
          (clock w) (issued w) (faults w) (emitted w).

Definition next_id (w : world) : world :=
  mkWorld (events w) (attendees w) (txn w) (S (attendees_id_seq w))
          (clock w) (issued w) (faults w) (emitted w).

(** A statement was sent: it is logged and time passes. *)
Definition note (s : statement) (accepted : bool) (w : world) : world :=
  mkWorld (events w) (attendees w) (txn w) (attendees_id_seq w)
          (S (clock w)) ((s, accepted) :: issued w) (faults w) (emitted w).

Definition fault_due (w : world) : bool :=
  existsb (Nat.eqb (length (issued w))) (faults w).

(** *** The monad of handlers *)

Inductive result (A : Type) : Type :=
| Ok (a : A)
| Throw (e : error).
Arguments Ok {A} a.
Arguments Throw {A} e.

Definition M (A : Type) : Type := world -> result A * world.

Definition ret {A} (a : A) : M A := fun w => (Ok a, w).

Definition throw {A} (e : error) : M A := fun w => (Throw e, w).

Definition bind {A B} (m : M A) (k : A -> M B) : M B :=
  fun w =>
    match m w with
    | (Ok a, w') => k a w'
    | (Throw e, w') => (Throw e, w')
    end.

(** [try { m } catch (err) { h err }] *)
Definition try_catch {A} (m : M A) (h : error -> M A) : M A :=
  fun w =>
    match m w with
    | (Ok a, w') => (Ok a, w')
    | (Throw e, w') => h e w'
    end.

(** [try { m } finally { f }] *)
Definition try_finally {A} (m : M A) (f : M unit) : M A :=
  fun w =>
    match m w with
    | (r, w') =>
        match f w' with
        | (Ok _, w'') => (r, w'')
        | (Throw e, w'') => (Throw e, w'')
        end
    end.

Declare Scope handler_scope.
Delimit Scope handler_scope with handler.
Notation "x <- m ;; k" := (bind m (fun x => k))
  (at level 61, m at next level, right associativity) : handler_scope.
Notation "m ;; k" := (bind m (fun _ => k))
  (at level 61, right associativity) : handler_scope.
Local Open Scope handler_scope.

(** [await conn.query(s)]: the store rejects [s] when a fault is due or
    when [sem] does, otherwise [sem] gives the rows and the new tables. *)
Definition query {A} (s : statement) (sem : world -> error + A * world) : M A :=
  fun w =>
    if fault_due w then (Throw StoreFault, note s false w)
    else
      match sem w with
      | inl e => (Throw e, note s false w)
      | inr (a, w') => (Ok a, note s true w')
      end.

(** *** SQL expressions of the queries *)

(** [lower(name)] on the letters that matter to the comparison. *)
Definition sql_lower (s : string) : string :=
  map_chars (fun c => if between 65 90 c then ascii_of_nat (code c + 32) else c) s.

(** [regexp_replace(lower(name), '[^a-z0-9]', '', 'g')] *)
Definition sql_name_key (name : string) : string :=
  replace_all_empty is_not_lower_alnum (sql_lower name).

(** [regexp_replace(phone_number, '\D', '', 'g')], [NULL] on [NULL]. *)
Definition sql_phone_key (phone : option string) : option string :=
  match phone with
  | Some p => Some (replace_all_empty is_non_digit p)
  | None => None
  end.

Definition limit_1 {A} (found : option A) : list A :=
  match found with
  | Some r => [r]
  | None => []
  end.

Definition in_event (eventId : nat) (a : attendee_row) : bool :=
  event_id a =? eventId.

Definition is_attendee (attendeeId eventId : nat) (a : attendee_row) : bool :=
  (att_id a =? attendeeId) && (event_id a =? eventId).

Definition phone_matches (eventId : nat) (normPhone : string) (a : attendee_row) : bool :=
  in_event eventId a &&
  match sql_phone_key (phone_number a) with
  | Some k => (k =? normPhone)%string
  | None => false
  end.

Definition name_matches (eventId : nat) (normName : string) (a : attendee_row) : bool :=
  in_event eventId a && (sql_name_key (att_name a) =? normName)%string.

(** *** The statements *)

(** [SELECT is_finished FROM events WHERE id = $1] *)
Definition select_event (eventId : nat) : M (list event_row) :=
  query (SelectEvent eventId)
    (fun w => inr (filter (fun e => ev_id e =? eventId) (events w), w)).

(** [SELECT COUNT(id)::int AS total_attendees,
            COUNT(CASE WHEN checked_in THEN 1 END)::int AS checked_in_count
     FROM attendees WHERE event_id = $1] *)
Definition count_stats (eventId : nat) (rows : list attendee_row) : stats :=
  mkStats (length (filter (in_event eventId) rows))
          (length (filter (fun a => in_event eventId a && checked_in a) rows)).

Definition getEventStats (eventId : nat) : M stats :=
  query (SelectStats eventId)
    (fun w => inr (count_stats eventId (view pool w), w)).

Definition begin_ : M unit :=
  query Begin (fun w => inr (tt, set_txn (Some (attendees w)) w)).

Definition commit : M unit :=
  query Commit
    (fun w =>
       match txn w with
       | Some t => inr (tt, set_txn None (set_view pool t w))
       | None => inr (tt, w)
       end).

Definition rollback : M unit :=
  query Rollback (fun w => inr (tt, set_txn None w)).

(** [SELECT id, name, phone_number FROM attendees
     WHERE event_id = $1 AND regexp_replace(phone_number, '\D', '', 'g') = $2
     LIMIT 1]; without ORDER BY the store may return any matching row, the
    model returns the oldest. *)
Definition select_by_phone (c : conn) (eventId : nat) (normPhone : string)
  : M (list attendee_row) :=
  query (SelectByPhone eventId normPhone)
    (fun w => inr (limit_1 (find (phone_matches eventId normPhone) (view c w)), w)).

(** [SELECT id, name, phone_number FROM attendees
     WHERE event_id = $1
       AND regexp_replace(lower(name), '[^a-z0-9]', '', 'g') = $2
     LIMIT 1] *)
Definition select_by_name (c : conn) (eventId : nat) (normName : string)
  : M (list attendee_row) :=
  query (SelectByName eventId normName)
    (fun w => inr (limit_1 (find (name_matches eventId normName) (view c w)), w)).

Definition too_long (n : nat) (v : option string) : bool :=
  match v with
  | Some s => n <? String.length s
  | None => false
  end.

(** [INSERT INTO attendees (event_id, name, phone_number, email, source)
     VALUES ($1, $2, $3, $4, src) RETURNING *]: the column widths and the
    foreign key of [migrate.js] are checked, [id] comes from the sequence,
    the other columns take their defaults. *)
Definition insert_attendee (c : conn) (eventId : nat) (name : string)
  (phone mail : option string) (src : source_tag) : M attendee_row :=
  query (InsertAttendee eventId name phone mail src)
    (fun w =>
       if too_long 255 (Some name) || too_long 50 phone || too_long 255 mail
       then inl ValueTooLong
       else if negb (existsb (fun e => ev_id e =? eventId) (events w))
       then inl ForeignKeyViolation
       else
         let row := mkAttendee (attendees_id_seq w) eventId name phone mail
                               false None src (clock w) (clock w) in
         inr (row, set_view c (view c w ++ [row]) (next_id w))).

(** [SELECT * FROM attendees WHERE id = $1 AND event_id = $2] *)
Definition select_attendee (attendeeId eventId : nat) : M (list attendee_row) :=
  query (SelectAttendee attendeeId eventId)
    (fun w => inr (filter (is_attendee attendeeId eventId) (view pool w), w)).

Definition update_where (p : attendee_row -> bool)
  (f : attendee_row -> attendee_row) (rows : list attendee_row)
  : list attendee_row :=
  map (fun a => if p a then f a else a) rows.

Definition set_checked_in (now : nat) (a : attendee_row) : attendee_row :=
  mkAttendee (att_id a) (event_id a) (att_name a) (phone_number a) (email a)
             true (Some now) (source a) (created_at a) now.

Definition set_unchecked (now : nat) (a : attendee_row) : attendee_row :=
  mkAttendee (att_id a) (event_id a) (att_name a) (phone_number a) (email a)
             false None (source a) (created_at a) now.

(** [UPDATE attendees SET checked_in = TRUE, checked_in_at = NOW(),
     updated_at = NOW() WHERE id = $1 AND event_id = $2 RETURNING *] *)
Definition update_check_in (attendeeId eventId : nat) : M (list attendee_row) :=
  query (UpdateCheckIn attendeeId eventId)
    (fun w =>
       let p := is_attendee attendeeId eventId in
       let rows := update_where p (set_checked_in (clock w)) (view pool w) in
       inr (filter p rows, set_view pool rows w)).

(** [UPDATE attendees SET checked_in = FALSE, checked_in_at = NULL,
     updated_at = NOW() WHERE id = $1 AND event_id = $2 RETURNING *] *)
Definition update_undo_check_in (attendeeId eventId : nat) : M (list attendee_row) :=
  query (UpdateUndoCheckIn attendeeId eventId)
    (fun w =>
       let p := is_attendee attendeeId eventId in
       let rows := update_where p (set_unchecked (clock w)) (view pool w) in
       inr (filter p rows, set_view pool rows w)).

(** [DELETE FROM attendees WHERE id = $1 AND event_id = $2 RETURNING *] *)
Definition delete_attendee (attendeeId eventId : nat) : M (list attendee_row) :=
  query (DeleteAttendee attendeeId eventId)
    (fun w =>
       let p := is_attendee attendeeId eventId in
       inr (filter p (view pool w),
            set_view pool (filter (fun a => negb (p a)) (view pool w)) w)).

(** [DELETE FROM attendees WHERE event_id = $1] *)
Definition delete_attendees (eventId : nat) : M unit :=
  query (DeleteAttendees eventId)
    (fun w =>
       inr (tt, set_view pool
                  (filter (fun a => negb (in_event eventId a)) (view pool w)) w)).

(** [function emitToEvent(req, eventId, event, payload)] *)
Definition emitToEvent (eventId : nat) (event : string) (p : emit_payload) : M unit :=
  fun w =>
    (Ok tt,
     mkWorld (events w) (attendees w) (txn w) (attendees_id_seq w) (clock w)
             (issued w) (faults w) (emitted w ++ [mkEmission eventId event p])).

(* ------------------------------------------------------------------ *)
(** ** The attendee routes *)

Inductive matched_by : Type := by_phone | by_name.

(** The local [duplicateMatch] of the import loop. *)
Record duplicate_match : Type := mkMatch {
  matchedBy : matched_by;
  existingName : string;
  existingPhone : option string
}.

(** An element of [duplicates]; the client sends the same objects back to
    [/import-duplicates], which reads [name], [phone] and [email]. *)
Record duplicate : Type := mkDuplicate {
  dup_name : jsval;
  dup_phone : jsval;
  dup_email : jsval;
  rowIndex : nat;
  dup_matchedBy : matched_by;
  dup_existingName : string;
  dup_existingPhone : option string
}.

Inductive body : Type :=
| no_body
| validation_errors
| attendee_data (attendee : attendee_row)
| import_report (imported skipped : nat) (duplicates : list duplicate)
| imported_count (imported : nat)
| detected_columns (columns : list string).

(** [res.status(status).json({ success, message, ... })] *)
Record response : Type := mkResponse {
  status : nat;
  success : bool;
  message : string;
  data : body
}.

(** The outer [try { ... } catch (err) { res.status(500).json(...) }]. *)
Definition respond (m : M response) (on_error : error -> response)
  : world -> response * world :=
  fun w =>
    match m w with
    | (Ok r, w') => (r, w')
    | (Throw e, w') => (on_error e, w')
    end.

Definition server_error (_ : error) : response :=
  mkResponse 500 false "Server error" no_body.

(** [eventCheck.rows[0]?.is_finished] *)
Definition first_is_finished (rows : list event_row) : bool :=
  match rows with
  | e :: _ => is_finished e
  | [] => false
  end.

(** *** POST / : create a single attendee

    express-validator: [body("name").notEmpty().trim()],
    [body("phone_number").optional().trim()],
    [body("email").optional({ checkFalsy: true })]. *)
Definition trimmed (v : jsval) : jsval :=
  match v with
  | JStr s => JStr (trim s)
  | _ => v
  end.

Definition addAttendee (eventId : nat) (name phone_number mail : jsval)
  : world -> response * world :=
  if negb (truthy name) then
    fun w => (mkResponse 400 false "" validation_errors, w)
  else
    let name := trimmed name in
    let phone_number := trimmed phone_number in
    respond
      (eventCheck <- select_event eventId ;;
       if first_is_finished eventCheck then
         ret (mkResponse 403 false
                "This event has been finished. Adding attendees is disabled."
                no_body)
       else
         row <- insert_attendee pool eventId (toString name)
                  (or_null phone_number) (or_null mail) src_manual ;;
         st <- getEventStats eventId ;;
         emitToEvent eventId "attendee:added" (with_attendee row st) ;;
         ret (mkResponse 201 true "" (attendee_data row)))
      server_error.

(** *** POST /import : import from CSV/Excel *)

(** A row object of [XLSX.utils.sheet_to_json(sheet, { defval: "" })]: the
    header labels in [Object.keys] order with the cells as text. *)
Definition row : Type := list (string * string).

(** [req.file] and what [XLSX.read] makes of its buffer. *)
Inductive upload : Type :=
| no_file
| unreadable
| sheet (rows : list row).

Definition nameKeys : list string :=
  ["name"; "full name"; "fullname"; "nama"; "nama lengkap"; "your name";
   "participant name"].

Definition phoneKeys : list string :=
  ["phone"; "phone number"; "phonenumber"; "mobile"; "hp"; "no hp"; "no. hp";
   "nomor hp"; "whatsapp"; "no telepon"; "handphone"].

Definition emailKeys : list string :=
  ["email"; "email address"; "emailaddress"; "e-mail"; "gereja asal";
   "gereja"; "asal gereja"; "home church"; "church"].

(** [Object.keys(firstRow)] *)
Definition object_keys (r : row) : list string := map fst r.

(** [row[key]] *)
Fixpoint get (r : row) (key : string) : option string :=
  match r with
  | [] => None
  | (k, v) :: rest => if (k =? key)%string then Some v else get rest key
  end.

(** [const findKey = (keys) => { for (const k of keys) { ... } return null }] *)
Fixpoint findKey (firstRow : row) (keys : list string) : option string :=
  let firstRowKeys := map (fun k => trim (toLowerCase k)) (object_keys firstRow) in
  match keys with
  | [] => None
  | k :: rest =>
      match find (fun fk => (fk =? k)%string || includes fk k) firstRowKeys with
      | Some found =>
          if (found =? "")%string then findKey firstRow rest
          else
            find (fun ok => (trim (toLowerCase ok) =? found)%string
                            || includes (trim (toLowerCase ok)) k)
                 (object_keys firstRow)
      | None => findKey firstRow rest
      end
  end.

(** [if (key)] on what [findKey] returned. *)
Definition truthy_key (key : option string) : bool :=
  match key with
  | Some k => negb (k =? "")%string
  | None => false
  end.

(** The label itself, once [if (!nameKey)] has let it through. *)
Definition key_text (key : option string) : string :=
  match key with
  | Some k => k
  | None => ""
  end.

(** [row[key]?.toString().trim()] *)
Definition cell (r : row) (key : string) : jsval :=
  match get r key with
  | Some v => JStr (trim v)
  | None => JUndefined
  end.

(** [key ? row[key]?.toString().trim() : null] *)
Definition optional_cell (r : row) (key : option string) : jsval :=
  match key with
  | Some k => if truthy_key key then cell r k else JNull
  | None => JNull
  end.

(** [imported], [skipped] and [duplicates] of the handler. *)
Record tally : Type := mkTally {
  imported : nat;
  skipped : nat;
  duplicates : list duplicate
}.

(** The duplicate check of one row: phone first, then the name. *)
Definition duplicateMatch (eventId : nat) (name phone : jsval)
  : M (option duplicate_match) :=
  let normPhone := normalizePhone phone in
  byPhone <-
    (if truthy normPhone then
       phoneCheck <- select_by_phone client eventId (toString normPhone) ;;
       match phoneCheck with
       | r :: _ => ret (Some (mkMatch by_phone (att_name r) (phone_number r)))
       | [] => ret None
       end
     else ret None) ;;
  match byPhone with
  | Some m => ret (Some m)
  | None =>
      let normName := normalizeName name in
      nameCheck <- select_by_name client eventId (toString normName) ;;
      match nameCheck with
      | r :: _ => ret (Some (mkMatch by_name (att_name r) (phone_number r)))
      | [] => ret None
      end
  end.

(** [for (const row of rows) { ... }]; [index] is [rows.indexOf(row)], the
    position of the row object in the sheet. *)
Fixpoint import_rows (eventId : nat) (nameKey : string)
  (phoneKey emailKey : option string)
  (rows : list row) (index : nat) (acc : tally) : M tally :=
  match rows with
  | [] => ret acc
  | r :: rest =>
      let name := cell r nameKey in
      let phone := optional_cell r phoneKey in
      let mail := optional_cell r emailKey in
      if negb (truthy name) then
        import_rows eventId nameKey phoneKey emailKey rest (S index)
          (mkTally (imported acc) (S (skipped acc)) (duplicates acc))
      else
        dm <- duplicateMatch eventId name phone ;;
        match dm with
        | Some m =>
            import_rows eventId nameKey phoneKey emailKey rest (S index)
              (mkTally (imported acc) (skipped acc)
                 (duplicates acc ++
                  [mkDuplicate name phone mail (index + 2) (matchedBy m)
                     (existingName m) (existingPhone m)]))
        | None =>
            insert_attendee client eventId (toString name)
              (or_null phone) (or_null mail) src_import ;;
            import_rows eventId nameKey phoneKey emailKey rest (S index)
              (mkTally (S (imported acc)) (skipped acc) (duplicates acc))
        end
  end.

(** [XLSX.read] followed by [sheet_to_json]. *)
Definition read_sheet (file : upload) : M (list row) :=
  match file with
  | sheet rows => ret rows
  | _ => throw ParseError
  end.

Definition import_message (t : tally) : string :=
  "Import complete. " ++ show_nat (imported t) ++ " attendees imported, "
  ++ show_nat (skipped t) ++ " rows skipped"
  ++ (if 0 <? length (duplicates t)
      then ", " ++ show_nat (length (duplicates t)) ++ " duplicates found"
      else "")
  ++ ".".

(** [client.release()] *)
Definition release : M unit := ret tt.

(** The inner [try { BEGIN ... COMMIT ... } catch (err) { ROLLBACK; throw err }
    finally { client.release() }] on the pooled [client]. *)
Definition import_transaction (eventId : nat) (nameKey : string)
  (phoneKey emailKey : option string) (rows : list row) : M response :=
  try_finally
    (try_catch
       (begin_ ;;
        t <- import_rows eventId nameKey phoneKey emailKey rows 0
               (mkTally 0 0 []) ;;
        commit ;;
        st <- getEventStats eventId ;;
        emitToEvent eventId "attendees:imported"
          (with_counts (imported t) (skipped t) st) ;;
        ret (mkResponse 200 true (import_message t)
               (import_report (imported t) (skipped t) (duplicates t))))
       (fun err => rollback ;; throw err))
    release.

Definition import_error (err : error) : response :=
  mkResponse 500 false ("Error processing file: " ++ error_message err) no_body.

(** The body of the outer [try].  The source's message for a missing name
    column quotes the labels Name and Nama with double quotes. *)
Definition import_request (eventId : nat) (file : upload) : M response :=
  eventCheck <- select_event eventId ;;
  if first_is_finished eventCheck then
    ret (mkResponse 403 false
           "This event has been finished. Importing attendees is disabled."
           no_body)
  else
    rows <- read_sheet file ;;
    match rows with
    | [] => ret (mkResponse 400 false "File is empty or has no data" no_body)
    | firstRow :: _ =>
        let nameKey := findKey firstRow nameKeys in
        let phoneKey := findKey firstRow phoneKeys in
        let emailKey := findKey firstRow emailKeys in
        if negb (truthy_key nameKey) then
          ret (mkResponse 400 false
                 "Could not find a name column. Please ensure your file has a column named 'Name' or 'Nama'."
                 (detected_columns (object_keys firstRow)))
        else
          import_transaction eventId (key_text nameKey) phoneKey emailKey rows
    end.

Definition importAttendees (eventId : nat) (file : upload)
  : world -> response * world :=
  match file with
  | no_file => fun w => (mkResponse 400 false "No file uploaded" no_body, w)
  | _ => respond (import_request eventId file) import_error
  end.

(** *** POST /import-duplicates : import approved duplicates *)

(** [for (const dup of duplicates) { ... }] *)
Fixpoint confirm_rows (eventId : nat) (dups : list duplicate) (count : nat) : M nat :=
  match dups with
  | [] => ret count
  | dup :: rest =>
      if negb (truthy (dup_name dup)) then confirm_rows eventId rest count
      else
        insert_attendee client eventId (toString (dup_name dup))
          (or_null (dup_phone dup)) (or_null (dup_email dup)) src_import ;;
        confirm_rows eventId rest (S count)
  end.

(** [chosen] is [req.body.duplicates] when it is an array. *)
Definition confirmDuplicateImport (eventId : nat) (chosen : option (list duplicate))
  : world -> response * world :=
  match chosen with
  | None => fun w => (mkResponse 400 false "No duplicates provided" no_body, w)
  | Some dups =>
      respond
        (eventCheck <- select_event eventId ;;
         if first_is_finished eventCheck then
           ret (mkResponse 403 false
                  "This event has been finished. Importing attendees is disabled."
                  no_body)
         else
           try_finally
             (try_catch
                (begin_ ;;
                 n <- confirm_rows eventId dups 0 ;;
                 commit ;;
                 st <- getEventStats eventId ;;
                 emitToEvent eventId "attendees:imported" (with_counts n 0 st) ;;
                 ret (mkResponse 200 true
                        (show_nat n ++ " duplicate attendees imported.")
                        (imported_count n)))
                (fun err => rollback ;; throw err))
             release)
        (fun err =>
           mkResponse 500 false
             ("Error importing duplicates: " ++ error_message err) no_body)
  end.

(** *** PATCH /:attendeeId/checkin *)
Definition checkIn (eventId attendeeId : nat) : world -> response * world :=
  respond
    (eventCheck <- select_event eventId ;;
     match eventCheck with
     | [] => ret (mkResponse 404 false "Event not found" no_body)
     | e :: _ =>
         if is_finished e then
           ret (mkResponse 403 false
                  "This event has been finished. Check-in is disabled. Restart the event to allow check-ins again."
                  no_body)
         else
           current <- select_attendee attendeeId eventId ;;
           match current with
           | [] => ret (mkResponse 404 false "Attendee not found" no_body)
           | attendee :: _ =>
               if checked_in attendee then
                 ret (mkResponse 409 false
                        (att_name attendee ++ " is already checked in")
                        (attendee_data attendee))
               else
                 updated <- update_check_in attendeeId eventId ;;
                 st <- getEventStats eventId ;;
                 match updated with
                 | [] =>
                     emitToEvent eventId "attendee:checked_in" (with_stats st) ;;
                     throw TypeError
                 | r :: _ =>
                     emitToEvent eventId "attendee:checked_in" (with_attendee r st) ;;
                     ret (mkResponse 200 true
                            (att_name r ++ " checked in successfully!")
                            (attendee_data r))
                 end
           end
     end)
    server_error.

(** *** PATCH /:attendeeId/undo-checkin *)
Definition undoCheckIn (eventId attendeeId : nat) : world -> response * world :=
  respond
    (updated <- update_undo_check_in attendeeId eventId ;;
     match updated with
     | [] => ret (mkResponse 404 false "Attendee not found" no_body)
     | r :: _ =>
         st <- getEventStats eventId ;;
         emitToEvent eventId "attendee:unchecked" (with_attendee r st) ;;
         ret (mkResponse 200 true "Check-in undone" (attendee_data r))
     end)
    server_error.

(** *** DELETE /:attendeeId *)
Definition deleteAttendee (eventId attendeeId : nat) : world -> response * world :=
  respond
    (eventCheck <- select_event eventId ;;
     if first_is_finished eventCheck then
       ret (mkResponse 403 false
              "This event has been finished. Deleting attendees is disabled."
              no_body)
     else
       deleted <- delete_attendee attendeeId eventId ;;
       match deleted with
       | [] => ret (mkResponse 404 false "Attendee not found" no_body)
       | _ :: _ =>
           st <- getEventStats eventId ;;
           emitToEvent eventId "attendee:deleted" (with_attendee_id attendeeId st) ;;
           ret (mkResponse 200 true "Attendee deleted" no_body)
       end)
    server_error.

(** *** DELETE / : delete all attendees *)
Definition clearAttendees (eventId : nat) : world -> response * world :=
  respond
    (delete_attendees eventId ;;
     emitToEvent eventId "attendees:cleared" (with_stats (mkStats 0 0)) ;;
     ret (mkResponse 200 true "All attendees cleared" no_body))
    server_error.

(* ------------------------------------------------------------------ *)
(** ** Observations on a run *)

(** The statements sent between two worlds, newest first. *)
Definition sent_during (before after : world) : list (statement * bool) :=
  firstn (length (issued after) - length (issued before)) (issued after).


(** The event row a request for [eventId] reads. *)
Definition event_of (eventId : nat) (w : world) : option event_row :=
  find (fun e => ev_id e =? eventId) (events w).

(** The store accepts this [INSERT]: the values fit their columns and the
    event exists. *)
Definition insertable (eventId : nat) (name : string) (phone mail : option string)
  (w : world) : bool :=
  negb (too_long 255 (Some name) || too_long 50 phone || too_long 255 mail)
  && existsb (fun e => ev_id e =? eventId) (events w).

(** The values fit the columns of [attendees]. *)
Definition fits_columns (name : string) (phone mail : option string) : bool :=
  negb (too_long 255 (Some name) || too_long 50 phone || too_long 255 mail).

(** An existing attendee of the event whose stored phone, normalised, is
    the candidate's normalised phone. *)
Definition same_phone (eventId : nat) (phone : jsval) (a : attendee_row) : Prop :=
  event_id a = eventId
  /\ exists p, phone_number a = Some p
              /\ normalizePhone (JStr p) = normalizePhone phone.

(** An existing attendee of the event whose stored name, normalised, is the
    candidate's normalised name. *)
Definition same_name (eventId : nat) (name : jsval) (a : attendee_row) : Prop :=
  event_id a = eventId
  /\ normalizeName (JStr (att_name a)) = normalizeName name.

(** The event carries the tables, sequence, fault plan and emissions of
    [w] over to [w']: only the clock and the log moved. *)
Definition same_tables (w w' : world) : Prop :=
  events w' = events w
  /\ attendees w' = attendees w
  /\ txn w' = txn w
  /\ attendees_id_seq w' = attendees_id_seq w
  /\ faults w' = faults w
  /\ emitted w' = emitted w.

(** What the duplicate check of the import loop finds in [roster]. *)
Definition match_in (roster : list attendee_row) (eventId : nat)
  (name phone : jsval) : option duplicate_match :=
  let normPhone := normalizePhone phone in
  match (if truthy normPhone
         then find (phone_matches eventId (toString normPhone)) roster
         else None) with
  | Some r => Some (mkMatch by_phone (att_name r) (phone_number r))
  | None =>
      match find (name_matches eventId (toString (normalizeName name))) roster with
      | Some r => Some (mkMatch by_name (att_name r) (phone_number r))
      | None => None
      end
  end.

(** The request was refused by the gate: 403, the roster untouched, and
    nothing sent to the store but the event check. *)
Definition forbidden (eventId : nat) (w : world) (out : response * world) : Prop :=
  status (fst out) = 403
  /\ success (fst out) = false
  /\ attendees (snd out) = attendees w
  /\ sent_during w (snd out) = [(SelectEvent eventId, true)].

(** *** Sample worlds *)

Definition retreat : event_row := mkEvent 1 "Retreat" false.
Definition concert : event_row := mkEvent 2 "Concert" true.

Definition john_doe : attendee_row :=
  mkAttendee 1 1 "John Doe" (Some "0812345678") None false None src_manual 0 0.

Definition mary : attendee_row :=
  mkAttendee 2 2 "Mary" (Some "0899") None true (Some 5) src_import 3 5.

Definition martha : attendee_row :=
  mkAttendee 3 2 "Martha" None None false None src_manual 4 4.

Definition sample_world : world :=
  mkWorld [retreat; concert] [john_doe; mary; martha] None 4 10 [] [] [].

(** One data row under the headers "Name" and "Phone". *)
Definition john_row : row :=
  [("Name", "john.doe"); ("Phone", "+62 812-345-678")].

(** A row that shares John Doe's phone under another name. *)
Definition bob_row : row :=
  [("Name", "Bob"); ("Phone", "0812-345-678")].

(** Twice the same person, the phone written in two ways. *)
Definition jane_row : row :=
  [("Name", "Jane"); ("Phone", "0811111111")].

Definition jane_again : row :=
  [("Name", " Jane"); ("Phone", "0811 111 111")].



(* ------------------------------------------------------------------ *)
(** ** How a request may change the tables *)

(** The tables of a world, without clock, log, sequence and emissions. *)
Definition tables (w : world)
  : list event_row * list attendee_row * option (list attendee_row) :=
  (events w, attendees w, txn w).

(** The five writes the routes send for an event: an [INSERT] of a
    pending row of the event, the two [UPDATE]s and the two [DELETE]s. *)
Inductive row_change (eventId : nat) (old : list attendee_row)
  : list attendee_row -> Prop :=
| rows_inserted id name phone mail src stamp :
    row_change eventId old
      (old ++ [mkAttendee id eventId name phone mail false None src stamp stamp])
| rows_checked_in attendeeId now :
    row_change eventId old
      (update_where (is_attendee attendeeId eventId) (set_checked_in now) old)
| rows_unchecked attendeeId now :
    row_change eventId old
      (update_where (is_attendee attendeeId eventId) (set_unchecked now) old)
| rows_deleted attendeeId :
    row_change eventId old
      (filter (fun a => negb (is_attendee attendeeId eventId a)) old)
| rows_cleared :
    row_change eventId old (filter (fun a => negb (in_event eventId a)) old).

(** What one statement does to the tables. *)
Inductive table_step (eventId : nat) (w w' : world) : Prop :=
| step_none :
    tables w' = tables w -> table_step eventId w w'
| step_begin :
    tables w' = (events w, attendees w, Some (attendees w)) ->
    table_step eventId w w'
| step_commit t :
    txn w = Some t ->
    tables w' = (events w, t, None) ->
    table_step eventId w w'
| step_rollback :
    tables w' = (events w, attendees w, None) ->
    table_step eventId w w'
| step_write c rows :
    row_change eventId (view c w) rows ->
    tables w' = tables (set_view c rows w) ->
    table_step eventId w w'.

Inductive table_steps (eventId : nat) : world -> world -> Prop :=
| steps_done w : table_steps eventId w w
| steps_more w1 w2 w3 :
    table_step eventId w1 w2 -> table_steps eventId w2 w3 ->
    table_steps eventId w1 w3.

(** Every run of [m] changes the tables by such steps only. *)
Definition moves {A} (eventId : nat) (m : M A) : Prop :=
  forall w r w', m w = (r, w') -> table_steps eventId w w'.

Definition handler_moves (eventId : nat) (h : world -> response * world) : Prop :=
  forall w r w', h w = (r, w') -> table_steps eventId w w'.

(** A property of the rows, of the committed ones and of those of the open
    transaction. *)
Definition on_rows (Q : list attendee_row -> Prop) (w : world) : Prop :=
  Q (attendees w) /\ forall t, txn w = Some t -> Q t.

(** The check-in flag and the check-in timestamp go together. *)
Definition timestamp_agrees (a : attendee_row) : Prop :=
  checked_in a = true <-> checked_in_at a <> None.

(** The attendees of the other events. *)
Definition others (eventId : nat) (rows : list attendee_row) : list attendee_row :=
  filter (fun a => negb (in_event eventId a)) rows.



(** The requests the router of [routes/attendees.js] serves for the
    roster of an event (the two read-only routes apart). *)
Inductive request : Type :=
| post_attendee (name phone_number mail : jsval)
| post_import (file : upload)
| post_import_duplicates (chosen : option (list duplicate))
| patch_checkin (attendeeId : nat)
| patch_undo_checkin (attendeeId : nat)
| delete_one (attendeeId : nat)
| delete_all.

Definition serve (eventId : nat) (q : request) : world -> response * world :=
  match q with
  | post_attendee name phone_number mail =>
      addAttendee eventId name phone_number mail
  | post_import file => importAttendees eventId file
  | post_import_duplicates chosen => confirmDuplicateImport eventId chosen
  | patch_checkin attendeeId => checkIn eventId attendeeId
  | patch_undo_checkin attendeeId => undoCheckIn eventId attendeeId
  | delete_one attendeeId => deleteAttendee eventId attendeeId
  | delete_all => clearAttendees eventId
  end.

(** Requests served one after the other, each for its event. *)
Fixpoint serve_all (requests : list (nat * request)) (w : world) : world :=
  match requests with
  | [] => w
  | (eventId, q) :: rest => serve_all rest (snd (serve eventId q w))
  end.

(** The statistics a broadcast carries. *)
Definition payload_stats (p : emit_payload) : stats :=
  match p with
  | with_attendee _ st => st
  | with_counts _ _ st => st
  | with_attendee_id _ st => st
  | with_stats st => st
  end.

(** [m] broadcasts nothing. *)
Definition silent {A} (m : M A) : Prop :=
  forall w r w', m w = (r, w') -> emitted w' = emitted w.

(** Between [w] and [w'] nothing was broadcast, or one message was, to the
    room of the event, carrying the statistics of the committed roster of
    [w']. *)
Definition one_fresh_broadcast (eventId : nat) (w w' : world) : Prop :=
  emitted w' = emitted w
  \/ exists name p,
       emitted w' = emitted w ++ [mkEmission eventId name p]
       /\ payload_stats p = count_stats eventId (attendees w').

(** [m] neither broadcasts nor touches the committed rows. *)
Definition quiet {A} (m : M A) : Prop :=
  forall w r w', m w = (r, w') ->
                 emitted w' = emitted w /\ attendees w' = attendees w.

(** The attendee an import makes of a sheet row: the trimmed cells, a
    name that is not empty, pending, of provenance [import]. *)
Definition from_row (eventId : nat) (nameKey : string)
  (phoneKey emailKey : option string) (r : row) (a : attendee_row) : Prop :=
  event_id a = eventId
  /\ att_name a = toString (cell r nameKey)
  /\ att_name a <> ""
  /\ phone_number a = or_null (optional_cell r phoneKey)
  /\ email a = or_null (optional_cell r emailKey)
  /\ source a = src_import
  /\ checked_in a = false
  /\ checked_in_at a = None.

(** The candidate an import reports for the sheet row of line [line]. *)
Definition reports_row (nameKey : string) (phoneKey emailKey : option string)
  (r : row) (line : nat) (d : duplicate) : Prop :=
  rowIndex d = line
  /\ dup_name d = cell r nameKey
  /\ truthy (dup_name d) = true
  /\ dup_phone d = optional_cell r phoneKey
  /\ dup_email d = optional_cell r emailKey.











(** The header [h], lower-cased and trimmed, contains the keyword [k]. *)
Definition labelled (k h : string) : bool :=
  includes (trim (toLowerCase h)) k.

(** The first keyword some header contains, then the first header that
    contains it. *)
Definition first_labelled (firstRow : row) (keys : list string) : option string :=
  match find (fun k => existsb (labelled k) (object_keys firstRow)) keys with
  | Some k => find (labelled k) (object_keys firstRow)
  | None => None
  end.

(** [sample_world] with a store that fails on the third statement sent. *)
Definition failing_stats_world : world :=
  mkWorld [retreat; concert] [john_doe; mary; martha] None 4 10 [] [2] [].

(** A response of the 4xx class. *)
Definition client_error (r : response) : Prop :=
  400 <= status r < 500.

(* ------------------------------------------------------------------ *)
(** ** The events router

    [routes/events.js] on the tables of [migrate.js].  The library functions
    it calls ([isDate] and [isBoolean] of the validator, [bcrypt.hash] and
    [bcrypt.compare]) and the input syntax of the [DATE] and [TIME] columns
    are left open. *)

Module Events.

(** A row of [events]. *)
Record event_record : Type := mkRecord {
  rec_id : nat;
  rec_name : string;
  rec_description : option string;
  rec_date : option string;
  rec_time : option string;
  rec_location : option string;
  rec_password_hash : option string;
  rec_is_finished : bool;
  rec_created_at : nat;
  rec_updated_at : nat
}.

(** What [sanitize] returns: the row without [password_hash], with
    [is_protected]. *)
Record public_event : Type := mkPublic {
  pub_id : nat;
  pub_name : string;
  pub_description : option string;
  pub_date : option string;
  pub_time : option string;
  pub_location : option string;
  pub_is_finished : bool;
  pub_created_at : nat;
  pub_updated_at : nat;
  is_protected : bool
}.

(** [!!password_hash] *)
Definition truthy_text (v : option string) : bool :=
  match v with
  | Some s => negb (s =? "")%string
  | None => false
  end.

(** [function sanitize(event)] *)
Definition sanitize (e : event_record) : public_event :=
  mkPublic (rec_id e) (rec_name e) (rec_description e) (rec_date e)
           (rec_time e) (rec_location e) (rec_is_finished e)
           (rec_created_at e) (rec_updated_at e)
           (truthy_text (rec_password_hash e)).

(** The two tables, the [SERIAL] of [events.id], the clock of [NOW()], the
    statements sent so far with the positions at which the store fails,
    and the salts [bcrypt] has drawn. *)
Record state : Type := mkState {
  event_rows : list event_record;
  attendee_rows : list attendee_row;
  events_id_seq : nat;
  now : nat;
  sent : nat;
  failing : list nat;
  salts : nat
}.

Definition fault_due (s : state) : bool :=
  existsb (Nat.eqb (sent s)) (failing s).

Definition tick (s : state) : state :=
  mkState (event_rows s) (attendee_rows s) (events_id_seq s) (S (now s))
          (S (sent s)) (failing s) (salts s).

(** [await pool.query(...)]: [None] when the promise is rejected. *)
Definition query {A} (sem : state -> option (A * state))
  : state -> option A * state :=
  fun s =>
    if fault_due s then (None, tick s)
    else
      match sem s with
      | None => (None, tick s)
      | Some (a, s') => (Some a, tick s')
      end.

Definition has_id (id : nat) (e : event_record) : bool := rec_id e =? id.

(** [SELECT * FROM events WHERE id = $1] and
    [SELECT password_hash FROM events WHERE id = $1] *)
Definition select_event (id : nat) : state -> option (list event_record) * state :=
  query (fun s => Some (filter (has_id id) (event_rows s), s)).

(** [SELECT COUNT(id)::int ..., COUNT(CASE WHEN checked_in THEN 1 END)::int ...
     FROM attendees WHERE event_id = $1] *)
Definition select_stats (id : nat) : state -> option stats * state :=
  query (fun s => Some (count_stats id (attendee_rows s), s)).

(** [DELETE FROM events WHERE id=$1 RETURNING *], with the
    [ON DELETE CASCADE] of [attendees.event_id]. *)
Definition delete_event (id : nat) : state -> option (list event_record) * state :=
  query (fun s =>
    let gone := filter (has_id id) (event_rows s) in
    match gone with
    | [] => Some ([], s)
    | _ :: _ =>
        Some (gone,
              mkState (filter (fun e => negb (has_id id e)) (event_rows s))
                      (filter (fun a => negb (in_event id a)) (attendee_rows s))
                      (events_id_seq s) (now s) (sent s) (failing s) (salts s))
    end).

(** [req.body] of the two writing routes. *)
Record form : Type := mkForm {
  f_name : jsval;
  f_date : jsval;
  f_time : jsval;
  f_location : jsval;
  f_description : jsval;
  f_password : jsval;
  f_remove_password : jsval
}.

(** [res.status(code).json({ success, message, data })] *)
Record reply : Type := mkReply {
  code : nat;
  ok : bool;
  text : string;
  event_data : option public_event;
  stats_data : option stats
}.

Definition server_error : reply := mkReply 500 false "Server error" None None.
Definition validation_failed : reply := mkReply 400 false "" None None.
Definition not_found : reply := mkReply 404 false "Event not found" None None.

Section Library.

(** [validator.isDate], [validator.isBoolean] on the raw value. *)
Variable isDate : string -> bool.
Variable isBoolean : jsval -> bool.
(** [bcrypt.hash(data, 10)] with the salt it drew, [bcrypt.compare]. *)
Variable bcrypt_hash : nat -> string -> string.
Variable bcrypt_compare : string -> string -> bool.
(** The texts the [DATE] and [TIME] columns accept. *)
Variable pg_date : string -> bool.
Variable pg_time : string -> bool.

Definition column_accepts (syntax : string -> bool) (v : option string) : bool :=
  match v with
  | Some t => syntax t
  | None => true
  end.

(** The values fit [name VARCHAR(255)], [date DATE], [time TIME],
    [location VARCHAR(255)] and [password_hash VARCHAR(255)]. *)
Definition accepted (name : string) (date time location hash : option string)
  : bool :=
  negb (too_long 255 (Some name)) && column_accepts pg_date date
  && column_accepts pg_time time && negb (too_long 255 location)
  && negb (too_long 255 hash).

(** [INSERT INTO events (name, date, time, location, description, password_hash)
     VALUES ($1, $2, $3, $4, $5, $6) RETURNING *] *)
Definition insert_event (name : string)
  (date time location description hash : option string)
  : state -> option event_record * state :=
  query (fun s =>
    if accepted name date time location hash then
      let row := mkRecord (events_id_seq s) name description date time location
                          hash false (now s) (now s) in
      Some (row,
            mkState (event_rows s ++ [row]) (attendee_rows s)
                    (S (events_id_seq s)) (now s) (sent s) (failing s) (salts s))
    else None).

Definition set_columns (name : string)
  (date time location description hash : option string) (stamp : nat)
  (e : event_record) : event_record :=
  mkRecord (rec_id e) name description date time location hash
           (rec_is_finished e) (rec_created_at e) stamp.

(** [UPDATE events SET name=$1, date=$2, time=$3, location=$4, description=$5,
     password_hash=$6, updated_at=NOW() WHERE id=$7 RETURNING *] *)
Definition update_event (id : nat) (name : string)
  (date time location description hash : option string)
  : state -> option (list event_record) * state :=
  query (fun s =>
    if accepted name date time location hash then
      let rows :=
        map (fun e => if has_id id e
                      then set_columns name date time location description hash
                             (now s) e
                      else e) (event_rows s) in
      Some (filter (has_id id) rows,
            mkState rows (attendee_rows s) (events_id_seq s) (now s) (sent s)
                    (failing s) (salts s))
    else None).

(** [body('date').optional({ checkFalsy: true }).isDate()] *)
Definition date_passes (date : jsval) : bool :=
  negb (truthy date) || isDate (toString date).

(** [if (password && password.trim()) password_hash = await bcrypt.hash(password.trim(), 10)] *)
Definition fresh_hash (password : jsval) (s : state) : option string :=
  if truthy password && negb (trim (toString password) =? "")%string
  then Some (bcrypt_hash (salts s) (trim (toString password)))
  else None.

Definition salt_drawn (password : jsval) (s : state) : state :=
  match fresh_hash password s with
  | Some _ =>
      mkState (event_rows s) (attendee_rows s) (events_id_seq s) (now s)
              (sent s) (failing s) (S (salts s))
  | None => s
  end.

(** [router.get('/:id', ...)] *)
Definition getEvent (id : nat) : state -> reply * state :=
  fun s =>
    match select_event id s with
    | (None, s1) => (server_error, s1)
    | (Some [], s1) => (not_found, s1)
    | (Some (e :: _), s1) =>
        match select_stats id s1 with
        | (None, s2) => (server_error, s2)
        | (Some st, s2) =>
            (mkReply 200 true "" (Some (sanitize e)) (Some st), s2)
        end
    end.

(** [router.post('/:id/verify-password', ...)] *)
Definition verifyPassword (id : nat) (password : jsval) : state -> reply * state :=
  fun s =>
    match select_event id s with
    | (None, s1) => (server_error, s1)
    | (Some [], s1) => (not_found, s1)
    | (Some (e :: _), s1) =>
        if negb (truthy_text (rec_password_hash e)) then
          (mkReply 200 true "No password required" None None, s1)
        else if negb (truthy password) then
          (mkReply 401 false "Password required" None None, s1)
        else if negb (bcrypt_compare (toString password)
                        (match rec_password_hash e with
                         | Some h => h
                         | None => ""
                         end)) then
          (mkReply 401 false "Incorrect password" None None, s1)
        else (mkReply 200 true "Password accepted" None None, s1)
    end.

(** [router.post('/', ...)]: create event *)
Definition createEvent (f : form) : state -> reply * state :=
  fun s =>
    if negb (truthy (f_name f) && date_passes (f_date f)) then
      (validation_failed, s)
    else
      let password_hash := fresh_hash (f_password f) s in
      match insert_event (toString (trimmed (f_name f))) (or_null (f_date f))
              (or_null (f_time f)) (or_null (trimmed (f_location f)))
              (or_null (trimmed (f_description f))) password_hash
              (salt_drawn (f_password f) s) with
      | (None, s1) => (server_error, s1)
      | (Some e, s1) => (mkReply 201 true "" (Some (sanitize e)) None, s1)
      end.

(** [body('remove_password').optional().isBoolean()] *)
Definition remove_password_passes (v : jsval) : bool :=
  match v with
  | JUndefined => true
  | _ => isBoolean v
  end.

(** [router.put('/:id', ...)]: update event *)
Definition updateEvent (id : nat) (f : form) : state -> reply * state :=
  fun s =>
    if negb (truthy (f_name f) && date_passes (f_date f)
             && remove_password_passes (f_remove_password f)) then
      (validation_failed, s)
    else
      match select_event id s with
      | (None, s1) => (server_error, s1)
      | (Some [], s1) => (not_found, s1)
      | (Some (current :: _), s1) =>
          let password_hash :=
            if truthy (f_remove_password f) then None
            else match fresh_hash (f_password f) s1 with
                 | Some h => Some h
                 | None => rec_password_hash current
                 end in
          let s2 := if truthy (f_remove_password f) then s1
                    else salt_drawn (f_password f) s1 in
          match update_event id (toString (trimmed (f_name f)))
                  (or_null (f_date f)) (or_null (f_time f))
                  (or_null (f_location f)) (or_null (f_description f))
                  password_hash s2 with
          | (None, s3) => (server_error, s3)
          | (Some [], s3) => (server_error, s3)
          | (Some (e :: _), s3) =>
              (mkReply 200 true "" (Some (sanitize e)) None, s3)
          end
      end.

(** [router.delete('/:id', ...)] *)
Definition deleteEvent (id : nat) : state -> reply * state :=
  fun s =>
    match delete_event id s with
    | (None, s1) => (server_error, s1)
    | (Some [], s1) => (not_found, s1)
    | (Some (_ :: _), s1) =>
        (mkReply 200 true "Event deleted successfully" None None, s1)
    end.

(** A request to the router, with a well-formed [:id]. *)
Inductive request : Type :=
| get_event (id : nat)
| verify_password (id : nat) (password : jsval)
| create_event (f : form)
| update_event_of (id : nat) (f : form)
| delete_event_of (id : nat).

Definition serve (q : request) : state -> reply * state :=
  match q with
  | get_event id => getEvent id
  | verify_password id password => verifyPassword id password
  | create_event f => createEvent f
  | update_event_of id f => updateEvent id f
  | delete_event_of id => deleteEvent id
  end.

End Library.

(** The requests that only read, and the one that deletes. *)
Definition is_read (q : request) : bool :=
  match q with
  | get_event _ | verify_password _ _ => true
  | _ => false
  end.

Definition is_delete (q : request) : bool :=
  match q with
  | delete_event_of _ => true
  | _ => false
  end.

(** Every id in [events] was drawn from its sequence. *)
Definition ids_drawn (s : state) : Prop :=
  Forall (fun e => rec_id e < events_id_seq s) (event_rows s).

(** A reply of success. *)
Definition succeeded (r : reply) : bool := (code r =? 200) || (code r =? 201).

(** Stand-ins for the library, for the examples: the validators accept
    everything, the columns too, the hash of [p] is [#p] under any salt. *)
Definition any_text (_ : string) : bool := true.
Definition any_value (_ : jsval) : bool := true.
Definition toy_hash (_ : nat) (p : string) : string := ("#" ++ p)%string.
Definition toy_compare (p h : string) : bool := (h =? "#" ++ p)%string.


Definition blank_form : form :=
  mkForm (JStr "Retreat") JNull JNull JNull JNull (JStr "   ") JUndefined.

(** A new name, a new password and the request to remove the password. *)
Definition removal_form : form :=
  mkForm (JStr "Retreat 2") JNull JNull JNull JNull (JStr "other")
         (JStr "true").

(** A new name and nothing about the password. *)
Definition rename_form : form :=
  mkForm (JStr " Camp ") JNull JNull JNull JNull JUndefined JUndefined.

Definition empty_state : state := mkState [] [] 1 0 0 [] 0.

(** The protected event 1 and the open event 2, with the attendees of
    [sample_world]. *)
Definition guarded_state : state :=
  mkState [mkRecord 1 "Retreat" None None None None (Some "#secret") false 0 0;
           mkRecord 2 "Concert" None None None None None true 1 1]
          [john_doe; mary; martha] 3 5 0 [] 0.

End Events.

(* ================================================================== *)
(** * Properties *)

(* ------------------------------------------------------------------ *)
(** ** Strings *)

Section StringFacts.

Ltac each_code c :=
  destruct c as [[] [] [] [] [] [] [] []]; vm_compute;
  try reflexivity; try discriminate; intros; try discriminate; auto.

Lemma lower_alnum_toLowerChar c :
  is_lower_alnum c = true -> toLowerChar c = c.
Proof. each_code c. Qed.

Lemma lower_alnum_not_space c :
  is_lower_alnum c = true -> is_space c = false.
Proof. each_code c. Qed.

Lemma digit_is_lower_alnum c :
  is_digit c = true -> is_lower_alnum c = true.
Proof. each_code c. Qed.

(** JavaScript's and the store's lowercasing differ only outside
    [[a-z0-9]]. *)
Lemma lower_alnum_after_lowering c :
  is_lower_alnum (toLowerChar c)
  = is_lower_alnum (if between 65 90 c then ascii_of_nat (code c + 32) else c).
Proof. each_code c. Qed.

Lemma lowering_agrees c :
  is_lower_alnum (toLowerChar c) = true ->
  toLowerChar c = (if between 65 90 c then ascii_of_nat (code c + 32) else c).
Proof. each_code c. Qed.

Lemma space_lowered_is_dropped c :
  is_space c = true -> is_not_lower_alnum (toLowerChar c) = true.
Proof. each_code c. Qed.

Variable cls : ascii -> bool.

Lemma replace_all_empty_clean s :
  all_chars (fun c => negb (cls c)) (replace_all_empty cls s) = true.
Proof.
  induction s as [|c r IH]; simpl; [reflexivity|].
  destruct (cls c) eqn:E; simpl; [assumption|].
  rewrite E, IH. reflexivity.
Qed.

Lemma replace_all_empty_fixed s :
  all_chars (fun c => negb (cls c)) s = true -> replace_all_empty cls s = s.
Proof.
  induction s as [|c r IH]; simpl; [reflexivity|].
  intros H. apply andb_true_iff in H. destruct H as [Hc Hr].
  apply negb_true_iff in Hc. rewrite Hc, (IH Hr). reflexivity.
Qed.

Lemma replace_all_empty_subsequence s :
  subsequence (replace_all_empty cls s) s.
Proof.
  induction s as [|c r IH]; simpl; [constructor|].
  destruct (cls c); constructor; assumption.
Qed.

(** Nothing outside the class is lost: the result is the longest
    subsequence that avoids the class. *)
Lemma replace_all_empty_greatest t s :
  subsequence t s ->
  all_chars (fun c => negb (cls c)) t = true ->
  subsequence t (replace_all_empty cls s).
Proof.
  induction 1 as [|c t s _ IH|c t s _ IH]; simpl; intros Ht.
  - constructor.
  - destruct (cls c); [|constructor]; auto.
  - apply andb_true_iff in Ht. destruct Ht as [Hc Ht].
    apply negb_true_iff in Hc. rewrite Hc. apply sub_keep. auto.
Qed.

End StringFacts.

Lemma all_chars_impl (p q : ascii -> bool) s :
  (forall c, p c = true -> q c = true) ->
  all_chars p s = true -> all_chars q s = true.
Proof.
  intros Hpq. induction s as [|c r IH]; simpl; [reflexivity|].
  intros H. apply andb_true_iff in H. destruct H as [Hc Hr].
  rewrite (Hpq _ Hc), (IH Hr). reflexivity.
Qed.

Lemma subsequence_refl s : subsequence s s.
Proof. induction s; constructor; assumption. Qed.

Lemma subsequence_trans u t s :
  subsequence t s -> subsequence u t -> subsequence u s.
Proof.
  intros Hts. revert u.
  induction Hts as [|c t s _ IH|c t s _ IH]; intros u Hu.
  - assumption.
  - apply sub_skip. auto.
  - inversion Hu; subst; [apply sub_skip | apply sub_keep]; auto.
Qed.

Lemma subsequence_map f t s :
  subsequence t s -> subsequence (map_chars f t) (map_chars f s).
Proof. induction 1; simpl; constructor; assumption. Qed.

Lemma trimStart_subsequence s : subsequence (trimStart s) s.
Proof.
  induction s as [|c r IH]; simpl; [constructor|].
  destruct (is_space c); [constructor; assumption | apply subsequence_refl].
Qed.

Lemma trimEnd_subsequence s : subsequence (trimEnd s) s.
Proof.
  induction s as [|c r IH]; simpl; [constructor|].
  destruct (trimEnd r) eqn:E.
  - destruct (is_space c); [apply sub_skip | apply sub_keep]; assumption.
  - apply sub_keep. assumption.
Qed.

Lemma trim_subsequence s : subsequence (trim s) s.
Proof.
  unfold trim. eapply subsequence_trans;
    [apply trimStart_subsequence | apply trimEnd_subsequence].
Qed.

Lemma trimStart_no_space s :
  all_chars (fun c => negb (is_space c)) s = true -> trimStart s = s.
Proof.
  destruct s as [|c r]; simpl; [reflexivity|].
  intros H. apply andb_true_iff in H. destruct H as [Hc _].
  apply negb_true_iff in Hc. rewrite Hc. reflexivity.
Qed.

Lemma trimEnd_no_space s :
  all_chars (fun c => negb (is_space c)) s = true -> trimEnd s = s.
Proof.
  induction s as [|c r IH]; simpl; [reflexivity|].
  intros H. apply andb_true_iff in H. destruct H as [Hc Hr].
  apply negb_true_iff in Hc. rewrite (IH Hr), Hc.
  destruct r; reflexivity.
Qed.

Lemma trim_no_space s :
  all_chars (fun c => negb (is_space c)) s = true -> trim s = s.
Proof.
  intros H. unfold trim. rewrite (trimStart_no_space _ H). apply trimEnd_no_space, H.
Qed.

Lemma toLowerCase_lower_alnum s :
  all_chars is_lower_alnum s = true -> toLowerCase s = s.
Proof.
  induction s as [|c r IH]; simpl; [reflexivity|].
  intros H. apply andb_true_iff in H. destruct H as [Hc Hr].
  unfold toLowerCase in *. simpl.
  rewrite (lower_alnum_toLowerChar _ Hc), (IH Hr). reflexivity.
Qed.

Lemma kept_is_lower_alnum s :
  all_chars is_lower_alnum (replace_all_empty is_not_lower_alnum s) = true.
Proof.
  eapply all_chars_impl; [|apply replace_all_empty_clean].
  intros c. unfold is_not_lower_alnum. rewrite negb_involutive. auto.
Qed.

Lemma kept_is_digit s :
  all_chars is_digit (replace_all_empty is_non_digit s) = true.
Proof.
  eapply all_chars_impl; [|apply replace_all_empty_clean].
  intros c. unfold is_non_digit. rewrite negb_involutive. auto.
Qed.

Lemma digits_fixed s :
  all_chars is_digit s = true -> replace_all_empty is_non_digit s = s.
Proof.
  intros H. apply replace_all_empty_fixed.
  eapply all_chars_impl; [|exact H].
  intros c Hc. unfold is_non_digit. rewrite negb_involutive. exact Hc.
Qed.

Lemma name_key_fixed s :
  all_chars is_lower_alnum s = true ->
  replace_all_empty is_not_lower_alnum (toLowerCase (trim s)) = s.
Proof.
  intros H.
  rewrite trim_no_space.
  - rewrite (toLowerCase_lower_alnum _ H). apply replace_all_empty_fixed.
    eapply all_chars_impl; [|exact H].
    intros c Hc. unfold is_not_lower_alnum. rewrite negb_involutive. exact Hc.
  - eapply all_chars_impl; [|exact H].
    intros c Hc. rewrite (lower_alnum_not_space _ Hc). reflexivity.
Qed.


(** Trimming only removes what the character class removes anyway. *)
Lemma replace_after_trim (cls : ascii -> bool) (f : ascii -> ascii) s :
  (forall c, is_space c = true -> cls (f c) = true) ->
  replace_all_empty cls (map_chars f (trim s))
  = replace_all_empty cls (map_chars f s).
Proof.
  intros Hsp. unfold trim.
  assert (Hend : forall u, replace_all_empty cls (map_chars f (trimEnd u))
                           = replace_all_empty cls (map_chars f u)).
  { induction u as [|c r IH]; simpl; [reflexivity|].
    destruct (trimEnd r) eqn:E; simpl in *.
    - destruct (is_space c) eqn:Ec; simpl.
      + rewrite (Hsp _ Ec). exact IH.
      + rewrite <- IH. reflexivity.
    - rewrite <- IH. reflexivity. }
  rewrite Hend. clear Hend.
  induction s as [|c r IH]; simpl; [reflexivity|].
  destruct (is_space c) eqn:Ec; simpl; [|reflexivity].
  rewrite (Hsp _ Ec). exact IH.
Qed.

(** The store computes the name key of the source's [normalizeName]. *)
Lemma sql_name_key_normalizeName s :
  sql_name_key s = replace_all_empty is_not_lower_alnum (toLowerCase (trim s)).
Proof.
  unfold toLowerCase. rewrite replace_after_trim by apply space_lowered_is_dropped.
  unfold sql_name_key, sql_lower.
  induction s as [|c r IH]; simpl; [reflexivity|].
  unfold is_not_lower_alnum in *. rewrite <- lower_alnum_after_lowering.
  destruct (is_lower_alnum (toLowerChar c)) eqn:E; simpl.
  - rewrite <- (lowering_agrees _ E), IH. reflexivity.
  - exact IH.
Qed.

(* ------------------------------------------------------------------ *)
(** ** Normaliser *)

Lemma normalizePhone_cases number :
  (truthy number = false /\ normalizePhone number = JNull)
  \/ (truthy number = true
      /\ normalizePhone number
         = JStr (replace_all_empty is_non_digit (toString number))).
Proof.
  unfold normalizePhone. destruct (truthy number); simpl; auto.
Qed.

Lemma normalizeName_cases name :
  (truthy name = false /\ normalizeName name = JStr "")
  \/ (truthy name = true
      /\ normalizeName name
         = JStr (replace_all_empty is_not_lower_alnum
                   (toLowerCase (trim (toString name))))).
Proof.
  unfold normalizeName. destruct (truthy name); simpl; auto.
Qed.

(** C8.  [normalizePhone] returns [null] exactly on empty or absent input
    (an empty key), and otherwise the digits of its input: only digits, in
    the input's order, none lost.  [normalizeName] always returns a string
    of [[a-z0-9]] code units that is a subsequence of the lowercased input
    and loses none of its [[a-z0-9]] code units. *)
Theorem normalizers_keep_key_characters_in_order :
  (forall number : jsval,
      (truthy number = false /\ normalizePhone number = JNull)
      \/ (exists digits,
             normalizePhone number = JStr digits
             /\ all_chars is_digit digits = true
             /\ subsequence digits (toString number)
             /\ (forall t, subsequence t (toString number) ->
                           all_chars is_digit t = true ->
                           subsequence t digits)))
  /\ (normalizePhone JNull = JNull
      /\ normalizePhone JUndefined = JNull
      /\ normalizePhone (JStr "") = JNull
      /\ empty_key JNull = true)
  /\ (forall name : jsval,
         exists key,
           normalizeName name = JStr key
           /\ all_chars is_lower_alnum key = true
           /\ subsequence key (toLowerCase (toString name))
           /\ (forall t, subsequence t (toLowerCase (toString name)) ->
                         all_chars is_lower_alnum t = true ->
                         subsequence t key)).
Proof.
  split; [|split].
  - intros number.
    destruct (normalizePhone_cases number) as [[Hf Hn]|[_ Hn]]; [left; auto|].
    right. eexists. split; [exact Hn|]. split; [apply kept_is_digit|].
    split; [apply replace_all_empty_subsequence|].
    intros t Ht Hd. apply replace_all_empty_greatest; [exact Ht|].
    eapply all_chars_impl; [|exact Hd].
    intros c Hc. unfold is_non_digit. rewrite negb_involutive. exact Hc.
  - repeat split.
  - intros name.
    destruct (normalizeName_cases name) as [[Hf Hn]|[_ Hn]].
    + exists "". split; [exact Hn|]. split; [reflexivity|].
      assert (toString name = "") as ->.
      { destruct name as [| |s]; try reflexivity.
        simpl in Hf. apply negb_false_iff, String.eqb_eq in Hf. exact Hf. }
      split; [constructor|]. intros t Ht _. exact Ht.
    + eexists. split; [exact Hn|]. split; [apply kept_is_lower_alnum|].
      unfold toLowerCase.
      rewrite replace_after_trim by apply space_lowered_is_dropped.
      split; [apply replace_all_empty_subsequence|].
      intros t Ht Hd. apply replace_all_empty_greatest; [exact Ht|].
      eapply all_chars_impl; [|exact Hd].
      intros c Hc. unfold is_not_lower_alnum. rewrite negb_involutive. exact Hc.
Qed.

Lemma normalizers_keep_key_characters_witness :
  exists digits,
    normalizePhone (JStr "+62 812-345") = JStr digits
    /\ subsequence "6845" digits.
Proof.
  destruct (proj1 normalizers_keep_key_characters_in_order (JStr "+62 812-345"))
    as [[Hf _]|[digits [Hn [_ [_ Hmax]]]]].
  - discriminate Hf.
  - exists digits. split; [exact Hn|].
    apply Hmax; [|reflexivity].
    simpl. apply sub_skip, sub_keep, sub_skip, sub_skip, sub_keep, sub_skip,
      sub_skip, sub_skip, sub_skip, sub_keep, sub_keep, sub_nil.
Defined.

(** C7, as stated, fails: a non-empty input without digits is normalised
    to the empty string, and the empty string to [null]. *)
Lemma normalizePhone_twice_differs :
  normalizePhone (JStr "abc") = JStr ""
  /\ normalizePhone (normalizePhone (JStr "abc")) = JNull
  /\ normalizePhone (normalizePhone (JStr "abc")) <> normalizePhone (JStr "abc").
Proof. repeat split. discriminate. Qed.

(** C7 (amended).  [normalizeName] is idempotent on every input;
    [normalizePhone] is idempotent on every input whose key is not the
    empty string (absent or empty input, or input with a digit); when the
    key is the empty string, normalising it again gives [null], and both
    are empty keys. *)
Theorem normalizing_twice :
  (forall name : jsval, normalizeName (normalizeName name) = normalizeName name)
  /\ (forall number : jsval,
         normalizePhone number <> JStr "" ->
         normalizePhone (normalizePhone number) = normalizePhone number)
  /\ (forall number : jsval,
         normalizePhone number = JStr "" ->
         normalizePhone (normalizePhone number) = JNull
         /\ empty_key (normalizePhone number) = true
         /\ empty_key (normalizePhone (normalizePhone number)) = true).
Proof.
  split; [|split].
  - intros name.
    destruct (normalizeName_cases name) as [[_ Hn]|[_ Hn]]; rewrite Hn.
    + reflexivity.
    + set (key := replace_all_empty _ _).
      assert (Hk : all_chars is_lower_alnum key = true) by apply kept_is_lower_alnum.
      unfold normalizeName. simpl. destruct (key =? "")%string eqn:E; simpl.
      * apply String.eqb_eq in E. rewrite E. reflexivity.
      * rewrite (name_key_fixed _ Hk). reflexivity.
  - intros number Hne.
    destruct (normalizePhone_cases number) as [[_ Hn]|[_ Hn]]; rewrite Hn in *.
    + reflexivity.
    + set (digits := replace_all_empty _ _) in *.
      assert (Hd : all_chars is_digit digits = true) by apply kept_is_digit.
      unfold normalizePhone. simpl. destruct (digits =? "")%string eqn:E; simpl.
      * apply String.eqb_eq in E. congruence.
      * rewrite (digits_fixed _ Hd). reflexivity.
  - intros number Hn. rewrite Hn. repeat split.
Qed.

Lemma normalizing_twice_witness :
  normalizePhone (normalizePhone (JStr "+62 812-345-678"))
  = normalizePhone (JStr "+62 812-345-678")
  /\ normalizePhone (normalizePhone (JStr "n/a")) = JNull.
Proof.
  split.
  - apply (proj1 (proj2 normalizing_twice)). discriminate.
  - apply (proj2 (proj2 normalizing_twice)). reflexivity.
Defined.

(* ------------------------------------------------------------------ *)
(** ** The store and the monad *)

Lemma query_cases {A} (s : statement) (sem : world -> error + A * world) w :
  (fault_due w = true /\ query s sem w = (Throw StoreFault, note s false w))
  \/ (fault_due w = false /\ exists e,
        sem w = inl e /\ query s sem w = (Throw e, note s false w))
  \/ (fault_due w = false /\ exists a w1,
        sem w = inr (a, w1) /\ query s sem w = (Ok a, note s true w1)).
Proof.
  unfold query. destruct (fault_due w); [left; auto | right].
  destruct (sem w) as [e|[a w1]]; [left | right]; eauto.
Qed.

Lemma no_faults_none_due w : faults w = [] -> fault_due w = false.
Proof. unfold fault_due. intros ->. reflexivity. Qed.

(** What a statement of the import loop leaves alone: the committed rows,
    the events, the open transaction stays open, the log grows by [new]. *)
Record kept (w w' : world) (new : list (statement * bool)) : Prop := mkKept {
  kept_attendees : attendees w' = attendees w;
  kept_events : events w' = events w;
  kept_faults : faults w' = faults w;
  kept_txn : txn w <> None -> txn w' <> None;
  kept_issued : issued w' = new ++ issued w
}.



Lemma kept_note s ok w : kept w (note s ok w) [(s, ok)].
Proof. constructor; auto. Qed.

Definition accepted_by (A : Type) (r : result A) : bool :=
  match r with
  | Ok _ => true
  | Throw _ => false
  end.
Arguments accepted_by {A} r.

(** A read through [client] changes nothing but the log. *)
Lemma read_kept {A} s (f : world -> A) w r w' :
  query s (fun w => inr (f w, w)) w = (r, w') ->
  kept w w' [(s, accepted_by r)].
Proof.
  intros H.
  destruct (query_cases s (fun w => inr (f w, w)) w)
    as [[_ E]|[[_ [e [Hs _]]]|[_ [a [w1 [Hs E]]]]]].
  - rewrite E in H. injection H as <- <-. apply kept_note.
  - discriminate Hs.
  - rewrite E in H. injection H as <- <-. injection Hs as _ <-. apply kept_note.
Qed.






Lemma sent_during_app w w' new :
  issued w' = new ++ issued w -> sent_during w w' = new.
Proof.
  intros H. unfold sent_during. rewrite H, length_app, Nat.add_sub.
  rewrite firstn_app, firstn_all, Nat.sub_diag. simpl. apply app_nil_r.
Qed.




Lemma rollback_outcome w r w' :
  rollback w = (r, w') ->
  issued w' = (Rollback, accepted_by r) :: issued w
  /\ attendees w' = attendees w
  /\ (accepted_by r = true -> txn w' = None).
Proof.
  unfold rollback. intros H.
  match type of H with query ?s ?sem w = _ =>
    destruct (query_cases s sem w)
      as [[_ E]|[[_ [e [Hs E]]]|[_ [a [w1 [Hs E]]]]]]
  end; rewrite E in H; injection H as <- <-; simpl; auto.
  - repeat split; auto. discriminate.
  - discriminate Hs.
  - injection Hs as _ <-. auto.
Qed.

Lemma getEventStats_kept eid w r w' :
  getEventStats eid w = (r, w') -> kept w w' [(SelectStats eid, accepted_by r)].
Proof. apply read_kept. Qed.

Lemma select_event_kept eid w r w' :
  select_event eid w = (r, w') -> kept w w' [(SelectEvent eid, accepted_by r)].
Proof. apply read_kept. Qed.

(** [catch (err) { await client.query("ROLLBACK"); throw err; }] *)
Lemma rollback_and_rethrow {A} err w (r : result A) w' :
  bind rollback (fun _ => throw err) w = (r, w') ->
  (exists e, r = Throw e)
  /\ attendees w' = attendees w
  /\ exists ok, issued w' = (Rollback, ok) :: issued w.
Proof.
  unfold bind, throw.
  destruct (rollback w) as [[[]|e] w1] eqn:E; apply rollback_outcome in E;
    destruct E as [I [A0 _]]; intros H; injection H as <- <-; eauto.
Qed.



(* ------------------------------------------------------------------ *)
(** ** Import transaction *)



(* ------------------------------------------------------------------ *)
(** ** Running a handler on a store that does not break *)

Lemma query_run {A} (s : statement) (sem : world -> error + A * world) w :
  faults w = [] ->
  query s sem w
  = match sem w with
    | inl e => (Throw e, note s false w)
    | inr (a, w') => (Ok a, note s true w')
    end.
Proof. intros H. unfold query. rewrite (no_faults_none_due _ H). reflexivity. Qed.

Lemma find_filter {A} (p : A -> bool) l x :
  find p l = Some x -> exists rest, filter p l = x :: rest.
Proof.
  induction l as [|y l IH]; simpl; [discriminate|].
  destruct (p y) eqn:E.
  - intros H; injection H as ->. eauto.
  - exact IH.
Qed.

Lemma find_none_filter {A} (p : A -> bool) l :
  find p l = None -> filter p l = [].
Proof.
  induction l as [|y l IH]; simpl; [reflexivity|].
  destruct (p y); [discriminate|exact IH].
Qed.

Lemma find_existsb {A} (p : A -> bool) l x :
  find p l = Some x -> existsb p l = true.
Proof.
  intros H. apply existsb_exists. exists x.
  apply find_some in H. exact H.
Qed.

Lemma find_none_existsb {A} (p : A -> bool) l :
  find p l = None -> existsb p l = false.
Proof.
  intros H. destruct (existsb p l) eqn:E; [|reflexivity].
  apply existsb_exists in E. destruct E as [x [Hin Hp]].
  rewrite (find_none _ _ H x Hin) in Hp. discriminate.
Qed.

Lemma select_event_run eid w :
  faults w = [] ->
  select_event eid w
  = (Ok (filter (fun e => ev_id e =? eid) (events w)), note (SelectEvent eid) true w).
Proof. intros H. unfold select_event. rewrite query_run by exact H. reflexivity. Qed.

Lemma getEventStats_run eid w :
  faults w = [] ->
  getEventStats eid w
  = (Ok (count_stats eid (attendees w)), note (SelectStats eid) true w).
Proof. intros H. unfold getEventStats. rewrite query_run by exact H. reflexivity. Qed.

Lemma insert_attendee_run c eid name phone mail src w :
  faults w = [] ->
  fits_columns name phone mail = true ->
  existsb (fun e => ev_id e =? eid) (events w) = true ->
  let row := mkAttendee (attendees_id_seq w) eid name phone mail
                        false None src (clock w) (clock w) in
  insert_attendee c eid name phone mail src w
  = (Ok row,
     note (InsertAttendee eid name phone mail src) true
       (set_view c (view c w ++ [row]) (next_id w))).
Proof.
  intros H Hfit Hev. unfold insert_attendee. rewrite query_run by exact H.
  unfold fits_columns in Hfit. apply negb_true_iff in Hfit.
  rewrite Hfit, Hev. reflexivity.
Qed.

(* ------------------------------------------------------------------ *)
(** ** Manual add *)



(** An unknown event is not looked for: the [INSERT] is sent and the
    foreign key rejects it. *)
Lemma addAttendee_unknown_event eid name phone mail w :
  faults w = [] ->
  event_of eid w = None ->
  truthy name = true ->
  exists w',
    addAttendee eid name phone mail w = (server_error ForeignKeyViolation, w')
    /\ attendees w' = attendees w
    /\ sent_during w w'
       = [(InsertAttendee eid (toString (trimmed name)) (or_null (trimmed phone))
             (or_null mail) src_manual, false);
          (SelectEvent eid, true)].
Proof.
  intros Hf He Hname.
  unfold addAttendee. rewrite Hname. cbn [negb]. unfold respond, bind.
  rewrite select_event_run by exact Hf.
  rewrite (find_none_filter _ _ He). cbn [first_is_finished].
  unfold insert_attendee. rewrite query_run by exact Hf.
  cbn [events note]. rewrite (find_none_existsb _ _ He).
  destruct (_ || _); eexists; (split; [reflexivity|]);
    (split; [reflexivity|]); apply sent_during_app; reflexivity.
Qed.

(** C9: the source does not do this.  On a store without event 9,
    [addAttendee] sends the [INSERT], which the foreign key rejects, and
    answers 500 "Server error"; the sibling [checkIn] answers 404 "Event
    not found" before any write. *)
Theorem addAttendee_unknown_event_sends_insert :
  event_of 9 sample_world = None
  /\ fst (addAttendee 9 (JStr "Bob") JUndefined JUndefined sample_world)
     = mkResponse 500 false "Server error" no_body
  /\ sent_during sample_world
       (snd (addAttendee 9 (JStr "Bob") JUndefined JUndefined sample_world))
     = [(InsertAttendee 9 "Bob" None None src_manual, false);
        (SelectEvent 9, true)]
  /\ attendees (snd (addAttendee 9 (JStr "Bob") JUndefined JUndefined sample_world))
     = attendees sample_world
  /\ fst (checkIn 9 1 sample_world)
     = mkResponse 404 false "Event not found" no_body
  /\ sent_during sample_world (snd (checkIn 9 1 sample_world))
     = [(SelectEvent 9, true)].
Proof. repeat split. Qed.

(* ------------------------------------------------------------------ *)
(** ** Lifecycle gate *)

Section FinishedEvent.

Variables (w : world) (eventId : nat) (e : event_row).
Hypothesis store_up : faults w = [].
Hypothesis found : event_of eventId w = Some e.
Hypothesis finished : is_finished e = true.

Ltac refused :=
  unfold forbidden; repeat split; apply sent_during_app; reflexivity.

Lemma event_check_finished :
  select_event eventId w
  = (Ok (filter (fun e => ev_id e =? eventId) (events w)),
     note (SelectEvent eventId) true w)
  /\ first_is_finished (filter (fun e => ev_id e =? eventId) (events w)) = true.
Proof.
  split; [apply select_event_run, store_up|].
  destruct (find_filter _ _ _ found) as [rest ->]. exact finished.
Qed.

Lemma addAttendee_gated name phone mail :
  truthy name = true -> forbidden eventId w (addAttendee eventId name phone mail w).
Proof.
  intros Hname. unfold addAttendee. rewrite Hname. cbn [negb].
  unfold respond, bind. destruct event_check_finished as [-> ->].
  refused.
Qed.

Lemma importAttendees_gated file :
  file <> no_file -> forbidden eventId w (importAttendees eventId file w).
Proof.
  intros Hfile. destruct file; [contradiction| |];
    unfold importAttendees, respond, import_request, bind;
    destruct event_check_finished as [-> ->]; refused.
Qed.

Lemma confirmDuplicateImport_gated dups :
  forbidden eventId w (confirmDuplicateImport eventId (Some dups) w).
Proof.
  unfold confirmDuplicateImport, respond, bind.
  destruct event_check_finished as [-> ->]. refused.
Qed.

Lemma checkIn_gated attendeeId : forbidden eventId w (checkIn eventId attendeeId w).
Proof.
  unfold checkIn, respond, bind. rewrite select_event_run by exact store_up.
  destruct (find_filter _ _ _ found) as [rest ->]. rewrite finished.
  refused.
Qed.

Lemma deleteAttendee_gated attendeeId : forbidden eventId w (deleteAttendee eventId attendeeId w).
Proof.
  unfold deleteAttendee, respond, bind.
  destruct event_check_finished as [-> ->]. refused.
Qed.

(** [undoCheckIn] never reads the event. *)
Lemma undoCheckIn_not_gated attendeeId a :
  find (is_attendee attendeeId eventId) (attendees w) = Some a ->
  status (fst (undoCheckIn eventId attendeeId w)) = 200
  /\ attendees (snd (undoCheckIn eventId attendeeId w))
     = update_where (is_attendee attendeeId eventId) (set_unchecked (clock w))
         (attendees w).
Proof.
  intros Ha. unfold undoCheckIn, respond, bind, update_undo_check_in.
  rewrite query_run by exact store_up. cbn [view].
  assert (Hupd : exists r rest,
             filter (is_attendee attendeeId eventId)
               (update_where (is_attendee attendeeId eventId)
                  (set_unchecked (clock w)) (attendees w)) = r :: rest).
  { clear -Ha. induction (attendees w) as [|x l IH]; simpl in *; [discriminate|].
    destruct (is_attendee attendeeId eventId x) eqn:Ex.
    - unfold set_unchecked at 1. unfold is_attendee at 1. simpl.
      unfold is_attendee in Ex. rewrite Ex. eauto.
    - rewrite Ex. auto. }
  destruct Hupd as [r [rest ->]].
  rewrite getEventStats_run by exact store_up. split; reflexivity.
Qed.

(** Neither does [clearAttendees]. *)
Lemma clearAttendees_not_gated :
  fst (clearAttendees eventId w) = mkResponse 200 true "All attendees cleared" no_body
  /\ attendees (snd (clearAttendees eventId w))
     = filter (fun a => negb (in_event eventId a)) (attendees w).
Proof.
  unfold clearAttendees, respond, bind, delete_attendees.
  rewrite query_run by exact store_up. split; reflexivity.
Qed.

End FinishedEvent.

(** C1: the source does not do this for bulk deletion.  Event 2 of the
    sample world is finished: the siblings (manual add, import, confirm,
    check-in, single deletion) answer 403 and leave its roster alone,
    [undoCheckIn] goes through as designed, but [clearAttendees] answers 200
    and deletes both attendees of the event. *)
Theorem clearAttendees_on_finished_event :
  (event_of 2 sample_world = Some concert /\ is_finished concert = true)
  /\ fst (clearAttendees 2 sample_world)
     = mkResponse 200 true "All attendees cleared" no_body
  /\ attendees sample_world = [john_doe; mary; martha]
  /\ attendees (snd (clearAttendees 2 sample_world)) = [john_doe]
  /\ count_stats 2 (attendees sample_world) = mkStats 2 1
  /\ count_stats 2 (attendees (snd (clearAttendees 2 sample_world))) = mkStats 0 0
  /\ (status (fst (deleteAttendee 2 3 sample_world)) = 403
      /\ attendees (snd (deleteAttendee 2 3 sample_world)) = attendees sample_world)
  /\ (status (fst (addAttendee 2 (JStr "Luke") JUndefined JUndefined sample_world)) = 403
      /\ status (fst (importAttendees 2 (sheet [[("Name", "Luke")]]) sample_world)) = 403
      /\ status (fst (confirmDuplicateImport 2 (Some []) sample_world)) = 403
      /\ status (fst (checkIn 2 3 sample_world)) = 403)
  /\ status (fst (undoCheckIn 2 2 sample_world)) = 200.
Proof. repeat split. Qed.

(* ------------------------------------------------------------------ *)
(** ** Check-in state machine *)

(** C6.  On an active event, [checkIn] on an attendee already checked in
    answers 409 with the stored record, updates nothing and emits nothing:
    the roster, hence the record, its timestamp and the statistics, are
    those from before the call. *)
Theorem checkIn_again_is_a_conflict eid aid w e a :
  faults w = [] ->
  event_of eid w = Some e ->
  is_finished e = false ->
  find (is_attendee aid eid) (attendees w) = Some a ->
  checked_in a = true ->
  exists w',
    checkIn eid aid w
    = (mkResponse 409 false (att_name a ++ " is already checked in")
         (attendee_data a), w')
    /\ attendees w' = attendees w
    /\ find (is_attendee aid eid) (attendees w') = Some a
    /\ count_stats eid (attendees w') = count_stats eid (attendees w)
    /\ emitted w' = emitted w
    /\ sent_during w w' = [(SelectAttendee aid eid, true); (SelectEvent eid, true)].
Proof.
  intros Hf He Hfin Ha Hin.
  unfold checkIn, respond, bind. rewrite select_event_run by exact Hf.
  destruct (find_filter _ _ _ He) as [rest ->]. rewrite Hfin.
  unfold select_attendee. rewrite query_run by exact Hf. cbn [view note txn attendees].
  destruct (find_filter _ _ _ Ha) as [others ->]. rewrite Hin.
  unfold ret. eexists. split; [reflexivity|].
  repeat split; try assumption. apply sent_during_app. reflexivity.
Qed.

Lemma checkIn_again_is_a_conflict_witness :
  let first := checkIn 1 1 sample_world in
  let checked :=
    mkAttendee 1 1 "John Doe" (Some "0812345678") None true (Some 12)
      src_manual 0 12 in
  fst first = mkResponse 200 true "John Doe checked in successfully!"
                (attendee_data checked)
  /\ exists w',
       checkIn 1 1 (snd first)
       = (mkResponse 409 false "John Doe is already checked in"
            (attendee_data checked), w')
       /\ attendees w' = attendees (snd first)
       /\ count_stats 1 (attendees w') = mkStats 1 1.
Proof.
  intros first checked. split; [reflexivity|].
  destruct (checkIn_again_is_a_conflict 1 1 (snd first) retreat checked)
    as [w' [Hrun [Hrows [_ [Hstats _]]]]]; try reflexivity.
  exists w'. split; [exact Hrun|]. split; [exact Hrows|].
  rewrite Hstats. reflexivity.
Defined.

(* ------------------------------------------------------------------ *)
(** ** Duplicate matcher *)

Lemma normalizeName_is_string name :
  normalizeName name = JStr (toString (normalizeName name)).
Proof. unfold normalizeName. destruct (negb (truthy name)); reflexivity. Qed.

Lemma sql_name_key_is_normalizeName s :
  JStr (sql_name_key s) = normalizeName (JStr s).
Proof.
  unfold normalizeName. simpl. destruct (s =? "")%string eqn:E; simpl.
  - apply String.eqb_eq in E. subst s. reflexivity.
  - rewrite sql_name_key_normalizeName. reflexivity.
Qed.

Lemma name_matches_iff eid name a :
  name_matches eid (toString (normalizeName name)) a = true
  <-> same_name eid name a.
Proof.
  unfold name_matches, same_name, in_event.
  rewrite andb_true_iff, Nat.eqb_eq, String.eqb_eq.
  rewrite <- sql_name_key_is_normalizeName, (normalizeName_is_string name).
  simpl. split; intros [H1 H2]; (split; [exact H1|]); congruence.
Qed.

Lemma truthy_key_is_string v :
  truthy v = true -> v = JStr (toString v) /\ toString v <> "".
Proof.
  destruct v as [| |s]; simpl; try discriminate.
  intros H. apply negb_true_iff, String.eqb_neq in H. auto.
Qed.

Lemma phone_matches_iff eid phone a :
  truthy (normalizePhone phone) = true ->
  phone_matches eid (toString (normalizePhone phone)) a = true
  <-> same_phone eid phone a.
Proof.
  intros Ht. destruct (truthy_key_is_string _ Ht) as [Hk Hne].
  unfold phone_matches, same_phone, in_event.
  rewrite andb_true_iff, Nat.eqb_eq.
  split; intros [H1 H2]; (split; [exact H1|]).
  - destruct (phone_number a) as [p|]; simpl in H2; [|discriminate].
    apply String.eqb_eq in H2. exists p. split; [reflexivity|].
    rewrite Hk, <- H2. unfold normalizePhone. simpl.
    destruct (p =? "")%string eqn:E; simpl; [|reflexivity].
    apply String.eqb_eq in E. subst p. simpl in H2. congruence.
  - destruct H2 as [p [-> Hp]]. simpl. apply String.eqb_eq.
    rewrite <- Hp in *. unfold normalizePhone in *. simpl in *.
    destruct (p =? "")%string; simpl in *; [discriminate Ht|reflexivity].
Qed.

Lemma find_some_of_exists {A} (p : A -> bool) l :
  (exists x, In x l /\ p x = true) -> exists y, find p l = Some y.
Proof.
  intros [x [Hin Hp]]. destruct (find p l) eqn:E; [eauto|].
  rewrite (find_none _ _ E x Hin) in Hp. discriminate.
Qed.

Lemma find_none_of_forall {A} (p : A -> bool) l :
  (forall x, In x l -> p x = false) -> find p l = None.
Proof.
  intros H. destruct (find p l) eqn:E; [|reflexivity].
  apply find_some in E. destruct E as [Hin Hp].
  rewrite (H _ Hin) in Hp. discriminate.
Qed.

Lemma select_by_phone_run c eid p w :
  faults w = [] ->
  select_by_phone c eid p w
  = (Ok (limit_1 (find (phone_matches eid p) (view c w))),
     note (SelectByPhone eid p) true w).
Proof. intros H. unfold select_by_phone. rewrite query_run by exact H. reflexivity. Qed.

Lemma select_by_name_run c eid n w :
  faults w = [] ->
  select_by_name c eid n w
  = (Ok (limit_1 (find (name_matches eid n) (view c w))),
     note (SelectByName eid n) true w).
Proof. intros H. unfold select_by_name. rewrite query_run by exact H. reflexivity. Qed.


Lemma same_tables_note s ok w : same_tables w (note s ok w).
Proof. repeat split. Qed.

Lemma same_tables_trans w1 w2 w3 :
  same_tables w1 w2 -> same_tables w2 w3 -> same_tables w1 w3.
Proof.
  unfold same_tables. intros [A1 [B1 [C1 [D1 [E1 F1]]]]] [A2 [B2 [C2 [D2 [E2 F2]]]]].
  repeat split; congruence.
Qed.


(** On a store that does not break, the check returns [match_in] of the
    rows the transaction sees and changes no table. *)
Lemma duplicateMatch_run eid name phone w :
  faults w = [] ->
  exists w',
    duplicateMatch eid name phone w
    = (Ok (match_in (view client w) eid name phone), w')
    /\ same_tables w w'.
Proof.
  intros Hf. unfold duplicateMatch, match_in, bind, ret.
  destruct (truthy (normalizePhone phone)).
  - rewrite select_by_phone_run by exact Hf.
    destruct (find (phone_matches _ _) _) as [r|]; cbn [limit_1].
    + eexists. split; [reflexivity|apply same_tables_note].
    + rewrite select_by_name_run by exact Hf. cbn [view note txn attendees].
      fold (view client w).
      destruct (find (name_matches _ _) _) as [r|]; cbn [limit_1];
        eexists; (split; [reflexivity|]);
        (eapply same_tables_trans; apply same_tables_note).
  - rewrite select_by_name_run by exact Hf.
    destruct (find (name_matches _ _) _) as [r|]; cbn [limit_1];
      eexists; (split; [reflexivity|apply same_tables_note]).
Qed.

(** C4.  The check of a candidate against the rows the transaction sees:
    - the candidate's phone key is non-empty and some attendee of the event
      has the same phone key: the match is by phone, taken from such an
      attendee, and the name query is never sent;
    - otherwise, some attendee of the event has the same name key: the
      match is by name, taken from such an attendee;
    - otherwise there is no match. *)
Theorem duplicateMatch_phone_then_name eid name phone w :
  faults w = [] ->
  let roster := view client w in
  let no_phone_match :=
    truthy (normalizePhone phone) = false
    \/ (forall a, In a roster -> ~ same_phone eid phone a) in
  (truthy (normalizePhone phone) = true ->
   (exists a, In a roster /\ same_phone eid phone a) ->
   exists a w',
     In a roster /\ same_phone eid phone a
     /\ duplicateMatch eid name phone w
        = (Ok (Some (mkMatch by_phone (att_name a) (phone_number a))), w')
     /\ sent_during w w'
        = [(SelectByPhone eid (toString (normalizePhone phone)), true)])
  /\ (no_phone_match ->
      (exists a, In a roster /\ same_name eid name a) ->
      exists a w',
        In a roster /\ same_name eid name a
        /\ duplicateMatch eid name phone w
           = (Ok (Some (mkMatch by_name (att_name a) (phone_number a))), w')
        /\ In (SelectByName eid (toString (normalizeName name)), true)
              (sent_during w w'))
  /\ (no_phone_match ->
      (forall a, In a roster -> ~ same_name eid name a) ->
      exists w', duplicateMatch eid name phone w = (Ok None, w')).
Proof.
  intros Hf roster no_phone_match.
  assert (Hnone : no_phone_match ->
                  truthy (normalizePhone phone) = true ->
                  find (phone_matches eid (toString (normalizePhone phone))) roster
                  = None).
  { intros [Hk|Hno] Ht; [congruence|].
    apply find_none_of_forall. intros a Hin.
    destruct (phone_matches _ _ a) eqn:E; [|reflexivity].
    apply (phone_matches_iff _ _ _ Ht) in E. destruct (Hno a Hin E). }
  split; [|split].
  - intros Ht [a [Hin Hsame]].
    apply (phone_matches_iff _ _ _ Ht) in Hsame.
    destruct (find_some_of_exists _ roster (ex_intro _ a (conj Hin Hsame)))
      as [b Hb].
    destruct (find_some _ _ Hb) as [Hinb Hpb].
    exists b. eexists. split; [exact Hinb|].
    split; [apply (phone_matches_iff _ _ _ Ht), Hpb|].
    unfold duplicateMatch, bind, ret. rewrite Ht.
    rewrite select_by_phone_run by exact Hf. fold roster. rewrite Hb.
    cbn [limit_1]. split; [reflexivity|]. apply sent_during_app. reflexivity.
  - intros Hno [a [Hin Hsame]].
    apply name_matches_iff in Hsame.
    destruct (find_some_of_exists _ roster (ex_intro _ a (conj Hin Hsame)))
      as [b Hb].
    destruct (find_some _ _ Hb) as [Hinb Hpb].
    apply name_matches_iff in Hpb.
    unfold duplicateMatch, bind, ret.
    destruct (truthy (normalizePhone phone)) eqn:Ht.
    + rewrite select_by_phone_run by exact Hf. fold roster.
      rewrite (Hnone Hno eq_refl). cbn [limit_1].
      rewrite select_by_name_run by exact Hf. cbn [view note txn attendees].
      fold (view client w). fold roster. rewrite Hb. cbn [limit_1].
      exists b. eexists. split; [exact Hinb|]. split; [exact Hpb|].
      split; [reflexivity|].
      erewrite (sent_during_app _ _ [_; _]) by reflexivity. left. reflexivity.
    + rewrite select_by_name_run by exact Hf. fold roster. rewrite Hb.
      cbn [limit_1].
      exists b. eexists. split; [exact Hinb|]. split; [exact Hpb|].
      split; [reflexivity|].
      erewrite (sent_during_app _ _ [_]) by reflexivity. left. reflexivity.
  - intros Hno Hnames.
    assert (Hn : find (name_matches eid (toString (normalizeName name))) roster
                 = None).
    { apply find_none_of_forall. intros a Hin.
      destruct (name_matches _ _ a) eqn:E; [|reflexivity].
      apply name_matches_iff in E. destruct (Hnames a Hin E). }
    unfold duplicateMatch, bind, ret.
    destruct (truthy (normalizePhone phone)) eqn:Ht.
    + rewrite select_by_phone_run by exact Hf. fold roster.
      rewrite (Hnone Hno eq_refl). cbn [limit_1].
      rewrite select_by_name_run by exact Hf. cbn [view note txn attendees].
      fold (view client w). fold roster. rewrite Hn. eauto.
    + rewrite select_by_name_run by exact Hf. fold roster. rewrite Hn. eauto.
Qed.

Lemma duplicateMatch_phone_then_name_witness :
  (exists a w',
      In a (view client sample_world)
      /\ same_phone 1 (JStr "(0812) 345-678") a
      /\ duplicateMatch 1 (JStr "Johnny") (JStr "(0812) 345-678") sample_world
         = (Ok (Some (mkMatch by_phone (att_name a) (phone_number a))), w')
      /\ sent_during sample_world w' = [(SelectByPhone 1 "0812345678", true)])
  /\ (exists a w',
         In a (view client sample_world)
         /\ same_name 1 (JStr "john.doe") a
         /\ duplicateMatch 1 (JStr "john.doe") (JStr "+62 812-345-678") sample_world
            = (Ok (Some (mkMatch by_name (att_name a) (phone_number a))), w')
         /\ In (SelectByName 1 "johndoe", true) (sent_during sample_world w'))
  /\ (exists w',
         duplicateMatch 1 (JStr "Mary") (JStr "0899") sample_world = (Ok None, w')).
Proof.
  assert (Hjohn : In john_doe (view client sample_world)) by (left; reflexivity).
  split; [|split].
  - apply (proj1 (duplicateMatch_phone_then_name 1 (JStr "Johnny")
                    (JStr "(0812) 345-678") sample_world eq_refl)).
    + reflexivity.
    + exists john_doe. split; [exact Hjohn|]. split; [reflexivity|].
      exists "0812345678". split; reflexivity.
  - apply (proj1 (proj2 (duplicateMatch_phone_then_name 1 (JStr "john.doe")
                           (JStr "+62 812-345-678") sample_world eq_refl))).
    + right. intros a [<-|[<-|[<-|[]]]] [Hev [p [Hp Hk]]];
        try discriminate Hev. injection Hp as <-. discriminate Hk.
    + exists john_doe. split; [exact Hjohn|]. split; reflexivity.
  - apply (proj2 (proj2 (duplicateMatch_phone_then_name 1 (JStr "Mary")
                           (JStr "0899") sample_world eq_refl))).
    + right. intros a [<-|[<-|[<-|[]]]] [Hev [p [Hp Hk]]];
        try discriminate Hev. injection Hp as <-. discriminate Hk.
    + intros a [<-|[<-|[<-|[]]]] [Hev Hk];
        try discriminate Hev. discriminate Hk.
Defined.

(* ------------------------------------------------------------------ *)
(** ** Import of rows *)

Lemma begin_run w :
  faults w = [] ->
  begin_ w = (Ok tt, note Begin true (set_txn (Some (attendees w)) w)).
Proof. intros H. unfold begin_. rewrite query_run by exact H. reflexivity. Qed.

Lemma commit_run w t :
  faults w = [] ->
  txn w = Some t ->
  commit w = (Ok tt, note Commit true (set_txn None (set_view pool t w))).
Proof.
  intros H Ht. unfold commit. rewrite query_run by exact H. rewrite Ht.
  reflexivity.
Qed.

(** When the loop ends normally on a store that does not break, the rows
    of the transaction become the roster and the report is sent. *)
Lemma import_transaction_commits eid nk pk ek rows w t w2 rows2 :
  faults w = [] ->
  import_rows eid nk pk ek rows 0 (mkTally 0 0 [])
    (note Begin true (set_txn (Some (attendees w)) w)) = (Ok t, w2) ->
  txn w2 = Some rows2 ->
  faults w2 = [] ->
  exists w',
    import_transaction eid nk pk ek rows w
    = (Ok (mkResponse 200 true (import_message t)
             (import_report (imported t) (skipped t) (duplicates t))), w')
    /\ attendees w' = rows2.
Proof.
  intros Hf Hloop Ht Hf2.
  unfold import_transaction, try_finally, try_catch, release, bind.
  rewrite begin_run by exact Hf. rewrite Hloop.
  rewrite (commit_run _ _ Hf2 Ht).
  rewrite getEventStats_run by exact Hf2.
  unfold emitToEvent, ret. eexists. split; reflexivity.
Qed.

Lemma find_app {A} (p : A -> bool) l x :
  find p (l ++ [x])
  = match find p l with
    | Some y => Some y
    | None => if p x then Some x else None
    end.
Proof.
  induction l as [|y l IH]; simpl; [reflexivity|].
  destruct (p y); [reflexivity|exact IH].
Qed.

(** An attendee with the candidate's name key is always reported. *)
Lemma match_in_same_name roster eid name phone a :
  In a roster -> same_name eid name a ->
  exists m, match_in roster eid name phone = Some m
            /\ (matchedBy m = by_phone
                \/ (matchedBy m = by_name
                    /\ exists b, In b roster /\ same_name eid name b
                                 /\ existingName m = att_name b
                                 /\ existingPhone m = phone_number b)).
Proof.
  intros Hin Hsame. apply name_matches_iff in Hsame.
  destruct (find_some_of_exists _ roster (ex_intro _ a (conj Hin Hsame)))
    as [b Hb].
  unfold match_in.
  destruct (if truthy (normalizePhone phone) then _ else None) as [r|].
  - eexists. split; [reflexivity|]. left. reflexivity.
  - rewrite Hb. eexists. split; [reflexivity|]. right.
    split; [reflexivity|]. exists b.
    destruct (find_some _ _ Hb) as [Hinb Hpb].
    apply name_matches_iff in Hpb. auto.
Qed.

Lemma match_in_by_name roster eid name phone m :
  match_in roster eid name phone = Some m ->
  (truthy (normalizePhone phone) = false
   \/ forall a, In a roster -> ~ same_phone eid phone a) ->
  matchedBy m = by_name.
Proof.
  unfold match_in. intros Hm Hno.
  destruct (truthy (normalizePhone phone)) eqn:Ht.
  - destruct Hno as [Hk|Hno]; [discriminate|].
    rewrite find_none_of_forall in Hm.
    + destruct (find (name_matches _ _) _); [|discriminate].
      injection Hm as <-. reflexivity.
    + intros a Hin. destruct (phone_matches _ _ a) eqn:E; [|reflexivity].
      apply (phone_matches_iff _ _ _ Ht) in E. destruct (Hno a Hin E).
  - destruct (find (name_matches _ _) _); [|discriminate].
    injection Hm as <-. reflexivity.
Qed.

(** One turn of the loop on a row the check reports: nothing is written
    and the candidate is appended to [duplicates]. *)
Lemma import_row_reported eid nk pk ek r w m :
  faults w = [] ->
  truthy (cell r nk) = true ->
  match_in (view client w) eid (cell r nk) (optional_cell r pk) = Some m ->
  exists w1,
    same_tables w w1
    /\ forall rest index acc,
         import_rows eid nk pk ek (r :: rest) index acc w
         = import_rows eid nk pk ek rest (S index)
             (mkTally (imported acc) (skipped acc)
                (duplicates acc ++
                 [mkDuplicate (cell r nk) (optional_cell r pk) (optional_cell r ek)
                    (index + 2) (matchedBy m) (existingName m) (existingPhone m)]))
             w1.
Proof.
  intros Hf Hname Hm.
  destruct (duplicateMatch_run eid (cell r nk) (optional_cell r pk) w Hf)
    as [w1 [Hrun Hsame]].
  exists w1. split; [exact Hsame|]. intros rest index acc.
  cbn [import_rows]. rewrite Hname. cbn [negb]. unfold bind at 1.
  rewrite Hrun, Hm. reflexivity.
Qed.


(** C3, as stated, fails: with John Doe in the roster, the row john.doe is
    not imported; the phones differ, the name check is made all the same
    and finds him. *)
Lemma import_john_doe_is_flagged :
  In john_doe (attendees sample_world)
  /\ fst (importAttendees 1 (sheet [john_row]) sample_world)
     = mkResponse 200 true
         "Import complete. 0 attendees imported, 0 rows skipped, 1 duplicates found."
         (import_report 0 0
            [mkDuplicate (JStr "john.doe") (JStr "+62 812-345-678") JNull 2
               by_name "John Doe" (Some "0812345678")])
  /\ attendees (snd (importAttendees 1 (sheet [john_row]) sample_world))
     = attendees sample_world
  /\ sent_during sample_world
       (snd (importAttendees 1 (sheet [john_row]) sample_world))
     = [(SelectStats 1, true); (Commit, true);
        (SelectByName 1 "johndoe", true); (SelectByPhone 1 "62812345678", true);
        (Begin, true); (SelectEvent 1, true)].
Proof. split; [left; reflexivity|]. repeat split. Qed.

(** C3 (amended).  Given an attendee John Doe with phone 0812345678 in the
    roster of an active event, the import of the row john.doe with phone
    +62 812-345-678 finds no phone match with him (62812345678 against
    0812345678), falls back to the name, which matches (johndoe), and so
    reports the row as a duplicate and does not import it; when no attendee
    of the event has the phone key 62812345678 the match is by name. *)
Theorem import_john_doe_matches_by_name eid w e a :
  faults w = [] ->
  event_of eid w = Some e ->
  is_finished e = false ->
  In a (attendees w) ->
  event_id a = eid ->
  att_name a = "John Doe" ->
  phone_number a = Some "0812345678" ->
  normalizePhone (JStr "+62 812-345-678") = JStr "62812345678"
  /\ normalizePhone (JStr "0812345678") = JStr "0812345678"
  /\ ~ same_phone eid (JStr "+62 812-345-678") a
  /\ same_name eid (JStr "john.doe") a
  /\ exists d w',
       importAttendees eid (sheet [john_row]) w
       = (mkResponse 200 true
            "Import complete. 0 attendees imported, 0 rows skipped, 1 duplicates found."
            (import_report 0 0 [d]), w')
       /\ dup_name d = JStr "john.doe"
       /\ dup_phone d = JStr "+62 812-345-678"
       /\ rowIndex d = 2
       /\ attendees w' = attendees w
       /\ ((forall b, In b (attendees w) ->
                      ~ same_phone eid (JStr "+62 812-345-678") b) ->
           dup_matchedBy d = by_name
           /\ exists b, In b (attendees w)
                        /\ same_name eid (JStr "john.doe") b
                        /\ dup_existingName d = att_name b
                        /\ dup_existingPhone d = phone_number b).
Proof.
  intros Hf He Hfin Hin Hev Hname Hphone.
  assert (Hsame : same_name eid (JStr "john.doe") a).
  { split; [exact Hev|]. rewrite Hname. reflexivity. }
  split; [reflexivity|]. split; [reflexivity|].
  split; [intros [_ [p [Hp Hk]]]; rewrite Hphone in Hp; injection Hp as <-;
          discriminate Hk|].
  split; [exact Hsame|].
  set (w1 := note Begin true
               (set_txn (Some (attendees w)) (note (SelectEvent eid) true w))).
  assert (Hf1 : faults w1 = []) by exact Hf.
  assert (Hcell : cell john_row "Name" = JStr "john.doe") by reflexivity.
  assert (Hpcell : optional_cell john_row (Some "Phone") = JStr "+62 812-345-678")
    by reflexivity.
  destruct (match_in_same_name (view client w1) eid (JStr "john.doe")
              (JStr "+62 812-345-678") a Hin Hsame) as [m [Hm Hhow]].
  destruct (import_row_reported eid "Name" (Some "Phone") None john_row
              w1 m Hf1 eq_refl)
    as [w2 [Hsame2 Hloop]].
  { rewrite Hcell, Hpcell. exact Hm. }
  specialize (Hloop [] 0 (mkTally 0 0 [])).
  cbn [import_rows] in Hloop. unfold ret in Hloop.
  destruct Hsame2 as [_ [_ [Htx2 [_ [Hf2 _]]]]].
  rewrite Hf1 in Hf2.
  destruct (import_transaction_commits eid "Name" (Some "Phone") None
              [john_row] (note (SelectEvent eid) true w) _ w2 (attendees w)
              Hf Hloop Htx2 Hf2) as [w' [Hrun Hrows]].
  eexists. exists w'. split.
  - unfold importAttendees, respond, import_request, bind.
    rewrite select_event_run by exact Hf.
    destruct (find_filter _ _ _ He) as [others ->]. cbn [first_is_finished].
    rewrite Hfin. unfold read_sheet, ret.
    change (findKey john_row nameKeys) with (Some "Name").
    change (findKey john_row phoneKeys) with (Some "Phone").
    change (findKey john_row emailKeys) with (@None string).
    cbn [truthy_key negb key_text String.eqb Ascii.eqb Bool.eqb].
    rewrite Hrun. reflexivity.
  - split; [reflexivity|]. split; [reflexivity|]. split; [reflexivity|].
    split; [exact Hrows|].
    intros Hno. cbn [dup_matchedBy dup_existingName dup_existingPhone].
    assert (Hby : matchedBy m = by_name).
    { apply (match_in_by_name _ _ _ _ _ Hm). right. exact Hno. }
    split; [exact Hby|].
    destruct Hhow as [Hp|[_ Hb]]; [congruence|exact Hb].
Qed.

Lemma import_john_doe_matches_by_name_witness :
  exists d w',
    importAttendees 1 (sheet [john_row]) sample_world
    = (mkResponse 200 true
         "Import complete. 0 attendees imported, 0 rows skipped, 1 duplicates found."
         (import_report 0 0 [d]), w')
    /\ dup_matchedBy d = by_name
    /\ attendees w' = attendees sample_world.
Proof.
  destruct (import_john_doe_matches_by_name 1 sample_world retreat john_doe)
    as [_ [_ [_ [_ [d [w' [Hrun [_ [_ [_ [Hrows Hhow]]]]]]]]]]];
    try reflexivity.
  - left. reflexivity.
  - exists d, w'. split; [exact Hrun|]. split; [|exact Hrows].
    apply Hhow. intros b [<-|[<-|[<-|[]]]] [Hev [p [Hp Hk]]];
      try discriminate Hev. injection Hp as <-. discriminate Hk.
Defined.










(** The same rows through the whole handler: Jane is imported, Bob is
    reported against John Doe, and Jane's second row against her first. *)
Example import_jane_twice :
  fst (importAttendees 1 (sheet [jane_row; bob_row; jane_again]) sample_world)
  = mkResponse 200 true
      "Import complete. 1 attendees imported, 0 rows skipped, 2 duplicates found."
      (import_report 1 0
         [mkDuplicate (JStr "Bob") (JStr "0812-345-678") JNull 3
            by_phone "John Doe" (Some "0812345678");
          mkDuplicate (JStr "Jane") (JStr "0811 111 111") JNull 4
            by_phone "Jane" (Some "0811111111")])
  /\ attendees
       (snd (importAttendees 1 (sheet [jane_row; bob_row; jane_again]) sample_world))
     = [john_doe; mary; martha;
        mkAttendee 4 1 "Jane" (Some "0811111111") None false None
          src_import 14 14].
Proof. split; reflexivity. Qed.

(* ================================================================== *)
(** * What the routes do to the tables *)

Lemma table_steps_trans eid w1 w2 w3 :
  table_steps eid w1 w2 -> table_steps eid w2 w3 -> table_steps eid w1 w3.
Proof.
  induction 1 as [|u1 u2 u3 Hstep _ IH]; [auto|].
  intros H. eapply steps_more; [exact Hstep|apply IH, H].
Qed.

Lemma table_steps_one eid w w' : table_step eid w w' -> table_steps eid w w'.
Proof. intros H. eapply steps_more; [exact H|apply steps_done]. Qed.

(** Logging a statement is no step. *)
Lemma table_step_note eid w w' s ok :
  table_step eid w w' -> table_step eid w (note s ok w').
Proof.
  intros [H|H|t Ht H|H|c rows Hc H];
    [apply step_none|apply step_begin|apply (step_commit _ _ _ t Ht)
    |apply step_rollback|apply (step_write _ _ _ c rows Hc)];
    exact H.
Qed.

Section Moves.

Variable eid : nat.

Lemma moves_ret {A} (a : A) : moves eid (ret a).
Proof. intros w r w' H. injection H as _ <-. apply steps_done. Qed.

Lemma moves_throw {A} e : moves eid (@throw A e).
Proof. intros w r w' H. injection H as _ <-. apply steps_done. Qed.

Lemma moves_bind {A B} (m : M A) (k : A -> M B) :
  moves eid m -> (forall a, moves eid (k a)) -> moves eid (bind m k).
Proof.
  intros Hm Hk w r w'. unfold bind.
  destruct (m w) as [[a|e] w1] eqn:E; intros H.
  - eapply table_steps_trans; [eapply Hm, E|eapply Hk, H].
  - injection H as _ <-. eapply Hm, E.
Qed.

Lemma moves_try_catch {A} (m : M A) (h : error -> M A) :
  moves eid m -> (forall e, moves eid (h e)) -> moves eid (try_catch m h).
Proof.
  intros Hm Hh w r w'. unfold try_catch.
  destruct (m w) as [[a|e] w1] eqn:E; intros H.
  - injection H as _ <-. eapply Hm, E.
  - eapply table_steps_trans; [eapply Hm, E|eapply Hh, H].
Qed.

Lemma moves_try_finally {A} (m : M A) (f : M unit) :
  moves eid m -> moves eid f -> moves eid (try_finally m f).
Proof.
  intros Hm Hf w r w'. unfold try_finally.
  destruct (m w) as [r1 w1] eqn:E. destruct (f w1) as [[[]|e] w2] eqn:E2;
    intros H; injection H as _ <-;
    (eapply table_steps_trans; [eapply Hm, E|eapply Hf, E2]).
Qed.

Lemma moves_query {A} s (sem : world -> error + A * world) :
  (forall w a w1, sem w = inr (a, w1) -> table_step eid w w1) ->
  moves eid (query s sem).
Proof.
  intros Hsem w r w' H. apply table_steps_one.
  destruct (query_cases s sem w)
    as [[_ E]|[[_ [e [_ E]]]|[_ [a [w1 [Hs E]]]]]];
    rewrite E in H; injection H as _ <-.
  - apply step_none. reflexivity.
  - apply step_none. reflexivity.
  - apply table_step_note. eapply Hsem, Hs.
Qed.

Lemma moves_read {A} s (f : world -> A) :
  moves eid (query s (fun w => inr (f w, w))).
Proof.
  apply moves_query. intros w a w1 H. injection H as _ <-.
  apply step_none. reflexivity.
Qed.

Lemma moves_emitToEvent room event p : moves eid (emitToEvent room event p).
Proof.
  intros w r w' H. unfold emitToEvent in H. injection H as _ <-.
  apply table_steps_one, step_none. reflexivity.
Qed.

Lemma moves_begin : moves eid begin_.
Proof.
  apply moves_query. intros w a w1 H. injection H as _ <-.
  apply step_begin. reflexivity.
Qed.

Lemma moves_commit : moves eid commit.
Proof.
  apply moves_query. intros w a w1 H.
  destruct (txn w) as [t|] eqn:Et; injection H as _ <-.
  - apply (step_commit _ _ _ t Et). reflexivity.
  - apply step_none. reflexivity.
Qed.

Lemma moves_rollback : moves eid rollback.
Proof.
  apply moves_query. intros w a w1 H. injection H as _ <-.
  apply step_rollback. reflexivity.
Qed.

Lemma moves_insert c name phone mail src :
  moves eid (insert_attendee c eid name phone mail src).
Proof.
  apply moves_query. intros w a w1 H.
  destruct (_ || _) in H; [discriminate|].
  destruct (negb _) in H; [discriminate|].
  injection H as _ <-.
  eapply (step_write _ _ _ c); [apply rows_inserted|].
  unfold tables, set_view, next_id. cbn. destruct c; destruct (txn w); reflexivity.
Qed.

Lemma moves_update_check_in aid : moves eid (update_check_in aid eid).
Proof.
  apply moves_query. intros w a w1 H. injection H as _ <-.
  eapply (step_write _ _ _ pool); [apply rows_checked_in|reflexivity].
Qed.

Lemma moves_update_undo_check_in aid : moves eid (update_undo_check_in aid eid).
Proof.
  apply moves_query. intros w a w1 H. injection H as _ <-.
  eapply (step_write _ _ _ pool); [apply rows_unchecked|reflexivity].
Qed.

Lemma moves_delete_attendee aid : moves eid (delete_attendee aid eid).
Proof.
  apply moves_query. intros w a w1 H. injection H as _ <-.
  eapply (step_write _ _ _ pool); [apply rows_deleted|reflexivity].
Qed.

Lemma moves_delete_attendees : moves eid (delete_attendees eid).
Proof.
  apply moves_query. intros w a w1 H. injection H as _ <-.
  eapply (step_write _ _ _ pool); [apply rows_cleared|reflexivity].
Qed.

Lemma moves_respond (m : M response) on_error :
  moves eid m -> handler_moves eid (respond m on_error).
Proof.
  intros Hm w r w'. unfold respond.
  destruct (m w) as [[resp|e] w1] eqn:E; intros H; injection H as _ <-;
    eapply Hm, E.
Qed.

End Moves.

Ltac moves_step :=
  first
    [ apply moves_ret | apply moves_throw | apply moves_emitToEvent
    | apply moves_begin | apply moves_commit | apply moves_rollback
    | apply moves_insert | apply moves_update_check_in
    | apply moves_update_undo_check_in | apply moves_delete_attendee
    | apply moves_delete_attendees | apply moves_read
    | apply moves_bind; [|intros ?]
    | apply moves_try_catch; [|intros ?]
    | apply moves_try_finally
    | match goal with
      | |- moves _ (if ?b then _ else _) => destruct b
      | |- moves _ (match ?x with _ => _ end) => destruct x
      end ].

Ltac moves_all := repeat moves_step.

Lemma moves_duplicateMatch eid name phone : moves eid (duplicateMatch eid name phone).
Proof. unfold duplicateMatch, select_by_phone, select_by_name. moves_all. Qed.

Lemma moves_import_rows eid nk pk ek rows :
  forall index acc, moves eid (import_rows eid nk pk ek rows index acc).
Proof.
  induction rows as [|r rows IH]; intros index acc; cbn [import_rows].
  - apply moves_ret.
  - destruct (negb _); [apply IH|].
    apply moves_bind; [apply moves_duplicateMatch|].
    intros [m|]; [apply IH|].
    apply moves_bind; [apply moves_insert|]. intros _. apply IH.
Qed.

Lemma moves_confirm_rows eid dups :
  forall count, moves eid (confirm_rows eid dups count).
Proof.
  induction dups as [|d dups IH]; intros count; cbn [confirm_rows].
  - apply moves_ret.
  - destruct (negb _); [apply IH|].
    apply moves_bind; [apply moves_insert|]. intros _. apply IH.
Qed.

(** Whatever the routes are sent and however the store fails, they change
    the tables by [table_step]s for their event only. *)
Lemma routes_move eid :
  (forall name phone mail, handler_moves eid (addAttendee eid name phone mail))
  /\ (forall file, handler_moves eid (importAttendees eid file))
  /\ (forall chosen, handler_moves eid (confirmDuplicateImport eid chosen))
  /\ (forall aid, handler_moves eid (checkIn eid aid))
  /\ (forall aid, handler_moves eid (undoCheckIn eid aid))
  /\ (forall aid, handler_moves eid (deleteAttendee eid aid))
  /\ handler_moves eid (clearAttendees eid).
Proof.
  assert (Hstay : forall (resp : response) w r w',
             (resp, w) = (r, w') -> table_steps eid w w').
  { intros resp w r w' H. injection H as _ <-. apply steps_done. }
  repeat split.
  - intros name phone mail. unfold addAttendee.
    destruct (negb _); [intros w r w'; apply Hstay|].
    apply moves_respond. unfold select_event, getEventStats. moves_all.
  - intros file. unfold importAttendees.
    destruct file; [intros w r w'; apply Hstay| |];
      apply moves_respond; unfold import_request, select_event, read_sheet,
      import_transaction, getEventStats, release; moves_all;
      apply moves_import_rows.
  - intros chosen. unfold confirmDuplicateImport.
    destruct chosen; [|intros w r w'; apply Hstay].
    apply moves_respond. unfold select_event, getEventStats, release. moves_all.
    apply moves_confirm_rows.
  - intros aid. unfold checkIn. apply moves_respond.
    unfold select_event, select_attendee, getEventStats. moves_all.
  - intros aid. unfold undoCheckIn. apply moves_respond.
    unfold getEventStats. moves_all.
  - intros aid. unfold deleteAttendee. apply moves_respond.
    unfold select_event, getEventStats. moves_all.
  - unfold clearAttendees. apply moves_respond. moves_all.
Qed.

Lemma serve_moves eid q : handler_moves eid (serve eid q).
Proof.
  destruct (routes_move eid) as [H1 [H2 [H3 [H4 [H5 [H6 H7]]]]]].
  destruct q; simpl; auto.
Qed.

Lemma table_step_events eid w w' : table_step eid w w' -> events w' = events w.
Proof.
  intros [H|H|t Ht H|H|c rows Hc H]; unfold tables in H;
    try (injection H as He _ _; exact He).
  unfold set_view in H. destruct c; destruct (txn w);
    injection H as He _ _; exact He.
Qed.

(** A property of the rows that the five writes keep is kept by every
    step, for the committed rows and for those of the open transaction. *)
Lemma table_step_on_rows eid (Q : list attendee_row -> Prop) :
  (forall old new, Q old -> row_change eid old new -> Q new) ->
  forall w w', table_step eid w w' -> on_rows Q w -> on_rows Q w'.
Proof.
  intros HQ w w' Hstep [Ha Ht]. unfold on_rows.
  destruct Hstep as [H|H|t Htx H|H|c rows Hc H]; unfold tables in H.
  - injection H as _ -> ->. auto.
  - injection H as _ -> ->. split; [exact Ha|]. intros t E.
    injection E as <-. exact Ha.
  - injection H as _ -> ->. split; [apply Ht, Htx|discriminate].
  - injection H as _ -> ->. split; [exact Ha|discriminate].
  - unfold set_view, view in *. destruct c.
    + injection H as _ -> ->. split; [eapply HQ; eassumption|exact Ht].
    + destruct (txn w) as [t|] eqn:Etx.
      * injection H as _ -> ->. split; [exact Ha|].
        intros t' E. injection E as <-. eapply HQ; [apply Ht; reflexivity|exact Hc].
      * injection H as _ -> ->. split; [eapply HQ; eassumption|discriminate].
Qed.

Lemma table_steps_on_rows eid (Q : list attendee_row -> Prop) :
  (forall old new, Q old -> row_change eid old new -> Q new) ->
  forall w w', table_steps eid w w' -> on_rows Q w -> on_rows Q w'.
Proof.
  intros HQ w w' Hsteps. induction Hsteps as [|w1 w2 w3 Hstep _ IH]; [auto|].
  intros H. apply IH. eapply table_step_on_rows; eassumption.
Qed.

Lemma serve_on_rows eid q (Q : list attendee_row -> Prop) w :
  (forall old new, Q old -> row_change eid old new -> Q new) ->
  on_rows Q w -> on_rows Q (snd (serve eid q w)).
Proof.
  intros HQ H. eapply table_steps_on_rows; [exact HQ| |exact H].
  eapply serve_moves. apply surjective_pairing.
Qed.

Lemma Forall_update_where (P : attendee_row -> Prop) p f rows :
  (forall a, P a -> P (f a)) ->
  Forall P rows -> Forall P (update_where p f rows).
Proof.
  intros Hf H. unfold update_where. induction H as [|a l Ha _ IH]; simpl.
  - constructor.
  - constructor; [destruct (p a); auto|exact IH].
Qed.

Lemma Forall_filter (P : attendee_row -> Prop) p rows :
  Forall P rows -> Forall P (filter p rows).
Proof.
  intros H. induction H as [|a l Ha _ IH]; simpl; [constructor|].
  destruct (p a); [constructor|]; assumption.
Qed.

(** A property of single rows that holds of a pending row and that the two
    updates keep is kept by the five writes. *)
Lemma row_change_Forall eid (P : attendee_row -> Prop) :
  (forall id name phone mail src stamp,
      P (mkAttendee id eid name phone mail false None src stamp stamp)) ->
  (forall now a, P a -> P (set_checked_in now a)) ->
  (forall now a, P a -> P (set_unchecked now a)) ->
  forall old new, Forall P old -> row_change eid old new -> Forall P new.
Proof.
  intros Hnew Hin Hout old new Hold Hc. destruct Hc.
  - apply Forall_app. split; [exact Hold|]. constructor; [apply Hnew|constructor].
  - apply Forall_update_where; [apply Hin|exact Hold].
  - apply Forall_update_where; [apply Hout|exact Hold].
  - apply Forall_filter, Hold.
  - apply Forall_filter, Hold.
Qed.

(* ------------------------------------------------------------------ *)
(** ** Invariants of the roster *)

(** X1.  Whatever requests are served for whatever events, and however the
    store fails meanwhile, a roster in which every attendee has a check-in
    timestamp exactly when checked in stays so (committed rows and rows of
    an open transaction alike). *)
Theorem timestamps_follow_check_in requests w :
  on_rows (Forall timestamp_agrees) w ->
  on_rows (Forall timestamp_agrees) (serve_all requests w).
Proof.
  revert w. induction requests as [|[eid q] rest IH]; intros w H; [exact H|].
  cbn [serve_all]. apply IH. apply serve_on_rows; [|exact H].
  apply row_change_Forall; unfold timestamp_agrees.
  - intros. simpl. split; [discriminate|]. intros E. destruct E. reflexivity.
  - intros now a _. simpl. split; [discriminate|reflexivity].
  - intros now a _. simpl. split; [discriminate|]. intros E. destruct E. reflexivity.
Qed.

Lemma timestamps_follow_check_in_witness :
  on_rows (Forall timestamp_agrees)
    (serve_all [(1, patch_checkin 1); (2, patch_undo_checkin 2);
                (1, post_import (sheet [jane_row; jane_again]))]
       sample_world).
Proof.
  apply timestamps_follow_check_in. split; [|discriminate].
  repeat constructor; try discriminate; intros E; try discriminate E;
    destruct E; reflexivity.
Defined.

(** X2.  The attendee routes never write the events table: after any
    requests, with any failures of the store, it is what it was. *)
Theorem routes_never_write_events requests w :
  events (serve_all requests w) = events w.
Proof.
  revert w. induction requests as [|[eid q] rest IH]; intros w; [reflexivity|].
  cbn [serve_all]. rewrite IH.
  assert (H : table_steps eid w (snd (serve eid q w)))
    by (eapply serve_moves; apply surjective_pairing).
  induction H as [|w1 w2 w3 Hstep _ IHs]; [reflexivity|].
  rewrite IHs. eapply table_step_events, Hstep.
Qed.

Lemma others_app eid old new :
  others eid (old ++ new) = others eid old ++ others eid new.
Proof. apply filter_app. Qed.

Lemma others_update eid aid f old :
  (forall a, event_id (f a) = event_id a) ->
  others eid (update_where (is_attendee aid eid) f old) = others eid old.
Proof.
  intros Hf. unfold others, update_where.
  induction old as [|a old IH]; simpl; [reflexivity|].
  destruct (is_attendee aid eid a) eqn:E.
  - unfold is_attendee in E. apply andb_true_iff in E. destruct E as [_ E].
    assert (E1 : in_event eid a = true) by exact E.
    assert (E2 : in_event eid (f a) = true)
      by (unfold in_event; rewrite Hf; exact E).
    rewrite E1, E2. simpl. exact IH.
  - rewrite IH. reflexivity.
Qed.

Lemma others_delete eid aid old :
  others eid (filter (fun a => negb (is_attendee aid eid a)) old) = others eid old.
Proof.
  unfold others. induction old as [|a old IH]; simpl; [reflexivity|].
  destruct (is_attendee aid eid a) eqn:E; simpl.
  - unfold is_attendee in E. apply andb_true_iff in E. destruct E as [_ E].
    assert (E1 : in_event eid a = true) by exact E.
    rewrite E1. simpl. exact IH.
  - rewrite IH. reflexivity.
Qed.

Lemma others_others eid old : others eid (others eid old) = others eid old.
Proof.
  unfold others. induction old as [|a old IH]; simpl; [reflexivity|].
  destruct (negb (in_event eid a)) eqn:E; simpl; [rewrite E, IH|]; auto.
Qed.

Lemma row_change_others eid old new :
  row_change eid old new -> others eid new = others eid old.
Proof.
  intros [id name phone mail src stamp|aid now|aid now|aid|].
  - rewrite others_app. unfold others at 2. simpl. unfold in_event. simpl.
    rewrite Nat.eqb_refl. simpl. apply app_nil_r.
  - apply others_update. reflexivity.
  - apply others_update. reflexivity.
  - apply others_delete.
  - apply others_others.
Qed.

Lemma serve_all_on_rows eid qs (Q : list attendee_row -> Prop) :
  (forall old new, Q old -> row_change eid old new -> Q new) ->
  forall w, on_rows Q w -> on_rows Q (serve_all (map (pair eid) qs) w).
Proof.
  intros HQ. induction qs as [|q qs IH]; intros w H; [exact H|].
  cbn [map serve_all]. apply IH, serve_on_rows; assumption.
Qed.

(** X3.  Requests for one event, however many and however the store
    fails, leave the attendees of every other event exactly as they were
    (no transaction being open at the start). *)
Theorem other_events_untouched eid qs w :
  txn w = None ->
  others eid (attendees (serve_all (map (pair eid) qs) w))
  = others eid (attendees w).
Proof.
  intros Ht.
  apply (serve_all_on_rows eid qs
           (fun rows => others eid rows = others eid (attendees w))).
  - intros old new Hold Hc. rewrite (row_change_others _ _ _ Hc). exact Hold.
  - split; [reflexivity|]. rewrite Ht. discriminate.
Qed.

Lemma other_events_untouched_witness :
  others 2
    (attendees
       (serve_all (map (pair 2) [delete_all; post_attendee (JStr "Luke") JNull JNull;
                                 patch_undo_checkin 2])
          sample_world))
  = [john_doe].
Proof.
  rewrite other_events_untouched; reflexivity.
Defined.



(* ------------------------------------------------------------------ *)
(** ** Refusals *)

Lemma filter_none_negb {A} (p : A -> bool) l :
  filter p l = [] -> filter (fun a => negb (p a)) l = l.
Proof.
  induction l as [|a l IH]; simpl; [reflexivity|].
  destruct (p a); [discriminate|]. intros H. simpl. rewrite (IH H). reflexivity.
Qed.

Lemma update_none_matched aid eid f l :
  (forall a, is_attendee aid eid (f a) = is_attendee aid eid a) ->
  filter (is_attendee aid eid) (update_where (is_attendee aid eid) f l) = [] ->
  update_where (is_attendee aid eid) f l = l.
Proof.
  intros Hf. unfold update_where.
  induction l as [|a l IH]; simpl; [reflexivity|].
  destruct (is_attendee aid eid a) eqn:E.
  - rewrite Hf, E. discriminate.
  - rewrite E. intros H. rewrite (IH H). reflexivity.
Qed.

Lemma import_transaction_ok_status eid nk pk ek rows w resp w' :
  import_transaction eid nk pk ek rows w = (Ok resp, w') -> status resp = 200.
Proof.
  unfold import_transaction, try_finally, try_catch, release, ret, bind,
    emitToEvent, throw.
  destruct (begin_ w) as [[[]|e] w1].
  - destruct (import_rows _ _ _ _ _ _ _ w1) as [[t|e] w2].
    + destruct (commit w2) as [[[]|e] w3].
      * destruct (getEventStats eid w3) as [[st|e] w4].
        -- intros H. injection H as <- _. reflexivity.
        -- destruct (rollback w4) as [[[]|e'] w5]; discriminate.
      * destruct (rollback w3) as [[[]|e'] w4]; discriminate.
    + destruct (rollback w2) as [[[]|e'] w3]; discriminate.
  - destruct (rollback w1) as [[[]|e'] w2]; discriminate.
Qed.

Ltac not_client_error :=
  match goal with
  | H : client_error _ |- _ =>
      unfold client_error in H; simpl in H; exfalso; lia
  end.

Ltac read_step E :=
  first [ apply select_event_kept in E | apply getEventStats_kept in E
        | apply read_kept in E ];
  destruct E as [? _ _ _ _].

Ltac leaf :=
  cbn [fst snd]; intros ?; first [assumption | congruence | not_client_error].

(** X5.  Whatever the store does, a request answered in the 4xx class
    (validation, Forbidden, Not Found, Conflict, unusable file) has left
    the committed roster as it was. *)
Theorem client_errors_change_nothing eid q w :
  client_error (fst (serve eid q w)) ->
  attendees (snd (serve eid q w)) = attendees w.
Proof.
  destruct q as [name phone mail|file|chosen|aid|aid|aid|]; cbn [serve].
  - unfold addAttendee. destruct (negb (truthy name)); [reflexivity|].
    unfold respond, bind, ret, emitToEvent.
    destruct (select_event eid w) as [[evs|e] w1] eqn:E1; read_step E1;
      [|leaf].
    destruct (first_is_finished evs); [leaf|].
    destruct (insert_attendee _ _ _ _ _ _ w1) as [[row|e] w2]; [|leaf].
    destruct (getEventStats eid w2) as [[st|e] w3]; leaf.
  - unfold importAttendees. destruct file as [| |rows]; [reflexivity| |];
      unfold respond, import_request, read_sheet, bind, ret, throw;
      (destruct (select_event eid w) as [[evs|e] w1] eqn:E1; read_step E1;
       [|leaf]);
      (destruct (first_is_finished evs); [leaf|]);
      [leaf|].
    destruct rows as [|firstRow rows]; [leaf|].
    destruct (negb (truthy_key (findKey firstRow nameKeys))); [leaf|].
    destruct (import_transaction _ _ _ _ _ w1) as [[resp|e] w2] eqn:E2;
      [|leaf].
    apply import_transaction_ok_status in E2.
    cbn [fst snd]. unfold client_error. intros H. exfalso. lia.
  - unfold confirmDuplicateImport. destruct chosen as [dups|]; [|reflexivity].
    unfold respond, bind, ret, try_finally, try_catch, release, throw, emitToEvent.
    destruct (select_event eid w) as [[evs|e] w1] eqn:E1; read_step E1;
      [|leaf].
    destruct (first_is_finished evs); [leaf|].
    destruct (begin_ w1) as [[[]|e] w2].
    + destruct (confirm_rows eid dups 0 w2) as [[n|e] w3].
      * destruct (commit w3) as [[[]|e] w4].
        -- destruct (getEventStats eid w4) as [[st|e] w5]; [leaf|].
           destruct (rollback w5) as [[[]|e'] w6]; leaf.
        -- destruct (rollback w4) as [[[]|e'] w5]; leaf.
      * destruct (rollback w3) as [[[]|e'] w4]; leaf.
    + destruct (rollback w2) as [[[]|e'] w3]; leaf.
  - unfold checkIn, respond, bind, ret, throw, emitToEvent.
    destruct (select_event eid w) as [[evs|e] w1] eqn:E1; read_step E1;
      [|leaf].
    destruct evs as [|e evs]; [leaf|].
    destruct (is_finished e); [leaf|].
    destruct (select_attendee aid eid w1) as [[current|e'] w2] eqn:E2;
      unfold select_attendee in E2; read_step E2; [|leaf].
    destruct current as [|attendee current]; [leaf|].
    destruct (checked_in attendee); [leaf|].
    destruct (update_check_in aid eid w2) as [[updated|e'] w3]; [|leaf].
    destruct (getEventStats eid w3) as [[st|e'] w4]; [|leaf].
    destruct updated; leaf.
  - unfold undoCheckIn, respond, bind, ret, emitToEvent, update_undo_check_in.
    match goal with |- context [query ?s ?sem w] =>
      destruct (query_cases s sem w)
        as [[_ E]|[[_ [e [Hs _]]]|[_ [a [w1 [Hs E]]]]]]
    end; [rewrite E; leaf|discriminate Hs|].
    rewrite E. injection Hs as <- <-.
    destruct (filter _ _) as [|r rest] eqn:Ef.
    + cbn [fst snd attendees note set_view view txn]. intros _.
      apply update_none_matched in Ef; [exact Ef|]. intros a. reflexivity.
    + destruct (getEventStats eid _) as [[st|e'] w3]; leaf.
  - unfold deleteAttendee, respond, bind, ret, emitToEvent.
    destruct (select_event eid w) as [[evs|e] w1] eqn:E1; read_step E1;
      [|leaf].
    destruct (first_is_finished evs); [leaf|].
    unfold delete_attendee.
    match goal with |- context [query ?s ?sem w1] =>
      destruct (query_cases s sem w1)
        as [[_ E]|[[_ [e [Hs _]]]|[_ [a [w2 [Hs E]]]]]]
    end; [rewrite E; leaf|discriminate Hs|].
    rewrite E. injection Hs as <- <-.
    destruct (filter _ _) as [|r rest] eqn:Ef.
    + cbn [fst snd attendees note set_view view txn]. intros _.
      rewrite (filter_none_negb _ _ Ef). assumption.
    + destruct (getEventStats eid _) as [[st|e'] w3]; leaf.
  - unfold clearAttendees, respond, bind, ret, emitToEvent.
    destruct (delete_attendees eid w) as [[[]|e] w1]; leaf.
Qed.

Lemma client_errors_change_nothing_witness :
  status (fst (serve 2 (patch_checkin 3) sample_world)) = 403
  /\ status (fst (serve 1 (delete_one 3) sample_world)) = 404
  /\ attendees (snd (serve 2 (patch_checkin 3) sample_world))
     = attendees sample_world
  /\ attendees (snd (serve 1 (delete_one 3) sample_world))
     = attendees sample_world.
Proof.
  split; [reflexivity|]. split; [reflexivity|].
  split; apply client_errors_change_nothing; vm_compute; lia.
Defined.

(* ------------------------------------------------------------------ *)
(** ** One attendee at a time *)

(** With [id] a key, the row of an attendee splits the table in rows that
    are not that attendee. *)
Lemma key_split aid eid a rows :
  NoDup (map att_id rows) ->
  In a rows ->
  att_id a = aid ->
  exists l1 l2,
    rows = l1 ++ a :: l2
    /\ forall b, In b (l1 ++ l2) -> is_attendee aid eid b = false.
Proof.
  intros Hnd Hin Ha. destruct (in_split _ _ Hin) as [l1 [l2 ->]].
  exists l1, l2. split; [reflexivity|]. intros b Hb.
  rewrite map_app in Hnd. simpl in Hnd. apply NoDup_remove_2 in Hnd.
  unfold is_attendee. destruct (att_id b =? aid) eqn:E; [|reflexivity].
  apply Nat.eqb_eq in E. exfalso. apply Hnd.
  rewrite <- map_app, Ha, <- E. apply in_map, Hb.
Qed.

Lemma update_where_none p f rows :
  (forall b, In b rows -> p b = false) -> update_where p f rows = rows.
Proof.
  unfold update_where. induction rows as [|b rows IH]; simpl; [reflexivity|].
  intros H. rewrite (H b (or_introl eq_refl)), IH; [reflexivity|].
  intros c Hc. apply H. right. exact Hc.
Qed.

Lemma filter_none {A} (p : A -> bool) rows :
  (forall b, In b rows -> p b = false) -> filter p rows = [].
Proof.
  induction rows as [|b rows IH]; simpl; [reflexivity|].
  intros H. rewrite (H b (or_introl eq_refl)). apply IH.
  intros c Hc. apply H. right. exact Hc.
Qed.

Lemma filter_all {A} (p : A -> bool) rows :
  (forall b, In b rows -> p b = true) -> filter p rows = rows.
Proof.
  induction rows as [|b rows IH]; simpl; [reflexivity|].
  intros H. rewrite (H b (or_introl eq_refl)), IH; [reflexivity|].
  intros c Hc. apply H. right. exact Hc.
Qed.

Section OneRow.

Variables (aid eid : nat) (a : attendee_row) (l1 l2 : list attendee_row).
Hypothesis is_a : is_attendee aid eid a = true.
Hypothesis not_a : forall b, In b (l1 ++ l2) -> is_attendee aid eid b = false.

Lemma not_a_left b : In b l1 -> is_attendee aid eid b = false.
Proof. intros H. apply not_a, in_or_app. left. exact H. Qed.

Lemma not_a_right b : In b l2 -> is_attendee aid eid b = false.
Proof. intros H. apply not_a, in_or_app. right. exact H. Qed.

Lemma update_one f :
  update_where (is_attendee aid eid) f (l1 ++ a :: l2) = l1 ++ f a :: l2.
Proof.
  unfold update_where. rewrite map_app. simpl. rewrite is_a.
  fold (update_where (is_attendee aid eid) f l1).
  fold (update_where (is_attendee aid eid) f l2).
  rewrite !update_where_none; auto using not_a_left, not_a_right.
Qed.

Lemma select_one : filter (is_attendee aid eid) (l1 ++ a :: l2) = [a].
Proof.
  rewrite filter_app. simpl. rewrite is_a.
  rewrite !filter_none; auto using not_a_left, not_a_right.
Qed.

Lemma delete_one_row :
  filter (fun b => negb (is_attendee aid eid b)) (l1 ++ a :: l2) = l1 ++ l2.
Proof.
  rewrite filter_app. simpl. rewrite is_a. simpl.
  rewrite !filter_all; [reflexivity| |]; intros b Hb;
    [rewrite not_a_right|rewrite not_a_left]; auto.
Qed.

End OneRow.

Lemma count_stats_app eid l1 l2 :
  count_stats eid (l1 ++ l2)
  = mkStats (total_attendees (count_stats eid l1) + total_attendees (count_stats eid l2))
      (checked_in_count (count_stats eid l1) + checked_in_count (count_stats eid l2)).
Proof. unfold count_stats. simpl. rewrite !filter_app, !length_app. reflexivity. Qed.

Lemma count_stats_cons eid b l :
  count_stats eid (b :: l)
  = mkStats
      ((if in_event eid b then 1 else 0) + total_attendees (count_stats eid l))
      ((if in_event eid b && checked_in b then 1 else 0)
       + checked_in_count (count_stats eid l)).
Proof.
  unfold count_stats. simpl.
  destruct (in_event eid b); destruct (checked_in b); reflexivity.
Qed.

Lemma is_attendee_of a : is_attendee (att_id a) (event_id a) a = true.
Proof. unfold is_attendee. rewrite !Nat.eqb_refl. reflexivity. Qed.

Lemma checkIn_run w e a l1 l2 :
  faults w = [] ->
  event_of (event_id a) w = Some e ->
  is_finished e = false ->
  attendees w = l1 ++ a :: l2 ->
  (forall b, In b (l1 ++ l2) -> is_attendee (att_id a) (event_id a) b = false) ->
  checked_in a = false ->
  exists w',
    checkIn (event_id a) (att_id a) w
    = (mkResponse 200 true (att_name a ++ " checked in successfully!")
         (attendee_data (set_checked_in (S (S (clock w))) a)), w')
    /\ attendees w' = l1 ++ set_checked_in (S (S (clock w))) a :: l2
    /\ emitted w'
       = emitted w ++ [mkEmission (event_id a) "attendee:checked_in"
                         (with_attendee (set_checked_in (S (S (clock w))) a)
                            (count_stats (event_id a) (attendees w')))]
    /\ faults w' = []
    /\ clock w' = clock w + 4.
Proof.
  intros Hf He Hfin Hrows Hnot Hpending.
  pose proof (is_attendee_of a) as Ha.
  unfold checkIn, respond, bind. rewrite select_event_run by exact Hf.
  destruct (find_filter _ _ _ He) as [rest ->]. rewrite Hfin.
  unfold select_attendee. rewrite query_run by exact Hf.
  cbn [view note txn attendees]. rewrite Hrows.
  rewrite (select_one _ _ _ _ _ Ha Hnot). rewrite Hpending.
  unfold update_check_in. rewrite query_run by exact Hf.
  cbn [view note txn attendees clock]. rewrite Hrows.
  rewrite (update_one _ _ _ _ _ Ha Hnot).
  assert (Ha' : is_attendee (att_id a) (event_id a)
                  (set_checked_in (S (S (clock w))) a) = true)
    by exact Ha.
  rewrite (select_one _ _ _ _ _ Ha' Hnot).
  rewrite getEventStats_run by exact Hf.
  unfold emitToEvent, ret. eexists. split; [reflexivity|].
  split; [reflexivity|]. split; [reflexivity|].
  split; [exact Hf|]. cbn [clock note set_view view txn]. lia.
Qed.

Lemma undoCheckIn_run w a l1 l2 :
  faults w = [] ->
  attendees w = l1 ++ a :: l2 ->
  (forall b, In b (l1 ++ l2) -> is_attendee (att_id a) (event_id a) b = false) ->
  exists w',
    undoCheckIn (event_id a) (att_id a) w
    = (mkResponse 200 true "Check-in undone"
         (attendee_data (set_unchecked (clock w) a)), w')
    /\ attendees w' = l1 ++ set_unchecked (clock w) a :: l2
    /\ emitted w'
       = emitted w ++ [mkEmission (event_id a) "attendee:unchecked"
                         (with_attendee (set_unchecked (clock w) a)
                            (count_stats (event_id a) (attendees w')))]
    /\ faults w' = [].
Proof.
  intros Hf Hrows Hnot.
  pose proof (is_attendee_of a) as Ha.
  unfold undoCheckIn, respond, bind, update_undo_check_in.
  rewrite query_run by exact Hf. cbn [view]. rewrite Hrows.
  rewrite (update_one _ _ _ _ _ Ha Hnot).
  assert (Ha' : is_attendee (att_id a) (event_id a)
                  (set_unchecked (clock w) a) = true)
    by exact Ha.
  rewrite (select_one _ _ _ _ _ Ha' Hnot).
  rewrite getEventStats_run by exact Hf.
  unfold emitToEvent, ret. eexists. repeat split; try reflexivity. exact Hf.
Qed.

Lemma count_stats_checked eid now a l1 l2 :
  event_id a = eid ->
  checked_in a = false ->
  count_stats eid (l1 ++ set_checked_in now a :: l2)
  = mkStats (total_attendees (count_stats eid (l1 ++ a :: l2)))
      (S (checked_in_count (count_stats eid (l1 ++ a :: l2)))).
Proof.
  intros Hev Hpending.
  assert (Hin : in_event eid a = true) by (unfold in_event; rewrite Hev; apply Nat.eqb_refl).
  rewrite !count_stats_app, !count_stats_cons.
  change (in_event eid (set_checked_in now a)) with (in_event eid a).
  change (checked_in (set_checked_in now a)) with true.
  rewrite Hin, Hpending. cbn [total_attendees checked_in_count andb].
  f_equal. lia.
Qed.

(** X6.  On an active event and a store that answers, checking in a
    pending attendee ([id] being a key) answers 200 with the updated row,
    sets its flag and stamps it with the time of the update, leaves every
    other row and the order of the table alone, raises the checked-in
    count of the event by one, and broadcasts the row with the new
    statistics. *)
Theorem checkIn_marks_one_attendee w e a :
  faults w = [] ->
  event_of (event_id a) w = Some e ->
  is_finished e = false ->
  NoDup (map att_id (attendees w)) ->
  In a (attendees w) ->
  checked_in a = false ->
  let eid := event_id a in
  let checked := set_checked_in (S (S (clock w))) a in
  exists l1 l2 w',
    attendees w = l1 ++ a :: l2
    /\ checkIn eid (att_id a) w
       = (mkResponse 200 true (att_name a ++ " checked in successfully!")
            (attendee_data checked), w')
    /\ attendees w' = l1 ++ checked :: l2
    /\ count_stats eid (attendees w')
       = mkStats (total_attendees (count_stats eid (attendees w)))
           (S (checked_in_count (count_stats eid (attendees w))))
    /\ emitted w'
       = emitted w ++ [mkEmission eid "attendee:checked_in"
                         (with_attendee checked (count_stats eid (attendees w')))].
Proof.
  intros Hf He Hfin Hnd Hin Hpending eid checked. subst eid checked.
  destruct (key_split (att_id a) (event_id a) a _ Hnd Hin eq_refl)
    as [l1 [l2 [Hrows Hnot]]].
  destruct (checkIn_run w e a l1 l2 Hf He Hfin Hrows Hnot Hpending)
    as [w' [Hrun [Hafter [Hemit _]]]].
  exists l1, l2, w'. split; [exact Hrows|]. split; [exact Hrun|].
  split; [exact Hafter|]. split; [|exact Hemit].
  rewrite Hafter, Hrows. apply count_stats_checked; auto.
Qed.

Lemma checkIn_marks_one_attendee_witness :
  exists w',
    checkIn 1 1 sample_world
    = (mkResponse 200 true "John Doe checked in successfully!"
         (attendee_data (set_checked_in 12 john_doe)), w')
    /\ count_stats 1 (attendees w') = mkStats 1 1.
Proof.
  destruct (checkIn_marks_one_attendee sample_world retreat john_doe)
    as [l1 [l2 [w' [_ [Hrun [_ [Hstats _]]]]]]]; try reflexivity.
  - repeat constructor; simpl; intuition discriminate.
  - left. reflexivity.
  - exists w'. split; [exact Hrun|exact Hstats].
Defined.

(** X7.  On a store that answers, [undoCheckIn] of an existing attendee
    answers 200 whatever the state of the event and of the attendee: the
    row is set to pending with no timestamp (for a pending attendee only
    [updated_at] moves), the other rows stay, and the row is broadcast. *)
Theorem undoCheckIn_resets_one_attendee w a :
  faults w = [] ->
  NoDup (map att_id (attendees w)) ->
  In a (attendees w) ->
  let eid := event_id a in
  let pending := set_unchecked (clock w) a in
  exists l1 l2 w',
    attendees w = l1 ++ a :: l2
    /\ undoCheckIn eid (att_id a) w
       = (mkResponse 200 true "Check-in undone" (attendee_data pending), w')
    /\ attendees w' = l1 ++ pending :: l2
    /\ emitted w'
       = emitted w ++ [mkEmission eid "attendee:unchecked"
                         (with_attendee pending (count_stats eid (attendees w')))].
Proof.
  intros Hf Hnd Hin eid pending. subst eid pending.
  destruct (key_split (att_id a) (event_id a) a _ Hnd Hin eq_refl)
    as [l1 [l2 [Hrows Hnot]]].
  destruct (undoCheckIn_run w a l1 l2 Hf Hrows Hnot)
    as [w' [Hrun [Hafter [Hemit _]]]].
  exists l1, l2, w'. auto.
Qed.

Lemma undoCheckIn_resets_one_attendee_witness :
  (event_of 2 sample_world = Some concert /\ is_finished concert = true)
  /\ exists l1 l2 w',
       attendees sample_world = l1 ++ mary :: l2
       /\ undoCheckIn 2 2 sample_world
          = (mkResponse 200 true "Check-in undone"
               (attendee_data (set_unchecked 10 mary)), w')
       /\ attendees w' = l1 ++ set_unchecked 10 mary :: l2.
Proof.
  split; [split; reflexivity|].
  destruct (undoCheckIn_resets_one_attendee sample_world mary)
    as [l1 [l2 [w' [Hsplit [Hrun [Hrows _]]]]]]; try reflexivity.
  - repeat constructor; simpl; intuition discriminate.
  - right. left. reflexivity.
  - exists l1, l2, w'. auto.
Defined.

(** X8.  Check-in followed by its undo is a round trip: on an active
    event and a store that answers, a pending attendee is pending again
    with no timestamp, only its [updated_at] has moved, every other row is
    untouched and the statistics of the event are those from before. *)
Theorem checkIn_then_undoCheckIn w e a :
  faults w = [] ->
  event_of (event_id a) w = Some e ->
  is_finished e = false ->
  NoDup (map att_id (attendees w)) ->
  In a (attendees w) ->
  checked_in a = false ->
  checked_in_at a = None ->
  let eid := event_id a in
  let w1 := snd (checkIn eid (att_id a) w) in
  let w2 := snd (undoCheckIn eid (att_id a) w1) in
  exists l1 l2,
    attendees w = l1 ++ a :: l2
    /\ attendees w2
       = l1 ++ mkAttendee (att_id a) (event_id a) (att_name a) (phone_number a)
                 (email a) (checked_in a) (checked_in_at a) (source a)
                 (created_at a) (clock w + 4) :: l2
    /\ count_stats eid (attendees w2) = count_stats eid (attendees w)
    /\ status (fst (checkIn eid (att_id a) w)) = 200
    /\ status (fst (undoCheckIn eid (att_id a) w1)) = 200.
Proof.
  intros Hf He Hfin Hnd Hin Hpending Hnone eid w1 w2. subst eid w1 w2.
  destruct (key_split (att_id a) (event_id a) a _ Hnd Hin eq_refl)
    as [l1 [l2 [Hrows Hnot]]].
  destruct (checkIn_run w e a l1 l2 Hf He Hfin Hrows Hnot Hpending)
    as [w1 [Hrun1 [Hafter1 [_ [Hf1 Hclock]]]]].
  rewrite Hrun1. cbn [fst snd].
  destruct (undoCheckIn_run w1 (set_checked_in (S (S (clock w))) a) l1 l2
              Hf1 Hafter1 Hnot)
    as [w2 [Hrun2 [Hafter2 _]]].
  cbn [att_id event_id set_checked_in] in Hrun2.
  rewrite Hrun2. cbn [fst snd].
  exists l1, l2. split; [exact Hrows|].
  assert (Hrow : set_unchecked (clock w1) (set_checked_in (S (S (clock w))) a)
                 = mkAttendee (att_id a) (event_id a) (att_name a)
                     (phone_number a) (email a) (checked_in a)
                     (checked_in_at a) (source a) (created_at a) (clock w + 4)).
  { unfold set_unchecked, set_checked_in. cbn. rewrite Hpending, Hnone, Hclock.
    reflexivity. }
  rewrite Hafter2, Hrow. split; [reflexivity|]. split; [|split; reflexivity].
  rewrite Hrows, !count_stats_app, !count_stats_cons.
  reflexivity.
Qed.

Lemma checkIn_then_undoCheckIn_witness :
  count_stats 1 (attendees (snd (undoCheckIn 1 1 (snd (checkIn 1 1 sample_world)))))
  = count_stats 1 (attendees sample_world)
  /\ status (fst (checkIn 1 1 sample_world)) = 200.
Proof.
  destruct (checkIn_then_undoCheckIn sample_world retreat john_doe)
    as [l1 [l2 [_ [_ [Hstats [Hs _]]]]]]; try reflexivity.
  - repeat constructor; simpl; intuition discriminate.
  - left. reflexivity.
  - split; [exact Hstats|exact Hs].
Defined.

(** X9.  On a store that answers and an event that is not finished,
    deleting an existing attendee ([id] being a key) answers 200, removes
    that row and no other, lowers the total of the event by one and
    broadcasts the id with the new statistics. *)
Theorem deleteAttendee_removes_one_row w a :
  faults w = [] ->
  (forall e, event_of (event_id a) w = Some e -> is_finished e = false) ->
  NoDup (map att_id (attendees w)) ->
  In a (attendees w) ->
  let eid := event_id a in
  exists l1 l2 w',
    attendees w = l1 ++ a :: l2
    /\ deleteAttendee eid (att_id a) w
       = (mkResponse 200 true "Attendee deleted" no_body, w')
    /\ attendees w' = l1 ++ l2
    /\ S (total_attendees (count_stats eid (attendees w')))
       = total_attendees (count_stats eid (attendees w))
    /\ emitted w'
       = emitted w ++ [mkEmission eid "attendee:deleted"
                         (with_attendee_id (att_id a)
                            (count_stats eid (attendees w')))].
Proof.
  intros Hf Hopen Hnd Hin eid. subst eid.
  destruct (key_split (att_id a) (event_id a) a _ Hnd Hin eq_refl)
    as [l1 [l2 [Hrows Hnot]]].
  pose proof (is_attendee_of a) as Ha.
  exists l1, l2.
  unfold deleteAttendee, respond, bind. rewrite select_event_run by exact Hf.
  assert (Hgate : first_is_finished
                    (filter (fun e => ev_id e =? event_id a) (events w)) = false).
  { destruct (event_of (event_id a) w) as [e|] eqn:He.
    - destruct (find_filter _ _ _ He) as [rest ->]. apply Hopen. reflexivity.
    - unfold event_of in He. rewrite (find_none_filter _ _ He). reflexivity. }
  rewrite Hgate. unfold delete_attendee. rewrite query_run by exact Hf.
  cbn [view note txn attendees]. rewrite Hrows.
  rewrite (select_one _ _ _ _ _ Ha Hnot), (delete_one_row _ _ _ _ _ Ha Hnot).
  rewrite getEventStats_run by exact Hf.
  unfold emitToEvent, ret. eexists. split; [reflexivity|].
  split; [reflexivity|]. split; [reflexivity|]. split; [|reflexivity].
  cbn [attendees note set_view view txn].
  rewrite !count_stats_app, count_stats_cons. cbn [total_attendees].
  unfold in_event. rewrite Nat.eqb_refl. lia.
Qed.

Lemma deleteAttendee_removes_one_row_witness :
  exists l1 l2 w',
    attendees sample_world = l1 ++ john_doe :: l2
    /\ deleteAttendee 1 1 sample_world
       = (mkResponse 200 true "Attendee deleted" no_body, w')
    /\ attendees w' = l1 ++ l2.
Proof.
  destruct (deleteAttendee_removes_one_row sample_world john_doe)
    as [l1 [l2 [w' [Hsplit [Hrun [Hrows _]]]]]]; try reflexivity.
  - intros e He. injection He as <-. reflexivity.
  - repeat constructor; simpl; intuition discriminate.
  - left. reflexivity.
  - exists l1, l2, w'. auto.
Defined.



Lemma count_stats_others eid rows : count_stats eid (others eid rows) = mkStats 0 0.
Proof.
  unfold count_stats, others.
  rewrite !filter_none; [reflexivity| |]; intros b Hb;
    apply filter_In in Hb; destruct Hb as [_ Hb];
    apply negb_true_iff in Hb; rewrite Hb; reflexivity.
Qed.

(** X11.  On a store that answers, [clearAttendees] answers 200 whatever
    the state of the event, deletes the attendees of the event and keeps
    those of the other events in their order; the statistics it
    broadcasts, written as zeros in the source, are those of the roster
    after the deletion. *)
Theorem clearAttendees_empties_the_event w eid :
  faults w = [] ->
  exists w',
    clearAttendees eid w
    = (mkResponse 200 true "All attendees cleared" no_body, w')
    /\ attendees w' = others eid (attendees w)
    /\ (forall a, In a (attendees w') <-> In a (attendees w) /\ event_id a <> eid)
    /\ count_stats eid (attendees w') = mkStats 0 0
    /\ emitted w'
       = emitted w ++ [mkEmission eid "attendees:cleared"
                         (with_stats (count_stats eid (attendees w')))].
Proof.
  intros Hf. unfold clearAttendees, respond, bind, delete_attendees.
  rewrite query_run by exact Hf. unfold emitToEvent, ret.
  eexists. split; [reflexivity|]. cbn [attendees note set_view view txn emitted].
  fold (others eid (attendees w)). rewrite count_stats_others.
  split; [reflexivity|]. split; [|split; reflexivity].
  intros a. unfold others. rewrite filter_In. unfold in_event.
  rewrite negb_true_iff, Nat.eqb_neq. tauto.
Qed.

Lemma clearAttendees_empties_the_event_witness :
  exists w',
    clearAttendees 2 sample_world
    = (mkResponse 200 true "All attendees cleared" no_body, w')
    /\ attendees w' = [john_doe].
Proof.
  destruct (clearAttendees_empties_the_event sample_world 2 eq_refl)
    as [w' [Hrun [Hrows _]]].
  exists w'. split; [exact Hrun|]. rewrite Hrows. reflexivity.
Defined.

(* ------------------------------------------------------------------ *)
(** ** Fan-out *)

Lemma silent_ret {A} (a : A) : silent (ret a).
Proof. intros w r w' H. injection H as _ <-. reflexivity. Qed.

Lemma silent_throw {A} e : silent (@throw A e).
Proof. intros w r w' H. injection H as _ <-. reflexivity. Qed.

Lemma silent_bind {A B} (m : M A) (k : A -> M B) :
  silent m -> (forall a, silent (k a)) -> silent (bind m k).
Proof.
  intros Hm Hk w r w'. unfold bind.
  destruct (m w) as [[a|e] w1] eqn:E; intros H.
  - rewrite (Hk _ _ _ _ H). eapply Hm, E.
  - injection H as _ <-. eapply Hm, E.
Qed.

Lemma silent_query {A} s (sem : world -> error + A * world) :
  (forall w a w1, sem w = inr (a, w1) -> emitted w1 = emitted w) ->
  silent (query s sem).
Proof.
  intros Hsem w r w' H.
  destruct (query_cases s sem w)
    as [[_ E]|[[_ [e [_ E]]]|[_ [a [w1 [Hs E]]]]]];
    rewrite E in H; injection H as _ <-; [reflexivity..|].
  simpl. eapply Hsem, Hs.
Qed.

Ltac silent_sem :=
  apply silent_query; intros w0 a0 w1 Hsem;
  repeat match type of Hsem with
         | context [if ?b then _ else _] => destruct b; try discriminate Hsem
         | context [match txn ?w with _ => _ end] => destruct (txn w)
         end;
  injection Hsem as _ <-; unfold set_view, set_txn, next_id; simpl;
  repeat match goal with
         | |- context [match ?c with pool => _ | client => _ end] => destruct c
         | |- context [match txn ?w with _ => _ end] => destruct (txn w)
         end; reflexivity.

Lemma silent_select_event eid : silent (select_event eid).
Proof. unfold select_event. silent_sem. Qed.

Lemma silent_getEventStats eid : silent (getEventStats eid).
Proof. unfold getEventStats. silent_sem. Qed.

Lemma silent_begin : silent begin_.
Proof. unfold begin_. silent_sem. Qed.

Lemma silent_commit : silent commit.
Proof. unfold commit. silent_sem. Qed.

Lemma silent_rollback : silent rollback.
Proof. unfold rollback. silent_sem. Qed.

Lemma silent_select_by_phone c eid p : silent (select_by_phone c eid p).
Proof. unfold select_by_phone. silent_sem. Qed.

Lemma silent_select_by_name c eid n : silent (select_by_name c eid n).
Proof. unfold select_by_name. silent_sem. Qed.

Lemma silent_insert c eid name phone mail src :
  silent (insert_attendee c eid name phone mail src).
Proof. unfold insert_attendee. silent_sem. Qed.

Lemma silent_select_attendee aid eid : silent (select_attendee aid eid).
Proof. unfold select_attendee. silent_sem. Qed.

Lemma silent_update_check_in aid eid : silent (update_check_in aid eid).
Proof. unfold update_check_in. silent_sem. Qed.

Lemma silent_update_undo_check_in aid eid : silent (update_undo_check_in aid eid).
Proof. unfold update_undo_check_in. silent_sem. Qed.

Lemma silent_delete_attendee aid eid : silent (delete_attendee aid eid).
Proof. unfold delete_attendee. silent_sem. Qed.

Lemma silent_delete_attendees eid : silent (delete_attendees eid).
Proof. unfold delete_attendees. silent_sem. Qed.

Lemma silent_duplicateMatch eid name phone : silent (duplicateMatch eid name phone).
Proof.
  unfold duplicateMatch.
  apply silent_bind.
  - destruct (truthy _); [|apply silent_ret].
    apply silent_bind; [apply silent_select_by_phone|].
    intros [|? ?]; apply silent_ret.
  - intros [m|]; [apply silent_ret|].
    apply silent_bind; [apply silent_select_by_name|].
    intros [|? ?]; apply silent_ret.
Qed.

Lemma silent_import_rows eid nk pk ek rows :
  forall index acc, silent (import_rows eid nk pk ek rows index acc).
Proof.
  induction rows as [|r rows IH]; intros index acc; cbn [import_rows].
  - apply silent_ret.
  - destruct (negb _); [apply IH|].
    apply silent_bind; [apply silent_duplicateMatch|].
    intros [m|]; [apply IH|].
    apply silent_bind; [apply silent_insert|]. intros _. apply IH.
Qed.

Lemma silent_confirm_rows eid dups :
  forall count, silent (confirm_rows eid dups count).
Proof.
  induction dups as [|d dups IH]; intros count; cbn [confirm_rows].
  - apply silent_ret.
  - destruct (negb _); [apply IH|].
    apply silent_bind; [apply silent_insert|]. intros _. apply IH.
Qed.

Lemma silent_rollback_rethrow {A} err :
  silent (bind rollback (fun _ => @throw A err)).
Proof. apply silent_bind; [apply silent_rollback|]. intros _. apply silent_throw. Qed.

(** What the statistics query returns is the count over the committed
    rows, which it leaves alone. *)
Lemma getEventStats_value eid w st w' :
  getEventStats eid w = (Ok st, w') ->
  st = count_stats eid (attendees w)
  /\ attendees w' = attendees w
  /\ emitted w' = emitted w.
Proof.
  intros H. pose proof (getEventStats_kept _ _ _ _ H) as [Ha _ _ _ _].
  pose proof (silent_getEventStats _ _ _ _ H) as He.
  split; [|auto]. unfold getEventStats in H.
  match type of H with query ?s ?sem w = _ =>
    destruct (query_cases s sem w)
      as [[_ E]|[[_ [e [_ E]]]|[_ [a [w1 [Hs E]]]]]]
  end; rewrite E in H; try discriminate H.
  injection H as <- _. injection Hs as <- _. reflexivity.
Qed.

Lemma quiet_ret {A} (a : A) : quiet (ret a).
Proof. intros w r w' H. injection H as _ <-. auto. Qed.

Lemma quiet_throw {A} e : quiet (@throw A e).
Proof. intros w r w' H. injection H as _ <-. auto. Qed.

Lemma quiet_rollback_rethrow {A} err : quiet (bind rollback (fun _ => @throw A err)).
Proof.
  intros w r w' H. split; [eapply silent_rollback_rethrow, H|].
  apply rollback_and_rethrow in H. tauto.
Qed.

Lemma one_fresh_broadcast_then eid w0 w1 w2 :
  one_fresh_broadcast eid w0 w1 ->
  emitted w2 = emitted w1 -> attendees w2 = attendees w1 ->
  one_fresh_broadcast eid w0 w2.
Proof.
  intros [H|[name [p [H Hp]]]] He Ha; [left; congruence|right].
  exists name, p. split; congruence.
Qed.

(** The tail shared by the routes: statistics, broadcast, answer. *)
Lemma stats_then_emit {A} eid name (f : stats -> emit_payload) (k : stats -> M A)
  w0 w r w' :
  (forall st, payload_stats (f st) = st) ->
  (forall st, quiet (k st)) ->
  emitted w = emitted w0 ->
  bind (getEventStats eid)
    (fun st => bind (emitToEvent eid name (f st)) (fun _ => k st)) w = (r, w') ->
  one_fresh_broadcast eid w0 w'.
Proof.
  intros Hf Hk He. unfold bind at 1.
  destruct (getEventStats eid w) as [[st|e] w1] eqn:Es.
  - apply getEventStats_value in Es. destruct Es as [-> [Ha1 He1]].
    unfold bind, emitToEvent. intros H. apply Hk in H. cbn in H.
    destruct H as [He2 Ha2]. right. exists name, (f (count_stats eid (attendees w))).
    split; [congruence|]. rewrite Hf. congruence.
  - intros H. injection H as _ <-. left.
    rewrite (silent_getEventStats _ _ _ _ Es). exact He.
Qed.

Ltac quiet_tail :=
  first [ apply quiet_ret | apply quiet_throw | apply quiet_rollback_rethrow ].

(** The transaction block of both imports, for any loop that does not
    broadcast. *)
Lemma transaction_broadcast {A} eid (loop : M A) (payload : A -> stats -> emit_payload)
  (answer : A -> response) w0 w r w' :
  silent loop ->
  (forall t st, payload_stats (payload t st) = st) ->
  emitted w = emitted w0 ->
  try_finally
    (try_catch
       (bind begin_ (fun _ =>
        bind loop (fun t =>
        bind commit (fun _ =>
        bind (getEventStats eid) (fun st =>
        bind (emitToEvent eid "attendees:imported" (payload t st)) (fun _ =>
        ret (answer t)))))))
       (fun err => bind rollback (fun _ => throw err)))
    release w = (r, w') ->
  one_fresh_broadcast eid w0 w'.
Proof.
  intros Hloop Hp He. unfold try_finally, try_catch, release, ret at 2.
  match goal with |- context [bind begin_ ?k w] =>
    destruct (bind begin_ k w) as [r1 w1] eqn:Eb
  end.
  assert (H1 : one_fresh_broadcast eid w0 w1).
  { revert Eb. unfold bind at 1.
    destruct (begin_ w) as [[[]|e] w2] eqn:E2;
      pose proof (silent_begin _ _ _ E2) as S2;
      [|intros H; injection H as _ <-; left; congruence].
    unfold bind at 1.
    destruct (loop w2) as [[t|e] w3] eqn:E3;
      pose proof (Hloop _ _ _ E3) as S3;
      [|intros H; injection H as _ <-; left; congruence].
    unfold bind at 1.
    destruct (commit w3) as [[[]|e] w4] eqn:E4;
      pose proof (silent_commit _ _ _ E4) as S4;
      [|intros H; injection H as _ <-; left; congruence].
    apply stats_then_emit; [apply Hp|intros; apply quiet_ret|congruence]. }
  destruct r1 as [resp|err].
  - intros H. injection H as _ <-. exact H1.
  - destruct (bind rollback (fun _ => throw err) w1) as [r2 w2] eqn:Er.
    apply quiet_rollback_rethrow in Er. destruct Er as [Her Har].
    intros H. injection H as _ <-.
    eapply one_fresh_broadcast_then; eassumption.
Qed.

(** X12.  Whatever the request and whatever the store does, a route
    broadcasts at most one message, to the room of its event, and the
    statistics in it are those of the committed roster the request leaves
    behind. *)
Theorem broadcast_carries_the_statistics_left_behind eid q w :
  one_fresh_broadcast eid w (snd (serve eid q w)).
Proof.
  assert (Hstay : forall w1, emitted w1 = emitted w -> one_fresh_broadcast eid w w1)
    by (intros w1 H; left; exact H).
  destruct q as [name phone mail|file|chosen|aid|aid|aid|]; cbn [serve].
  - unfold addAttendee. destruct (negb (truthy name)); [apply Hstay; reflexivity|].
    unfold respond.
    match goal with |- context [bind ?m ?k w] =>
      destruct (bind m k w) as [r1 w1] eqn:E
    end.
    assert (H : one_fresh_broadcast eid w w1).
    { revert E. unfold bind at 1.
      destruct (select_event eid w) as [[evs|e] w2] eqn:E2;
        pose proof (silent_select_event _ _ _ _ E2) as S2;
        [|intros H; injection H as _ <-; auto].
      destruct (first_is_finished evs);
        [intros H; injection H as _ <-; auto|].
      unfold bind at 1.
      destruct (insert_attendee _ _ _ _ _ _ w2) as [[row|e] w3] eqn:E3;
        pose proof (silent_insert _ _ _ _ _ _ _ _ _ E3) as S3;
        [|intros H; injection H as _ <-; apply Hstay; congruence].
      apply stats_then_emit; [reflexivity|intros; apply quiet_ret|congruence]. }
    destruct r1; exact H.
  - unfold importAttendees. destruct file as [| |rows];
      [apply Hstay; reflexivity| |]; unfold respond;
      match goal with |- context [import_request ?e ?f w] =>
        destruct (import_request e f w) as [r1 w1] eqn:E
      end;
      (assert (H : one_fresh_broadcast eid w w1);
       [|destruct r1; exact H]);
      revert E; unfold import_request, read_sheet; unfold bind at 1;
      (destruct (select_event eid w) as [[evs|e] w2] eqn:E2;
       pose proof (silent_select_event _ _ _ _ E2) as S2;
       [|intros H; injection H as _ <-; auto]);
      (destruct (first_is_finished evs);
       [intros H; injection H as _ <-; auto|]);
      unfold bind at 1, throw, ret;
      [intros H; injection H as _ <-; auto|].
    destruct rows as [|firstRow rows]; [intros H; injection H as _ <-; auto|].
    destruct (negb _); [intros H; injection H as _ <-; auto|].
    unfold import_transaction. apply transaction_broadcast;
      [apply silent_import_rows|reflexivity|exact S2].
  - unfold confirmDuplicateImport. destruct chosen as [dups|];
      [|apply Hstay; reflexivity].
    unfold respond.
    match goal with |- context [bind ?m ?k w] =>
      destruct (bind m k w) as [r1 w1] eqn:E
    end.
    assert (H : one_fresh_broadcast eid w w1); [|destruct r1; exact H].
    revert E. unfold bind at 1.
    destruct (select_event eid w) as [[evs|e] w2] eqn:E2;
      pose proof (silent_select_event _ _ _ _ E2) as S2;
      [|intros H; injection H as _ <-; auto].
    destruct (first_is_finished evs); [intros H; injection H as _ <-; auto|].
    apply (transaction_broadcast eid (confirm_rows eid dups 0)
             (fun n st => with_counts n 0 st));
      [apply silent_confirm_rows|reflexivity|exact S2].
  - unfold checkIn, respond.
    match goal with |- context [bind ?m ?k w] =>
      destruct (bind m k w) as [r1 w1] eqn:E
    end.
    assert (H : one_fresh_broadcast eid w w1); [|destruct r1; exact H].
    revert E. unfold bind at 1.
    destruct (select_event eid w) as [[evs|e] w2] eqn:E2;
      pose proof (silent_select_event _ _ _ _ E2) as S2;
      [|intros H; injection H as _ <-; auto].
    destruct evs as [|e evs]; [intros H; injection H as _ <-; auto|].
    destruct (is_finished e); [intros H; injection H as _ <-; auto|].
    unfold bind at 1.
    destruct (select_attendee aid eid w2) as [[current|e'] w3] eqn:E3;
      pose proof (silent_select_attendee _ _ _ _ _ E3) as S3;
      [|intros H; injection H as _ <-; apply Hstay; congruence].
    destruct current as [|attendee current];
      [intros H; injection H as _ <-; apply Hstay; congruence|].
    destruct (checked_in attendee);
      [intros H; injection H as _ <-; apply Hstay; congruence|].
    unfold bind at 1.
    destruct (update_check_in aid eid w3) as [[updated|e'] w4] eqn:E4;
      pose proof (silent_update_check_in _ _ _ _ _ E4) as S4;
      [|intros H; injection H as _ <-; apply Hstay; congruence].
    destruct updated as [|r updated].
    + apply (stats_then_emit eid "attendee:checked_in" with_stats
               (fun _ => throw TypeError));
        [reflexivity|intros; apply quiet_throw|congruence].
    + apply (stats_then_emit eid "attendee:checked_in" (with_attendee r));
        [reflexivity|intros; apply quiet_ret|congruence].
  - unfold undoCheckIn, respond.
    match goal with |- context [bind ?m ?k w] =>
      destruct (bind m k w) as [r1 w1] eqn:E
    end.
    assert (H : one_fresh_broadcast eid w w1); [|destruct r1; exact H].
    revert E. unfold bind at 1.
    destruct (update_undo_check_in aid eid w) as [[updated|e'] w2] eqn:E2;
      pose proof (silent_update_undo_check_in _ _ _ _ _ E2) as S2;
      [|intros H; injection H as _ <-; auto].
    destruct updated as [|r updated]; [intros H; injection H as _ <-; auto|].
    apply (stats_then_emit eid "attendee:unchecked" (with_attendee r));
      [reflexivity|intros; apply quiet_ret|exact S2].
  - unfold deleteAttendee, respond.
    match goal with |- context [bind ?m ?k w] =>
      destruct (bind m k w) as [r1 w1] eqn:E
    end.
    assert (H : one_fresh_broadcast eid w w1); [|destruct r1; exact H].
    revert E. unfold bind at 1.
    destruct (select_event eid w) as [[evs|e] w2] eqn:E2;
      pose proof (silent_select_event _ _ _ _ E2) as S2;
      [|intros H; injection H as _ <-; auto].
    destruct (first_is_finished evs); [intros H; injection H as _ <-; auto|].
    unfold bind at 1.
    destruct (delete_attendee aid eid w2) as [[deleted|e'] w3] eqn:E3;
      pose proof (silent_delete_attendee _ _ _ _ _ E3) as S3;
      [|intros H; injection H as _ <-; apply Hstay; congruence].
    destruct deleted as [|r deleted];
      [intros H; injection H as _ <-; apply Hstay; congruence|].
    apply (stats_then_emit eid "attendee:deleted" (with_attendee_id aid));
      [reflexivity|intros; apply quiet_ret|congruence].
  - unfold clearAttendees, respond, bind, delete_attendees.
    match goal with |- context [query ?s ?sem w] =>
      destruct (query_cases s sem w)
        as [[_ E]|[[_ [e [Hs _]]]|[_ [a [w1 [Hs E]]]]]]
    end; [rewrite E; apply Hstay; reflexivity|discriminate Hs|].
    rewrite E. injection Hs as _ <-. unfold emitToEvent, ret. cbn [snd].
    right. exists "attendees:cleared", (with_stats (mkStats 0 0)).
    split; [reflexivity|]. cbn [payload_stats attendees note set_view view txn].
    fold (others eid (attendees w)). symmetry. apply count_stats_others.
Qed.

(* ------------------------------------------------------------------ *)
(** ** Accounting of an import *)

Lemma read_tables {A} s (f : world -> A) w r w' :
  query s (fun w => inr (f w, w)) w = (r, w') -> tables w' = tables w.
Proof.
  intros H.
  destruct (query_cases s (fun w => inr (f w, w)) w)
    as [[_ E]|[[_ [e [Hs _]]]|[_ [a [w1 [Hs E]]]]]].
  - rewrite E in H. injection H as _ <-. reflexivity.
  - discriminate Hs.
  - rewrite E in H. injection H as _ <-. injection Hs as _ <-. reflexivity.
Qed.

Lemma duplicateMatch_tables eid name phone w r w' :
  duplicateMatch eid name phone w = (r, w') -> tables w' = tables w.
Proof.
  unfold duplicateMatch, bind, ret, select_by_phone, select_by_name.
  destruct (truthy (normalizePhone phone)).
  - destruct (query _ _ w) as [[rows|e] w1] eqn:E1; apply read_tables in E1.
    + destruct rows as [|a rows].
      * destruct (query _ _ w1) as [[rows2|e] w2] eqn:E2; apply read_tables in E2;
          [destruct rows2|]; intros H; injection H as _ <-; congruence.
      * intros H; injection H as _ <-. exact E1.
    + intros H; injection H as _ <-. exact E1.
  - destruct (query _ _ w) as [[rows2|e] w2] eqn:E2; apply read_tables in E2;
      [destruct rows2|]; intros H; injection H as _ <-; exact E2.
Qed.

(** An accepted [INSERT] inside the transaction appends the row it
    returns. *)
Lemma insert_in_txn_ok eid name phone mail src w t row w' :
  txn w = Some t ->
  insert_attendee client eid name phone mail src w = (Ok row, w') ->
  txn w' = Some (t ++ [row])
  /\ attendees w' = attendees w
  /\ row = mkAttendee (att_id row) eid name phone mail false None src
             (created_at row) (created_at row).
Proof.
  intros Ht H. unfold insert_attendee in H.
  match type of H with query ?s ?sem w = _ =>
    destruct (query_cases s sem w)
      as [[_ E]|[[_ [e [_ E]]]|[_ [a [w1 [Hs E]]]]]]
  end; rewrite E in H; try discriminate H.
  injection H as <- <-.
  destruct (_ || _) in Hs; [discriminate|].
  destruct (negb _) in Hs; [discriminate|].
  injection Hs as <- <-. unfold set_view, view, next_id. cbn. rewrite Ht. cbn.
  auto.
Qed.

Lemma import_rows_accounts eid nk pk ek rows :
  forall index acc w t acc' w',
    txn w = Some t ->
    import_rows eid nk pk ek rows index acc w = (Ok acc', w') ->
    exists added reported,
      txn w' = Some (t ++ added)
      /\ attendees w' = attendees w
      /\ imported acc' = imported acc + length added
      /\ duplicates acc' = duplicates acc ++ reported
      /\ imported acc' + skipped acc' + length (duplicates acc')
         = imported acc + skipped acc + length (duplicates acc) + length rows
      /\ Forall (fun a => exists r, In r rows /\ from_row eid nk pk ek r a) added
      /\ Forall (fun d => exists i r, nth_error rows i = Some r
                                      /\ reports_row nk pk ek r (index + i + 2) d)
           reported
      /\ StronglySorted lt (map rowIndex reported).
Proof.
  induction rows as [|r rows IH]; intros index acc w t acc' w' Ht; cbn [import_rows].
  - unfold ret. intros H. injection H as <- <-. exists [], [].
    rewrite !app_nil_r. cbn [length map]. repeat split; auto; try lia; constructor.
  - assert (Hlift_added :
              forall added,
                Forall (fun a => exists r0, In r0 rows /\ from_row eid nk pk ek r0 a) added ->
                Forall (fun a => exists r0, In r0 (r :: rows)
                                            /\ from_row eid nk pk ek r0 a) added).
    { intros added H. eapply Forall_impl; [|exact H].
      intros a [r0 [Hr0 Hfrom]]. exists r0. split; [right|]; assumption. }
    assert (Hlift_rep :
              forall reported,
                Forall (fun d => exists i r0, nth_error rows i = Some r0
                                  /\ reports_row nk pk ek r0 (S index + i + 2) d)
                  reported ->
                Forall (fun d => exists i r0, nth_error (r :: rows) i = Some r0
                                  /\ reports_row nk pk ek r0 (index + i + 2) d)
                  reported).
    { intros reported H. eapply Forall_impl; [|exact H].
      intros d [i [r0 [Hn Hrep]]]. exists (S i), r0. split; [exact Hn|].
      replace (index + S i + 2) with (S index + i + 2) by lia. exact Hrep. }
    destruct (truthy (cell r nk)) eqn:Hname; cbn [negb].
    + unfold bind at 1.
      destruct (duplicateMatch _ _ _ w) as [[dm|e] w1] eqn:E1; [|discriminate].
      apply duplicateMatch_tables in E1. unfold tables in E1.
      injection E1 as _ Ha1 Ht1. rewrite Ht in Ht1.
      destruct dm as [m|].
      * intros H. destruct (IH _ _ _ _ _ _ Ht1 H)
          as [added [reported [Htx [Ha [Hi [Hd [Hsum [Hadd [Hrep Hsort]]]]]]]]].
        cbn [imported skipped duplicates] in Hi, Hd, Hsum.
        rewrite length_app in Hsum. cbn [length] in Hsum.
        set (d := mkDuplicate (cell r nk) (optional_cell r pk) (optional_cell r ek)
                    (index + 2) (matchedBy m) (existingName m) (existingPhone m)) in *.
        exists added, (d :: reported).
        split; [exact Htx|]. split; [congruence|]. split; [exact Hi|].
        split; [rewrite Hd, <- app_assoc; reflexivity|].
        split; [cbn [length]; lia|]. split; [apply Hlift_added, Hadd|].
        split.
        -- constructor; [|apply Hlift_rep, Hrep].
           exists 0, r. split; [reflexivity|].
           replace (index + 0 + 2) with (index + 2) by lia.
           unfold reports_row, d. cbn. auto.
        -- cbn [map]. constructor; [exact Hsort|].
           apply Forall_map. eapply Forall_impl; [|exact Hrep].
           intros d' [i [r0 [_ [Hline _]]]]. unfold d. cbn. lia.
      * unfold bind at 1.
        destruct (insert_attendee _ _ _ _ _ _ w1) as [[row|e] w2] eqn:E2;
          [|discriminate].
        destruct (insert_in_txn_ok _ _ _ _ _ _ _ _ _ Ht1 E2) as [Ht2 [Ha2 Hrow]].
        intros H. destruct (IH _ _ _ _ _ _ Ht2 H)
          as [added [reported [Htx [Ha [Hi [Hd [Hsum [Hadd [Hrep Hsort]]]]]]]]].
        cbn [imported skipped duplicates] in Hi, Hd, Hsum.
        exists (row :: added), reported.
        split; [rewrite Htx, <- app_assoc; reflexivity|].
        split; [congruence|]. split; [cbn [length]; lia|].
        split; [exact Hd|]. split; [cbn [length]; lia|].
        split; [|split; [apply Hlift_rep, Hrep|exact Hsort]].
        constructor; [|apply Hlift_added, Hadd].
        exists r. split; [left; reflexivity|].
        rewrite Hrow. unfold from_row. cbn.
        destruct (truthy_key_is_string _ Hname) as [_ Hne]. auto 10.
    + intros H. destruct (IH _ _ _ _ _ _ Ht H)
        as [added [reported [Htx [Ha [Hi [Hd [Hsum [Hadd [Hrep Hsort]]]]]]]]].
      cbn [imported skipped duplicates] in Hi, Hd, Hsum.
      exists added, reported.
      split; [exact Htx|]. split; [exact Ha|]. split; [exact Hi|].
      split; [exact Hd|]. split; [cbn [length]; lia|].
      split; [apply Hlift_added, Hadd|].
      split; [apply Hlift_rep, Hrep|exact Hsort].
Qed.

Lemma begin_ok w w' :
  begin_ w = (Ok tt, w') ->
  txn w' = Some (attendees w) /\ attendees w' = attendees w.
Proof.
  unfold begin_. intros H.
  match type of H with query ?s ?sem w = _ =>
    destruct (query_cases s sem w)
      as [[_ E]|[[_ [e [_ E]]]|[_ [a [w1 [Hs E]]]]]]
  end; rewrite E in H; try discriminate H.
  inversion H; subst. inversion Hs; subst. auto.
Qed.

Lemma commit_ok w t w' :
  txn w = Some t -> commit w = (Ok tt, w') -> attendees w' = t.
Proof.
  unfold commit. intros Ht H.
  match type of H with query ?s ?sem w = _ =>
    destruct (query_cases s sem w)
      as [[_ E]|[[_ [e [_ E]]]|[_ [a [w1 [Hs E]]]]]]
  end; rewrite E in H; try discriminate H.
  inversion H; subst. rewrite Ht in Hs. inversion Hs; subst. reflexivity.
Qed.

(** What an import answered with 200 has done. *)
Lemma importAttendees_success eid file w r w' :
  importAttendees eid file w = (r, w') ->
  status r = 200 ->
  exists firstRow rest t added,
    let rows := firstRow :: rest in
    let nk := key_text (findKey firstRow nameKeys) in
    let pk := findKey firstRow phoneKeys in
    let ek := findKey firstRow emailKeys in
    file = sheet rows
    /\ r = mkResponse 200 true (import_message t)
             (import_report (imported t) (skipped t) (duplicates t))
    /\ attendees w' = attendees w ++ added
    /\ imported t = length added
    /\ imported t + skipped t + length (duplicates t) = length rows
    /\ Forall (fun a => exists r, In r rows /\ from_row eid nk pk ek r a) added
    /\ Forall (fun d => exists i r, nth_error rows i = Some r
                                    /\ reports_row nk pk ek r (i + 2) d)
         (duplicates t)
    /\ StronglySorted lt (map rowIndex (duplicates t)).
Proof.
  unfold importAttendees.
  destruct file as [| |rows];
    [intros H; injection H as <- _; discriminate| |];
    unfold respond, import_request, read_sheet; unfold bind at 1;
    (destruct (select_event eid w) as [[evs|e] w0] eqn:E0;
     [|intros H; injection H as <- _; discriminate]);
    (destruct (first_is_finished evs);
     [intros H; injection H as <- _; discriminate|]);
    unfold bind at 1, throw, ret;
    [intros H; injection H as <- _; discriminate|].
  apply select_event_kept in E0. destruct E0 as [A0 _ _ _ _].
  destruct rows as [|firstRow rest];
    [intros H; injection H as <- _; discriminate|].
  destruct (negb _); [intros H; injection H as <- _; discriminate|].
  unfold import_transaction, try_finally, try_catch, release, ret.
  unfold bind at 1.
  destruct (begin_ w0) as [[[]|e] w1] eqn:E1.
  2:{ unfold bind, throw. destruct (rollback w1) as [[[]|e'] w2];
        intros H; injection H as <- _; discriminate. }
  apply begin_ok in E1. destruct E1 as [T1 A1].
  unfold bind at 1.
  destruct (import_rows _ _ _ _ _ _ _ w1) as [[t|e] w2] eqn:E2.
  2:{ unfold bind, throw. destruct (rollback w2) as [[[]|e'] w3];
        intros H; injection H as <- _; discriminate. }
  destruct (import_rows_accounts _ _ _ _ _ _ _ _ _ _ _ T1 E2)
    as [added [reported [T2 [A2 [Hi [Hd [Hsum [Hadd [Hrep Hsort]]]]]]]]].
  cbn [imported skipped duplicates length app] in Hi, Hd, Hsum.
  unfold bind at 1.
  destruct (commit w2) as [[[]|e] w3] eqn:E3.
  2:{ unfold bind, throw. destruct (rollback w3) as [[[]|e'] w4];
        intros H; injection H as <- _; discriminate. }
  apply (commit_ok _ _ _ T2) in E3.
  unfold bind at 1.
  destruct (getEventStats eid w3) as [[st|e] w4] eqn:E4.
  2:{ unfold bind, throw. destruct (rollback w4) as [[[]|e'] w5];
        intros H; injection H as <- _; discriminate. }
  apply getEventStats_value in E4. destruct E4 as [_ [A4 _]].
  unfold bind, emitToEvent. intros H _. injection H as <- <-.
  exists firstRow, rest, t, added. cbn zeta. cbn [attendees].
  split; [reflexivity|]. split; [reflexivity|].
  split; [congruence|]. split; [lia|]. split; [cbn [length]; lia|].
  split; [exact Hadd|]. rewrite Hd. split; [exact Hrep|exact Hsort].
Qed.

(** X13.  An import answered with 200 accounts for every data row exactly
    once (imported, skipped or reported) and has appended exactly
    [imported] attendees to the roster, all of its event and pending, so
    the total of the event has grown by [imported] and its checked-in
    count has not moved; this holds whatever failures the store had. *)
Theorem import_accounts_for_every_row eid file w :
  status (fst (importAttendees eid file w)) = 200 ->
  exists rows i s ds added,
    file = sheet rows
    /\ data (fst (importAttendees eid file w)) = import_report i s ds
    /\ i + s + length ds = length rows
    /\ attendees (snd (importAttendees eid file w)) = attendees w ++ added
    /\ length added = i
    /\ count_stats eid (attendees (snd (importAttendees eid file w)))
       = mkStats (total_attendees (count_stats eid (attendees w)) + i)
           (checked_in_count (count_stats eid (attendees w))).
Proof.
  intros H.
  destruct (importAttendees_success eid file w _ _ (surjective_pairing _) H)
    as [firstRow [rest [t [added [Hfile [Hresp [Hrows [Hi [Hsum [Hadd _]]]]]]]]]].
  exists (firstRow :: rest), (imported t), (skipped t), (duplicates t), added.
  split; [exact Hfile|]. split; [rewrite Hresp; reflexivity|].
  split; [exact Hsum|]. split; [exact Hrows|]. split; [auto|].
  rewrite Hrows, count_stats_app, Hi. clear -Hadd.
  assert (Hc : count_stats eid added = mkStats (length added) 0).
  { induction Hadd as [|a l [r [_ Ha]] _ IH]; [reflexivity|].
    rewrite count_stats_cons, IH.
    destruct Ha as [Hev [_ [_ [_ [_ [_ [Hp _]]]]]]].
    unfold in_event. rewrite Hev, Nat.eqb_refl, Hp. reflexivity. }
  rewrite Hc. cbn [total_attendees checked_in_count]. f_equal. lia.
Qed.

Lemma import_accounts_for_every_row_witness :
  exists rows i s ds added,
    sheet [jane_row; bob_row; jane_again] = sheet rows
    /\ data (fst (importAttendees 1 (sheet [jane_row; bob_row; jane_again])
                    sample_world))
       = import_report i s ds
    /\ i + s + length ds = length rows
    /\ attendees (snd (importAttendees 1 (sheet [jane_row; bob_row; jane_again])
                         sample_world))
       = attendees sample_world ++ added
    /\ length added = i.
Proof.
  destruct (import_accounts_for_every_row 1 (sheet [jane_row; bob_row; jane_again])
              sample_world eq_refl)
    as [rows [i [s [ds [added [H1 [H2 [H3 [H4 [H5 _]]]]]]]]]].
  exists rows, i, s, ds, added. auto.
Defined.

(** X14.  After an import answered with 200, every attendee it added
    carries the trimmed cells of one data row under the resolved columns
    (its name is not empty, provenance [import], pending, no timestamp),
    and every reported duplicate carries the cells of the data row at its
    [rowIndex], counted from 2 for the first data row; the duplicates come
    in the order of the sheet. *)
Theorem import_keeps_to_the_sheet eid file w :
  status (fst (importAttendees eid file w)) = 200 ->
  exists firstRow rest i s ds added,
    let rows := firstRow :: rest in
    let nk := key_text (findKey firstRow nameKeys) in
    let pk := findKey firstRow phoneKeys in
    let ek := findKey firstRow emailKeys in
    file = sheet rows
    /\ data (fst (importAttendees eid file w)) = import_report i s ds
    /\ attendees (snd (importAttendees eid file w)) = attendees w ++ added
    /\ Forall (fun a => exists r, In r rows /\ from_row eid nk pk ek r a) added
    /\ Forall (fun d => exists n r, nth_error rows n = Some r
                                    /\ reports_row nk pk ek r (n + 2) d) ds
    /\ StronglySorted lt (map rowIndex ds).
Proof.
  intros H.
  destruct (importAttendees_success eid file w _ _ (surjective_pairing _) H)
    as [firstRow [rest [t [added [Hfile [Hresp [Hrows [_ [_ [Hadd [Hrep Hsort]]]]]]]]]]].
  exists firstRow, rest, (imported t), (skipped t), (duplicates t), added.
  cbn zeta. split; [exact Hfile|]. split; [rewrite Hresp; reflexivity|].
  split; [exact Hrows|]. split; [exact Hadd|]. split; [exact Hrep|exact Hsort].
Qed.

Lemma import_keeps_to_the_sheet_witness :
  exists firstRow rest i s ds added,
    sheet [jane_row; bob_row; jane_again] = sheet (firstRow :: rest)
    /\ data (fst (importAttendees 1 (sheet [jane_row; bob_row; jane_again])
                    sample_world))
       = import_report i s ds
    /\ Forall (fun d => exists n r, nth_error (firstRow :: rest) n = Some r
                          /\ reports_row (key_text (findKey firstRow nameKeys))
                               (findKey firstRow phoneKeys)
                               (findKey firstRow emailKeys) r (n + 2) d) ds
    /\ StronglySorted lt (map rowIndex ds)
    /\ Forall (fun a => exists r, In r (firstRow :: rest)
                          /\ from_row 1 (key_text (findKey firstRow nameKeys))
                               (findKey firstRow phoneKeys)
                               (findKey firstRow emailKeys) r a) added.
Proof.
  destruct (import_keeps_to_the_sheet 1 (sheet [jane_row; bob_row; jane_again])
              sample_world eq_refl)
    as [firstRow [rest [i [s [ds [added [H1 [H2 [_ [H4 [H5 H6]]]]]]]]]]].
  exists firstRow, rest, i, s, ds, added. auto.
Defined.

(* ------------------------------------------------------------------ *)
(** ** The fault plan is the store's *)
















(* ------------------------------------------------------------------ *)
(** ** Confirming duplicates *)













(* ------------------------------------------------------------------ *)
(** ** Importing a file twice *)









(* ------------------------------------------------------------------ *)
(** ** Manual add: the statements after the check *)

Lemma query_not_due {A} (s : statement) (sem : world -> error + A * world) w :
  fault_due w = false ->
  query s sem w
  = match sem w with
    | inl e => (Throw e, note s false w)
    | inr (a, w') => (Ok a, note s true w')
    end.
Proof. intros H. unfold query. rewrite H. reflexivity. Qed.

Lemma query_due {A} (s : statement) (sem : world -> error + A * world) w :
  fault_due w = true -> query s sem w = (Throw StoreFault, note s false w).
Proof. intros H. unfold query. rewrite H. reflexivity. Qed.

(** X19.  [addAttendee] is not atomic: when the store accepts the [INSERT]
    and then fails on the statistics query, the caller receives the 500
    response and nothing is broadcast, yet the attendee is in the roster. *)
Theorem addAttendee_failure_after_insert eid name phone mail w e :
  faults w = [length (issued w) + 2] ->
  event_of eid w = Some e ->
  is_finished e = false ->
  truthy name = true ->
  fits_columns (toString (trimmed name)) (or_null (trimmed phone)) (or_null mail)
  = true ->
  let row := mkAttendee (attendees_id_seq w) eid (toString (trimmed name))
               (or_null (trimmed phone)) (or_null mail) false None src_manual
               (S (clock w)) (S (clock w)) in
  exists w',
    addAttendee eid name phone mail w
    = (mkResponse 500 false "Server error" no_body, w')
    /\ attendees w' = attendees w ++ [row]
    /\ emitted w' = emitted w
    /\ sent_during w w'
       = [(SelectStats eid, false);
          (InsertAttendee eid (toString (trimmed name)) (or_null (trimmed phone))
             (or_null mail) src_manual, true);
          (SelectEvent eid, true)].
Proof.
  intros Hf He Hfin Hname Hfit row.
  assert (Hneq1 : (length (issued w) =? length (issued w) + 2) = false)
    by (apply Nat.eqb_neq; lia).
  assert (Hneq2 : (S (length (issued w)) =? length (issued w) + 2) = false)
    by (apply Nat.eqb_neq; lia).
  assert (Heq3 : (S (S (length (issued w))) =? length (issued w) + 2) = true)
    by (apply Nat.eqb_eq; lia).
  unfold addAttendee. rewrite Hname. cbn [negb]. unfold respond, bind.
  unfold select_event. rewrite query_not_due
    by (unfold fault_due; rewrite Hf; cbn [existsb]; rewrite Hneq1; reflexivity).
  destruct (find_filter _ _ _ He) as [rest ->]. cbn [first_is_finished].
  rewrite Hfin.
  unfold insert_attendee. rewrite query_not_due
    by (unfold fault_due; cbn [issued faults note length]; rewrite Hf;
        cbn [existsb]; rewrite Hneq2; reflexivity).
  unfold fits_columns in Hfit. apply negb_true_iff in Hfit. rewrite Hfit.
  cbn [events note]. rewrite (find_existsb _ _ _ He). cbn [negb].
  unfold getEventStats. rewrite query_due.
  2:{ unfold fault_due, set_view, next_id.
      cbn [issued faults note length]. rewrite Hf. cbn [existsb].
      rewrite Heq3. reflexivity. }
  unfold server_error. eexists. split; [reflexivity|].
  unfold set_view, next_id, view. cbn [attendees emitted note txn clock].
  split; [reflexivity|]. split; [reflexivity|].
  apply sent_during_app. reflexivity.
Qed.

Lemma addAttendee_failure_after_insert_witness :
  exists w',
    addAttendee 1 (JStr " John Doe ") (JStr "0812345678") JUndefined
      failing_stats_world
    = (mkResponse 500 false "Server error" no_body, w')
    /\ attendees w'
       = [john_doe; mary; martha;
          mkAttendee 4 1 "John Doe" (Some "0812345678") None false None
            src_manual 11 11]
    /\ emitted w' = [].
Proof.
  destruct (addAttendee_failure_after_insert 1 (JStr " John Doe ")
              (JStr "0812345678") JUndefined failing_stats_world retreat)
    as [w' [Hrun [Hrows [Hem _]]]]; try reflexivity.
  exists w'. split; [exact Hrun|]. split; [exact Hrows | exact Hem].
Defined.

(** X20.  The validator of [addAttendee] tests the name before it is
    trimmed: a name made of white space only passes, and the attendee is
    stored with the empty name; the import loop, which trims first, skips a
    row with the same cell. *)
Theorem addAttendee_stores_a_blank_name eid s phone mail w e :
  faults w = [] ->
  event_of eid w = Some e ->
  is_finished e = false ->
  s <> "" ->
  trim s = "" ->
  fits_columns "" (or_null (trimmed phone)) (or_null mail) = true ->
  (exists new w',
      addAttendee eid (JStr s) phone mail w
      = (mkResponse 201 true "" (attendee_data new), w')
      /\ att_name new = ""
      /\ attendees w' = attendees w ++ [new])
  /\ (forall (r : row) key, get r key = Some s -> truthy (cell r key) = false).
Proof.
  intros Hf He Hfin Hs Hblank Hfit. split.
  - assert (Hname : truthy (JStr s) = true)
      by (apply negb_true_iff, String.eqb_neq, Hs).
    unfold addAttendee. rewrite Hname. cbn [negb trimmed toString].
    rewrite Hblank. unfold respond, bind.
    rewrite select_event_run by exact Hf.
    destruct (find_filter _ _ _ He) as [rest ->]. cbn [first_is_finished].
    rewrite Hfin.
    rewrite insert_attendee_run;
      [|exact Hf|exact Hfit|exact (find_existsb _ _ _ He)].
    rewrite getEventStats_run by exact Hf.
    unfold emitToEvent, ret. eexists. eexists. split; [reflexivity|].
    split; reflexivity.
  - intros r key Hget. unfold cell. rewrite Hget, Hblank. reflexivity.
Qed.

Lemma addAttendee_stores_a_blank_name_witness :
  (exists new w',
      addAttendee 1 (JStr "   ") JUndefined JUndefined sample_world
      = (mkResponse 201 true "" (attendee_data new), w')
      /\ att_name new = ""
      /\ attendees w' = attendees sample_world ++ [new])
  /\ (forall (r : row) key, get r key = Some "   " -> truthy (cell r key) = false).
Proof.
  apply (addAttendee_stores_a_blank_name 1 "   " JUndefined JUndefined
           sample_world retreat); try reflexivity.
  discriminate.
Defined.

(* ------------------------------------------------------------------ *)
(** ** Column detection *)

Lemma prefix_refl s : prefix s s = true.
Proof.
  induction s as [|c s IH]; [reflexivity|]. cbn [prefix].
  destruct (ascii_dec c c); [exact IH|contradiction].
Qed.

Lemma includes_refl s : includes s s = true.
Proof. destruct s; cbn [includes]; rewrite prefix_refl; reflexivity. Qed.

Lemma includes_of_empty k : k <> "" -> includes "" k = false.
Proof. destruct k; [contradiction|reflexivity]. Qed.

Lemma find_map {A B} (f : A -> B) (p : B -> bool) l :
  find p (map f l) = option_map f (find (fun x => p (f x)) l).
Proof.
  induction l as [|x l IH]; [reflexivity|]. cbn [map find].
  destruct (p (f x)); [reflexivity|exact IH].
Qed.

Lemma find_pointwise {A} (p q : A -> bool) l :
  (forall x, p x = q x) -> find p l = find q l.
Proof.
  intros H. induction l as [|x l IH]; [reflexivity|]. cbn [find].
  rewrite H, IH. reflexivity.
Qed.

Lemma find_some_existsb {A} (p : A -> bool) l x :
  find p l = Some x -> existsb p l = true.
Proof.
  intros H. apply find_some in H. apply existsb_exists. eauto.
Qed.

(** X21.  For keyword lists without the empty string, as the three lists
    of the import are, [findKey] returns the first header of the sheet that
    contains, lower-cased and trimmed, the first keyword of the list that
    any header contains: keywords take precedence over column order, and a
    header matches by containing the keyword anywhere. *)
Theorem findKey_first_keyword_then_first_header firstRow keys :
  Forall (fun k => k <> "") keys ->
  findKey firstRow keys = first_labelled firstRow keys.
Proof.
  unfold first_labelled.
  induction keys as [|k keys IH]; intros Hkeys; [reflexivity|].
  inversion Hkeys as [|k0 keys0 Hk Hrest]; subst.
  cbn [findKey find]. rewrite find_map.
  rewrite (find_pointwise _ (labelled k)).
  2:{ intros h. unfold labelled.
      destruct (String.eqb_spec (trim (toLowerCase h)) k) as [->|_];
        [rewrite includes_refl|]; reflexivity. }
  destruct (find (labelled k) (object_keys firstRow)) as [h|] eqn:E;
    cbn [option_map].
  - rewrite (find_some_existsb _ _ _ E). cbv beta iota. rewrite E.
    pose proof (find_some _ _ E) as [_ Hh]. unfold labelled in Hh.
    assert (Hne : (trim (toLowerCase h) =? "")%string = false).
    { apply String.eqb_neq. intros Hempty. rewrite Hempty in Hh.
      rewrite (includes_of_empty k Hk) in Hh. discriminate. }
    rewrite Hne. rewrite <- E. apply find_pointwise.
    intros ok. unfold labelled.
    destruct (String.eqb_spec (trim (toLowerCase ok)) (trim (toLowerCase h)))
      as [->|_]; [rewrite Hh|]; reflexivity.
  - rewrite (find_none_existsb _ _ E). cbv beta iota. apply IH, Hrest.
Qed.

Lemma findKey_first_keyword_then_first_header_witness :
  findKey [("Nickname", "Jo"); ("Full Name", "John Doe")] nameKeys
  = Some "Nickname"
  /\ findKey [("Birthplace", "Solo"); ("WhatsApp", "0812")] phoneKeys
     = Some "Birthplace".
Proof.
  split.
  - rewrite findKey_first_keyword_then_first_header; [reflexivity|].
    repeat constructor; discriminate.
  - rewrite findKey_first_keyword_then_first_header; [reflexivity|].
    repeat constructor; discriminate.
Defined.

(** X22.  The key the name query computes in SQL from a stored name,
    [regexp_replace(lower(name), '[^a-z0-9]', '', 'g')], is the key
    [normalizeName] computes from the same name: the query selects the
    attendees of the event whose [normalizeName] is the candidate's. *)
Theorem name_query_compares_normalizeName eid name a :
  JStr (sql_name_key (att_name a)) = normalizeName (JStr (att_name a))
  /\ (name_matches eid (toString (normalizeName name)) a = true
      <-> event_id a = eid
          /\ normalizeName (JStr (att_name a)) = normalizeName name).
Proof.
  split; [apply sql_name_key_is_normalizeName|].
  exact (name_matches_iff eid name a).
Qed.

(* ------------------------------------------------------------------ *)
(** ** The events router *)

Lemma events_query_run {A} (sem : Events.state -> option (A * Events.state)) s :
  Events.failing s = [] ->
  Events.query sem s
  = match sem s with
    | None => (None, Events.tick s)
    | Some (a, s') => (Some a, Events.tick s')
    end.
Proof.
  intros H. unfold Events.query, Events.fault_due. rewrite H. reflexivity.
Qed.

Lemma events_query_cases {A} (sem : Events.state -> option (A * Events.state)) s :
  Events.query sem s = (None, Events.tick s)
  \/ exists a s', sem s = Some (a, s')
                  /\ Events.query sem s = (Some a, Events.tick s').
Proof.
  unfold Events.query. destruct (Events.fault_due s); [left; reflexivity|].
  destruct (sem s) as [[a s']|]; [right; eauto|left; reflexivity].
Qed.

Lemma filter_drawn id s :
  Events.ids_drawn s ->
  Events.events_id_seq s <= id ->
  filter (Events.has_id id) (Events.event_rows s) = [].
Proof.
  unfold Events.ids_drawn. intros H Hid.
  induction H as [|e rows He _ IH]; [reflexivity|]. cbn [filter].
  unfold Events.has_id at 1.
  destruct (Nat.eqb_spec (Events.rec_id e) id); [lia|exact IH].
Qed.

Section EventsRouter.

Variable isDate : string -> bool.
Variable isBoolean : jsval -> bool.
Variable bcrypt_hash : nat -> string -> string.
Variable bcrypt_compare : string -> string -> bool.
Variable pg_date : string -> bool.
Variable pg_time : string -> bool.

(** What the router relies on [bcrypt] for: a password matches its own
    hash and no other (no collisions), and a hash is not the empty text. *)
Hypothesis compare_hash :
  forall salt p, bcrypt_compare p (bcrypt_hash salt p) = true.
Hypothesis compare_only_hash :
  forall salt p q, bcrypt_compare q (bcrypt_hash salt p) = true -> q = p.
Hypothesis hash_not_empty : forall salt p, bcrypt_hash salt p <> "".

(** The answer of [verifyPassword] is read off the first row of the id. *)
Lemma verifyPassword_reads_first id q s :
  Events.failing s = [] ->
  fst (Events.verifyPassword bcrypt_compare id q s)
  = match filter (Events.has_id id) (Events.event_rows s) with
    | [] => Events.not_found
    | e :: _ =>
        match Events.rec_password_hash e with
        | None => Events.mkReply 200 true "No password required" None None
        | Some h =>
            if (h =? "")%string
            then Events.mkReply 200 true "No password required" None None
            else if negb (truthy q)
            then Events.mkReply 401 false "Password required" None None
            else if bcrypt_compare (toString q) h
            then Events.mkReply 200 true "Password accepted" None None
            else Events.mkReply 401 false "Incorrect password" None None
        end
    end.
Proof.
  intros Hf. unfold Events.verifyPassword, Events.select_event.
  rewrite events_query_run by exact Hf.
  destruct (filter _ _) as [|e rest]; [reflexivity|].
  destruct (Events.rec_password_hash e) as [h|]; cbn [Events.truthy_text negb];
    [|reflexivity].
  destruct (h =? "")%string; cbn [negb]; [reflexivity|].
  destruct (truthy q); cbn [negb]; [|reflexivity].
  destruct (bcrypt_compare _ _); reflexivity.
Qed.

Lemma createEvent_run f s :
  Events.failing s = [] ->
  truthy (Events.f_name f) = true ->
  Events.date_passes isDate (Events.f_date f) = true ->
  Events.accepted pg_date pg_time (toString (trimmed (Events.f_name f)))
    (or_null (Events.f_date f)) (or_null (Events.f_time f))
    (or_null (trimmed (Events.f_location f)))
    (Events.fresh_hash bcrypt_hash (Events.f_password f) s) = true ->
  exists e s1,
    Events.createEvent isDate bcrypt_hash pg_date pg_time f s
    = (Events.mkReply 201 true "" (Some (Events.sanitize e)) None, s1)
    /\ Events.rec_id e = Events.events_id_seq s
    /\ Events.rec_name e = toString (trimmed (Events.f_name f))
    /\ Events.rec_password_hash e
       = Events.fresh_hash bcrypt_hash (Events.f_password f) s
    /\ Events.event_rows s1 = Events.event_rows s ++ [e]
    /\ Events.attendee_rows s1 = Events.attendee_rows s
    /\ Events.failing s1 = [].
Proof.
  intros Hf Hname Hdate Hacc.
  unfold Events.createEvent. rewrite Hname, Hdate. cbn [andb negb].
  unfold Events.insert_event. rewrite events_query_run.
  2:{ unfold Events.salt_drawn. destruct (Events.fresh_hash _ _ _); exact Hf. }
  assert (Hsame : forall s', s' = Events.salt_drawn bcrypt_hash (Events.f_password f) s ->
            Events.event_rows s' = Events.event_rows s
            /\ Events.attendee_rows s' = Events.attendee_rows s
            /\ Events.events_id_seq s' = Events.events_id_seq s
            /\ Events.failing s' = Events.failing s).
  { intros s' ->. unfold Events.salt_drawn.
    destruct (Events.fresh_hash _ _ _); auto. }
  destruct (Hsame _ eq_refl) as [He [Ha [Hs Hfl]]].
  rewrite Hacc. eexists. eexists. split; [reflexivity|].
  cbn. rewrite He, Ha, Hs, Hfl. auto 10.
Qed.


(** X24.  A password that is missing, empty or white space only creates an
    event without protection: on a store that answers, [verifyPassword]
    for it accepts any request, with or without a password. *)
Theorem blank_password_creates_an_open_event f s :
  Events.failing s = [] ->
  Events.ids_drawn s ->
  truthy (Events.f_name f) = true ->
  Events.date_passes isDate (Events.f_date f) = true ->
  trim (toString (Events.f_password f)) = "" ->
  Events.accepted pg_date pg_time (toString (trimmed (Events.f_name f)))
    (or_null (Events.f_date f)) (or_null (Events.f_time f))
    (or_null (trimmed (Events.f_location f))) None = true ->
  exists e s1,
    Events.createEvent isDate bcrypt_hash pg_date pg_time f s
    = (Events.mkReply 201 true "" (Some (Events.sanitize e)) None, s1)
    /\ Events.is_protected (Events.sanitize e) = false
    /\ forall q,
         fst (Events.verifyPassword bcrypt_compare (Events.rec_id e) q s1)
         = Events.mkReply 200 true "No password required" None None.
Proof.
  intros Hf Hids Hname Hdate Hpw Hacc.
  assert (Hfresh : Events.fresh_hash bcrypt_hash (Events.f_password f) s = None).
  { unfold Events.fresh_hash. rewrite Hpw. cbn. rewrite andb_false_r.
    reflexivity. }
  rewrite <- Hfresh in Hacc.
  destruct (createEvent_run f s Hf Hname Hdate Hacc)
    as [e [s1 [Hrun [Hid [_ [Hhash [Hrows [_ Hf1]]]]]]]].
  rewrite Hfresh in Hhash.
  exists e, s1. split; [exact Hrun|]. split.
  { unfold Events.sanitize. cbn [Events.is_protected]. rewrite Hhash.
    reflexivity. }
  intros q. rewrite verifyPassword_reads_first by exact Hf1.
  rewrite Hrows, filter_app, Hid, (filter_drawn _ s Hids (le_n _)).
  cbn [filter app]. unfold Events.has_id. rewrite Hid, Nat.eqb_refl.
  rewrite Hhash. reflexivity.
Qed.

Lemma filter_map_has_id id (g : Events.event_record -> Events.event_record) rows :
  (forall e, Events.rec_id (g e) = Events.rec_id e) ->
  filter (Events.has_id id) (map g rows) = map g (filter (Events.has_id id) rows).
Proof.
  intros Hg. induction rows as [|e rows IH]; [reflexivity|].
  cbn [map filter].
  assert (H : Events.has_id id (g e) = Events.has_id id e)
    by (unfold Events.has_id; rewrite Hg; reflexivity).
  rewrite H. destruct (Events.has_id id e); cbn [map]; rewrite IH; reflexivity.
Qed.

Lemma update_elsewhere id id' (g : Events.event_record -> Events.event_record) rows :
  (forall e, Events.rec_id (g e) = Events.rec_id e) ->
  id' <> id ->
  filter (Events.has_id id')
    (map (fun e => if Events.has_id id e then g e else e) rows)
  = filter (Events.has_id id') rows.
Proof.
  intros Hg Hne. induction rows as [|e rows IH]; [reflexivity|].
  cbn [map filter]. rewrite IH. unfold Events.has_id.
  destruct (Nat.eqb_spec (Events.rec_id e) id) as [Hid|_]; [|reflexivity].
  rewrite Hg.
  destruct (Nat.eqb_spec (Events.rec_id e) id'); [congruence|reflexivity].
Qed.

Lemma update_nothing id (g : Events.event_record -> Events.event_record) rows :
  filter (Events.has_id id) rows = [] ->
  map (fun e => if Events.has_id id e then g e else e) rows = rows.
Proof.
  induction rows as [|e rows IH]; [reflexivity|]. cbn [map filter].
  destruct (Events.has_id id e); [discriminate|].
  intros H. rewrite (IH H). reflexivity.
Qed.

Lemma updateEvent_run id f s current rest :
  Events.failing s = [] ->
  truthy (Events.f_name f) = true ->
  Events.date_passes isDate (Events.f_date f) = true ->
  Events.remove_password_passes isBoolean (Events.f_remove_password f) = true ->
  filter (Events.has_id id) (Events.event_rows s) = current :: rest ->
  let hash :=
    if truthy (Events.f_remove_password f) then None
    else match Events.fresh_hash bcrypt_hash (Events.f_password f) s with
         | Some h => Some h
         | None => Events.rec_password_hash current
         end in
  Events.accepted pg_date pg_time (toString (trimmed (Events.f_name f)))
    (or_null (Events.f_date f)) (or_null (Events.f_time f))
    (or_null (Events.f_location f)) hash = true ->
  exists e s1 others,
    Events.updateEvent isDate isBoolean bcrypt_hash pg_date pg_time id f s
    = (Events.mkReply 200 true "" (Some (Events.sanitize e)) None, s1)
    /\ Events.rec_password_hash e = hash
    /\ Events.rec_name e = toString (trimmed (Events.f_name f))
    /\ filter (Events.has_id id) (Events.event_rows s1) = e :: others
    /\ (forall id', id' <> id ->
          filter (Events.has_id id') (Events.event_rows s1)
          = filter (Events.has_id id') (Events.event_rows s))
    /\ Events.attendee_rows s1 = Events.attendee_rows s
    /\ Events.failing s1 = [].
Proof.
  intros Hf Hname Hdate Hremove Hrows hash Hacc.
  unfold Events.updateEvent. rewrite Hname, Hdate, Hremove. cbn [andb negb].
  unfold Events.select_event. rewrite events_query_run by exact Hf.
  rewrite Hrows.
  change (Events.fresh_hash bcrypt_hash (Events.f_password f) (Events.tick s))
    with (Events.fresh_hash bcrypt_hash (Events.f_password f) s).
  fold hash.
  set (s2 := if truthy (Events.f_remove_password f) then Events.tick s
             else Events.salt_drawn bcrypt_hash (Events.f_password f)
                    (Events.tick s)).
  assert (Hs2 : Events.event_rows s2 = Events.event_rows s
                /\ Events.attendee_rows s2 = Events.attendee_rows s
                /\ Events.failing s2 = []).
  { clear Hacc. subst s2 hash. unfold Events.salt_drawn.
    destruct (truthy (Events.f_remove_password f));
      [|destruct (Events.fresh_hash _ _ (Events.tick s))]; auto. }
  destruct Hs2 as [He2 [Ha2 Hf2]].
  unfold Events.update_event. rewrite events_query_run by exact Hf2.
  rewrite Hacc, He2.
  rewrite (filter_map_has_id id
             (fun e => if Events.has_id id e
                       then Events.set_columns _ _ _ _ _ hash (Events.now s2) e
                       else e))
    by (intros e; destruct (Events.has_id id e); reflexivity).
  rewrite Hrows. cbn [map].
  assert (Hcur : Events.has_id id current = true).
  { assert (Hin : In current (filter (Events.has_id id) (Events.event_rows s)))
      by (rewrite Hrows; left; reflexivity).
    apply filter_In in Hin. tauto. }
  rewrite Hcur. eexists. eexists. eexists.
  split; [reflexivity|]. cbn [Events.rec_password_hash Events.rec_name
    Events.set_columns Events.event_rows Events.attendee_rows Events.failing
    Events.tick].
  split; [reflexivity|]. split; [reflexivity|].
  split.
  { rewrite (filter_map_has_id id
               (fun e => if Events.has_id id e
                         then Events.set_columns _ _ _ _ _ hash (Events.now s2) e
                         else e))
      by (intros e; destruct (Events.has_id id e); reflexivity).
    rewrite Hrows. cbn [map]. rewrite Hcur. reflexivity. }
  split; [intros id' Hne; apply update_elsewhere; [reflexivity|exact Hne]|].
  split; [exact Ha2|exact Hf2].
Qed.

(** X25.  In an update, [remove_password] wins over [password]: on a
    store that answers, when the flag is truthy the event ends without
    protection whatever password is sent along, and [verifyPassword] then
    accepts any request. *)
Theorem remove_password_wins id f s current :
  Events.failing s = [] ->
  truthy (Events.f_name f) = true ->
  Events.date_passes isDate (Events.f_date f) = true ->
  Events.remove_password_passes isBoolean (Events.f_remove_password f) = true ->
  find (Events.has_id id) (Events.event_rows s) = Some current ->
  truthy (Events.f_remove_password f) = true ->
  Events.accepted pg_date pg_time (toString (trimmed (Events.f_name f)))
    (or_null (Events.f_date f)) (or_null (Events.f_time f))
    (or_null (Events.f_location f)) None = true ->
  exists e s1,
    Events.updateEvent isDate isBoolean bcrypt_hash pg_date pg_time id f s
    = (Events.mkReply 200 true "" (Some (Events.sanitize e)) None, s1)
    /\ Events.is_protected (Events.sanitize e) = false
    /\ forall q,
         fst (Events.verifyPassword bcrypt_compare id q s1)
         = Events.mkReply 200 true "No password required" None None.
Proof.
  intros Hf Hname Hdate Hremove Hfind Hflag Hacc.
  destruct (find_filter _ _ _ Hfind) as [rest Hrows].
  destruct (updateEvent_run id f s current rest Hf Hname Hdate Hremove Hrows)
    as [e [s1 [others [Hrun [Hhash [_ [Hfirst [_ [_ Hf1]]]]]]]]].
  { rewrite Hflag. exact Hacc. }
  rewrite Hflag in Hhash.
  exists e, s1. split; [exact Hrun|]. split.
  { unfold Events.sanitize. cbn [Events.is_protected]. rewrite Hhash.
    reflexivity. }
  intros q. rewrite verifyPassword_reads_first by exact Hf1.
  rewrite Hfirst, Hhash. reflexivity.
Qed.

(** X26.  An update that neither asks to remove the password nor carries
    a new one (missing, empty or white space only) keeps the protection of
    every event as it was: on a store that answers, [verifyPassword]
    answers every request, for every event, as it did before. *)
Theorem update_keeps_the_password id f s current :
  Events.failing s = [] ->
  truthy (Events.f_name f) = true ->
  Events.date_passes isDate (Events.f_date f) = true ->
  Events.remove_password_passes isBoolean (Events.f_remove_password f) = true ->
  find (Events.has_id id) (Events.event_rows s) = Some current ->
  truthy (Events.f_remove_password f) = false ->
  trim (toString (Events.f_password f)) = "" ->
  Events.accepted pg_date pg_time (toString (trimmed (Events.f_name f)))
    (or_null (Events.f_date f)) (or_null (Events.f_time f))
    (or_null (Events.f_location f)) (Events.rec_password_hash current) = true ->
  exists e s1,
    Events.updateEvent isDate isBoolean bcrypt_hash pg_date pg_time id f s
    = (Events.mkReply 200 true "" (Some (Events.sanitize e)) None, s1)
    /\ Events.pub_name (Events.sanitize e) = toString (trimmed (Events.f_name f))
    /\ forall id' q,
         fst (Events.verifyPassword bcrypt_compare id' q s1)
         = fst (Events.verifyPassword bcrypt_compare id' q s).
Proof.
  intros Hf Hname Hdate Hremove Hfind Hflag Hpw Hacc.
  destruct (find_filter _ _ _ Hfind) as [rest Hrows].
  assert (Hfresh : Events.fresh_hash bcrypt_hash (Events.f_password f) s = None).
  { unfold Events.fresh_hash. rewrite Hpw. cbn. rewrite andb_false_r.
    reflexivity. }
  destruct (updateEvent_run id f s current rest Hf Hname Hdate Hremove Hrows)
    as [e [s1 [others [Hrun [Hhash [Hn [Hfirst [Helse [_ Hf1]]]]]]]]].
  { rewrite Hflag, Hfresh. exact Hacc. }
  rewrite Hflag, Hfresh in Hhash.
  exists e, s1. split; [exact Hrun|]. split; [exact Hn|].
  intros id' q. rewrite !verifyPassword_reads_first by assumption.
  destruct (Nat.eq_dec id' id) as [->|Hne].
  - rewrite Hfirst, Hrows, Hhash. reflexivity.
  - rewrite (Helse id' Hne). reflexivity.
Qed.

(** X27.  On a store that answers, deleting an existing event answers 200
    and takes its attendees with it ([ON DELETE CASCADE]): the event and
    its attendees are gone, the other events and their attendees stay in
    their order, and the event is then unknown to the router. *)
Theorem deleteEvent_cascades id s e :
  Events.failing s = [] ->
  find (Events.has_id id) (Events.event_rows s) = Some e ->
  exists s1,
    Events.deleteEvent id s
    = (Events.mkReply 200 true "Event deleted successfully" None None, s1)
    /\ Events.event_rows s1
       = filter (fun e => negb (Events.has_id id e)) (Events.event_rows s)
    /\ Events.attendee_rows s1
       = filter (fun a => negb (in_event id a)) (Events.attendee_rows s)
    /\ count_stats id (Events.attendee_rows s1) = mkStats 0 0
    /\ fst (Events.deleteEvent id s1) = Events.not_found
    /\ fst (Events.getEvent id s1) = Events.not_found
    /\ Events.attendee_rows (snd (Events.deleteEvent id s1))
       = Events.attendee_rows s1.
Proof.
  intros Hf Hfind. destruct (find_filter _ _ _ Hfind) as [rest Hrows].
  unfold Events.deleteEvent at 1, Events.delete_event.
  rewrite events_query_run by exact Hf. rewrite Hrows.
  eexists. split; [reflexivity|].
  cbn [Events.event_rows Events.attendee_rows Events.tick].
  split; [reflexivity|]. split; [reflexivity|].
  assert (Hgone : forall rows : list Events.event_record,
             filter (Events.has_id id)
               (filter (fun e => negb (Events.has_id id e)) rows) = []).
  { induction rows as [|x rows IH]; [reflexivity|]. cbn [filter].
    destruct (Events.has_id id x) eqn:E; cbn [negb filter];
      [|rewrite E]; exact IH. }
  split.
  { unfold count_stats.
    assert (Hnone : forall (p : attendee_row -> bool) rows,
               filter (fun a => in_event id a && p a)
                 (filter (fun a => negb (in_event id a)) rows) = []).
    { intros p rows. induction rows as [|a rows IH]; [reflexivity|].
      cbn [filter]. destruct (in_event id a) eqn:E; cbn [negb filter];
        [|rewrite E]; exact IH. }
    rewrite (Hnone (fun a => checked_in a)).
    pose proof (Hnone (fun _ => true)) as H1.
    erewrite filter_ext; [rewrite H1; reflexivity|].
    intros a. cbv beta. rewrite andb_true_r. reflexivity. }
  unfold Events.deleteEvent, Events.getEvent, Events.delete_event,
    Events.select_event.
  rewrite !events_query_run by exact Hf.
  cbn [Events.event_rows Events.tick]. rewrite Hgone.
  split; [reflexivity|]. split; reflexivity.
Qed.

(** X28.  Whatever the store does, a request to the events router that is
    not answered with 200 or 201 (validation, unknown event, wrong
    password, failure of the store) has left both tables as they were. *)
Theorem failed_event_requests_change_nothing q s :
  Events.succeeded
    (fst (Events.serve isDate isBoolean bcrypt_hash bcrypt_compare pg_date
            pg_time q s)) = false ->
  Events.event_rows
    (snd (Events.serve isDate isBoolean bcrypt_hash bcrypt_compare pg_date
            pg_time q s)) = Events.event_rows s
  /\ Events.attendee_rows
       (snd (Events.serve isDate isBoolean bcrypt_hash bcrypt_compare pg_date
               pg_time q s)) = Events.attendee_rows s.
Proof.
  assert (Hsalt : forall pw s0,
             Events.event_rows (Events.salt_drawn bcrypt_hash pw s0)
             = Events.event_rows s0
             /\ Events.attendee_rows (Events.salt_drawn bcrypt_hash pw s0)
                = Events.attendee_rows s0).
  { intros pw s0. unfold Events.salt_drawn.
    destruct (Events.fresh_hash _ _ _); auto. }
  destruct q as [id|id pw|f|id f|id]; cbn [Events.serve].
  - unfold Events.getEvent, Events.select_event, Events.select_stats.
    destruct (events_query_cases
                (fun s0 => Some (filter (Events.has_id id) (Events.event_rows s0), s0)) s)
      as [->|[rows [s' [Hs ->]]]]; [auto|].
    injection Hs as <- <-. destruct (filter _ _) as [|e rows]; [auto|].
    destruct (events_query_cases
                (fun s0 => Some (count_stats id (Events.attendee_rows s0), s0))
                (Events.tick s))
      as [->|[st [s' [Hs ->]]]]; [auto|].
    injection Hs as <- <-. auto.
  - unfold Events.verifyPassword, Events.select_event.
    destruct (events_query_cases
                (fun s0 => Some (filter (Events.has_id id) (Events.event_rows s0), s0)) s)
      as [->|[rows [s' [Hs ->]]]]; [auto|].
    injection Hs as <- <-. destruct (filter _ _) as [|e rows]; [auto|].
    destruct (negb (Events.truthy_text _)); [auto|].
    destruct (negb (truthy pw)); [auto|].
    destruct (negb (bcrypt_compare _ _)); auto.
  - unfold Events.createEvent.
    destruct (negb _); [auto|].
    unfold Events.insert_event.
    match goal with
    | |- context [Events.query ?sem ?s0] =>
        destruct (events_query_cases sem s0) as [->|[a [s' [Hs ->]]]]
    end.
    + intros _. cbn [snd Events.tick Events.event_rows Events.attendee_rows].
      apply Hsalt.
    + discriminate.
  - unfold Events.updateEvent.
    destruct (negb _); [auto|].
    unfold Events.select_event.
    destruct (events_query_cases
                (fun s0 => Some (filter (Events.has_id id) (Events.event_rows s0), s0)) s)
      as [->|[rows [s' [Hs ->]]]]; [auto|].
    injection Hs as <- <-.
    destruct (filter (Events.has_id id) (Events.event_rows s)) as [|cur rows];
      [auto|].
    unfold Events.update_event.
    match goal with
    | |- context [Events.query ?sem ?s0] =>
        destruct (events_query_cases sem s0) as [->|[a [s' [Hs ->]]]];
        [|cbv beta in Hs]
    end.
    + intros _. cbn [snd Events.tick Events.event_rows Events.attendee_rows].
      destruct (truthy (Events.f_remove_password f)); [auto|].
      destruct (Hsalt (Events.f_password f) (Events.tick s)). auto.
    + destruct (Events.accepted _ _ _ _ _ _ _); [|discriminate].
      injection Hs as <- <-.
      match goal with
      | |- context [filter (Events.has_id id) (map ?g ?l)] =>
          destruct (filter (Events.has_id id) (map g l)) as [|e others] eqn:E
      end; [|discriminate].
      intros _. cbn [snd Events.tick Events.event_rows Events.attendee_rows].
      rewrite filter_map_has_id in E
        by (intros e; destruct (Events.has_id id e); reflexivity).
      apply map_eq_nil in E.
      destruct (truthy (Events.f_remove_password f));
        [|destruct (Hsalt (Events.f_password f) (Events.tick s)) as [-> ->]];
        cbn [Events.tick Events.event_rows Events.attendee_rows] in *.
      * split; [apply (update_nothing id), E|reflexivity].
      * destruct (Hsalt (Events.f_password f) (Events.tick s)) as [He _].
        rewrite He in E. split; [apply (update_nothing id), E|reflexivity].
  - unfold Events.deleteEvent, Events.delete_event.
    match goal with
    | |- context [Events.query ?sem ?s0] =>
        destruct (events_query_cases sem s0) as [->|[a [s' [Hs ->]]]];
        [|cbv beta zeta in Hs]
    end; [auto|].
    destruct (filter (Events.has_id id) (Events.event_rows s));
      injection Hs as <- <-; [auto|discriminate].
Qed.

End EventsRouter.





Lemma blank_password_creates_an_open_event_witness :
  exists e s1,
    Events.createEvent Events.any_text Events.toy_hash Events.any_text
      Events.any_text Events.blank_form Events.empty_state
    = (Events.mkReply 201 true "" (Some (Events.sanitize e)) None, s1)
    /\ Events.is_protected (Events.sanitize e) = false
    /\ forall q,
         fst (Events.verifyPassword Events.toy_compare (Events.rec_id e) q s1)
         = Events.mkReply 200 true "No password required" None None.
Proof.
  apply (blank_password_creates_an_open_event Events.any_text Events.toy_hash
           Events.toy_compare Events.any_text Events.any_text
           Events.blank_form Events.empty_state);
    try reflexivity. constructor.
Defined.

Lemma remove_password_wins_witness :
  Events.code (fst (Events.verifyPassword Events.toy_compare 1 (JStr "wrong")
                      Events.guarded_state)) = 401
  /\ exists e s1,
      Events.updateEvent Events.any_text Events.any_value Events.toy_hash
        Events.any_text Events.any_text 1 Events.removal_form
        Events.guarded_state
      = (Events.mkReply 200 true "" (Some (Events.sanitize e)) None, s1)
      /\ Events.is_protected (Events.sanitize e) = false
      /\ forall q,
           fst (Events.verifyPassword Events.toy_compare 1 q s1)
           = Events.mkReply 200 true "No password required" None None.
Proof.
  split; [reflexivity|].
  eapply (remove_password_wins Events.any_text Events.any_value Events.toy_hash
            Events.toy_compare Events.any_text Events.any_text
            1 Events.removal_form Events.guarded_state);
    reflexivity.
Defined.

Lemma update_keeps_the_password_witness :
  exists e s1,
    Events.updateEvent Events.any_text Events.any_value Events.toy_hash
      Events.any_text Events.any_text 1 Events.rename_form Events.guarded_state
    = (Events.mkReply 200 true "" (Some (Events.sanitize e)) None, s1)
    /\ Events.pub_name (Events.sanitize e) = "Camp"
    /\ forall id' q,
         fst (Events.verifyPassword Events.toy_compare id' q s1)
         = fst (Events.verifyPassword Events.toy_compare id' q
                  Events.guarded_state).
Proof.
  eapply (update_keeps_the_password Events.any_text Events.any_value
            Events.toy_hash Events.toy_compare Events.any_text Events.any_text
            1 Events.rename_form Events.guarded_state);
    reflexivity.
Defined.

Lemma deleteEvent_cascades_witness :
  exists s1,
    Events.deleteEvent 1 Events.guarded_state
    = (Events.mkReply 200 true "Event deleted successfully" None None, s1)
    /\ Events.attendee_rows s1 = [mary; martha]
    /\ fst (Events.getEvent 1 s1) = Events.not_found.
Proof.
  destruct (deleteEvent_cascades 1 Events.guarded_state
              (Events.mkRecord 1 "Retreat" None None None None (Some "#secret")
                 false 0 0))
    as [s1 [Hrun [_ [Hrows [_ [_ [Hget _]]]]]]]; try reflexivity.
  exists s1. split; [exact Hrun|]. split; [exact Hrows|exact Hget].
Defined.

Lemma failed_event_requests_change_nothing_witness :
  let out := Events.serve Events.any_text Events.any_value Events.toy_hash
               Events.toy_compare Events.any_text Events.any_text
               (Events.verify_password 1 (JStr "wrong")) Events.guarded_state in
  Events.code (fst out) = 401
  /\ Events.event_rows (snd out) = Events.event_rows Events.guarded_state
  /\ Events.attendee_rows (snd out) = Events.attendee_rows Events.guarded_state.
Proof.
  intros out. split; [reflexivity|].
  apply (failed_event_requests_change_nothing Events.any_text Events.any_value
           Events.toy_hash Events.toy_compare Events.any_text Events.any_text
           (Events.verify_password 1 (JStr "wrong")) Events.guarded_state).
  reflexivity.
Defined.

(** X29.  Whatever the store does, the reading routes of the events
    router ([getEvent], [verifyPassword]) leave both tables as they were,
    and only [deleteEvent] ever changes the attendees. *)
Theorem event_requests_keep_to_their_table isDate isBoolean bcrypt_hash
  bcrypt_compare pg_date pg_time q s :
  let s' := snd (Events.serve isDate isBoolean bcrypt_hash bcrypt_compare
                   pg_date pg_time q s) in
  (if Events.is_read q then Events.event_rows s' = Events.event_rows s else True)
  /\ (if Events.is_delete q then True
      else Events.attendee_rows s' = Events.attendee_rows s).
Proof.
  assert (Hsalt : forall pw s0,
             Events.attendee_rows (Events.salt_drawn bcrypt_hash pw s0)
             = Events.attendee_rows s0).
  { intros pw s0. unfold Events.salt_drawn.
    destruct (Events.fresh_hash _ _ _); auto. }
  destruct q as [id|id pw|f|id f|id];
    cbn [Events.serve Events.is_read Events.is_delete]; cbv zeta.
  - unfold Events.getEvent, Events.select_event, Events.select_stats.
    destruct (events_query_cases
                (fun s0 => Some (filter (Events.has_id id) (Events.event_rows s0), s0)) s)
      as [->|[rows [s' [Hs ->]]]]; [auto|].
    injection Hs as <- <-. destruct (filter _ _) as [|e rows]; [auto|].
    destruct (events_query_cases
                (fun s0 => Some (count_stats id (Events.attendee_rows s0), s0))
                (Events.tick s))
      as [->|[st [s' [Hs ->]]]]; [auto|].
    injection Hs as <- <-. auto.
  - unfold Events.verifyPassword, Events.select_event.
    destruct (events_query_cases
                (fun s0 => Some (filter (Events.has_id id) (Events.event_rows s0), s0)) s)
      as [->|[rows [s' [Hs ->]]]]; [auto|].
    injection Hs as <- <-. destruct (filter _ _) as [|e rows]; [auto|].
    destruct (negb (Events.truthy_text _)); [auto|].
    destruct (negb (truthy pw)); [auto|].
    destruct (negb (bcrypt_compare _ _)); auto.
  - split; [exact I|]. unfold Events.createEvent.
    destruct (negb _); [reflexivity|].
    unfold Events.insert_event.
    match goal with
    | |- context [Events.query ?sem ?s0] =>
        destruct (events_query_cases sem s0) as [->|[a [s' [Hs ->]]]];
        [|cbv beta in Hs]
    end.
    + apply Hsalt.
    + destruct (Events.accepted _ _ _ _ _ _ _); [|discriminate].
      injection Hs as <- <-. apply Hsalt.
  - split; [exact I|]. unfold Events.updateEvent.
    destruct (negb _); [reflexivity|].
    unfold Events.select_event.
    destruct (events_query_cases
                (fun s0 => Some (filter (Events.has_id id) (Events.event_rows s0), s0)) s)
      as [->|[rows [s' [Hs ->]]]]; [reflexivity|].
    injection Hs as <- <-.
    destruct (filter (Events.has_id id) (Events.event_rows s)) as [|cur rows];
      [reflexivity|].
    assert (Hs2 : Events.attendee_rows
                    (if truthy (Events.f_remove_password f) then Events.tick s
                     else Events.salt_drawn bcrypt_hash (Events.f_password f)
                            (Events.tick s))
                  = Events.attendee_rows s).
    { destruct (truthy _); [reflexivity|apply (Hsalt _ (Events.tick s))]. }
    unfold Events.update_event.
    match goal with
    | |- context [Events.query ?sem ?s0] =>
        destruct (events_query_cases sem s0) as [->|[a [s' [Hs ->]]]];
        [|cbv beta in Hs]
    end.
    + exact Hs2.
    + destruct (Events.accepted _ _ _ _ _ _ _); [|discriminate].
      injection Hs as <- <-.
      match goal with
      | |- context [filter (Events.has_id id) (map ?g ?l)] =>
          destruct (filter (Events.has_id id) (map g l))
      end; exact Hs2.
  - auto.
Qed.
